(** * Kenta push-to-talk firmware: control loop, debouncer, resolver, frames

    Shallow embedding of two revisions of the ESP32 firmware:

    - [MainC]   embeds [src/firmware/main/main.c]
    - [Part001] embeds [src/unnamed/part_001], the revision that adds the
      button debouncer, mDNS resolution, the red error flash, the checked
      end-marker send and the [process_start] timestamp.

    ([src/unnamed/part_000] holds the README and a first version without
    state machine: connect on press, stream while pressed, marker, close.
    It has the same sample conversion, [sample16] below, and nothing else
    of what is modelled here.)

    The hardware and the network are an [oracle]: one queue of answers per
    external call ([gpio_get_level], [esp_timer_get_time], [socket],
    [connect], [i2s_channel_read], [send], [select], [recv], [mdns_init],
    [mdns_query_a]).  Everything the firmware does to the outside is
    recorded, in order, as a list of [event]s. *)

From Stdlib Require Import ZArith String Ascii List Bool Lia.
Import ListNotations.
Local Open Scope Z_scope.

(** ** Machine integers *)

(** Two's-complement reduction of [x] to a signed [w]-bit value. *)
Definition wrap (w : Z) (x : Z) : Z := (x + 2 ^ (w - 1)) mod 2 ^ w - 2 ^ (w - 1).

Definition int16_t (x : Z) : Z := wrap 16 x.
Definition int32_t (x : Z) : Z := wrap 32 x.
Definition int64_t (x : Z) : Z := wrap 64 x.

Definition in_int16 (x : Z) : Prop := - 2 ^ 15 <= x < 2 ^ 15.
Definition in_int32 (x : Z) : Prop := - 2 ^ 31 <= x < 2 ^ 31.
Definition in_int64 (x : Z) : Prop := - 2 ^ 63 <= x < 2 ^ 63.

(** [a - b] on [int64_t]. *)
Definition sub64 (a b : Z) : Z := int64_t (a - b).

(** ** Constants shared by both revisions *)

Definition SERVER_PORT : Z := 12345.
Definition PIN_BUTTON : Z := 13.
Definition PIN_LED_R : Z := 4.
Definition PIN_LED_G : Z := 18.
Definition PIN_LED_B : Z := 19.
Definition PCM_FRAME_LEN : Z := 256.
Definition WAIT_TIMEOUT_US : Z := 3 * 1000 * 1000.
Definition RECV_TIMEOUT_S : Z := 120.
Definition END_MARKER : list Z := [0xDE; 0xAD; 0xBE; 0xEF].
Definition ESP_OK : Z := 0.

Inductive state_t := STATE_IDLE | STATE_RECORDING | STATE_WAIT | STATE_PROCESSING.

Definition state_eqb (a b : state_t) : bool :=
  match a, b with
  | STATE_IDLE, STATE_IDLE => true
  | STATE_RECORDING, STATE_RECORDING => true
  | STATE_WAIT, STATE_WAIT => true
  | STATE_PROCESSING, STATE_PROCESSING => true
  | _, _ => false
  end.

(** ** Observable actions *)

Inductive log_level := LOG_E | LOG_W | LOG_I.

Inductive event :=
| EvLog (lvl : log_level) (msg : string)
| EvGpioSet (pin level : Z)
| EvSocket (fd : Z)
| EvConnect (fd : Z) (ip : string) (port : Z) (rc : Z)
| EvSend (fd : Z) (buf : list Z) (rc : Z)
| EvSelect (fd : Z) (rc : Z)
| EvRecv (fd : Z) (n : Z)
| EvClose (fd : Z).

(** ** The environment: one queue of answers per external call *)

Record oracle := mkOracle {
  gpio_in : list Z;                (* gpio_get_level(PIN_BUTTON) *)
  clock : list Z;                  (* esp_timer_get_time() *)
  sockets : list Z;                (* socket() *)
  connects : list Z;               (* connect() *)
  i2s_in : list (Z * list Z);      (* i2s_channel_read: esp_err_t, bytes stored *)
  sends : list Z;                  (* send() *)
  selects : list (Z * bool);       (* select() and FD_ISSET(sock) afterwards *)
  recvs : list (Z * Z);            (* recv() and the byte stored, if any *)
  mdns_inits : list Z;             (* mdns_init() *)
  mdns_queries : list (Z * Z)      (* mdns_query_a: esp_err_t, addr.addr *)
}.

Definition no_input : oracle := mkOracle [] [] [] [] [] [] [] [] [] [].

Definition set_gpio_in (o : oracle) (x : list Z) : oracle :=
  mkOracle x (clock o) (sockets o) (connects o) (i2s_in o) (sends o)
           (selects o) (recvs o) (mdns_inits o) (mdns_queries o).
Definition set_clock (o : oracle) (x : list Z) : oracle :=
  mkOracle (gpio_in o) x (sockets o) (connects o) (i2s_in o) (sends o)
           (selects o) (recvs o) (mdns_inits o) (mdns_queries o).
Definition set_sockets (o : oracle) (x : list Z) : oracle :=
  mkOracle (gpio_in o) (clock o) x (connects o) (i2s_in o) (sends o)
           (selects o) (recvs o) (mdns_inits o) (mdns_queries o).
Definition set_connects (o : oracle) (x : list Z) : oracle :=
  mkOracle (gpio_in o) (clock o) (sockets o) x (i2s_in o) (sends o)
           (selects o) (recvs o) (mdns_inits o) (mdns_queries o).
Definition set_i2s_in (o : oracle) (x : list (Z * list Z)) : oracle :=
  mkOracle (gpio_in o) (clock o) (sockets o) (connects o) x (sends o)
           (selects o) (recvs o) (mdns_inits o) (mdns_queries o).
Definition set_sends (o : oracle) (x : list Z) : oracle :=
  mkOracle (gpio_in o) (clock o) (sockets o) (connects o) (i2s_in o) x
           (selects o) (recvs o) (mdns_inits o) (mdns_queries o).
Definition set_selects (o : oracle) (x : list (Z * bool)) : oracle :=
  mkOracle (gpio_in o) (clock o) (sockets o) (connects o) (i2s_in o) (sends o)
           x (recvs o) (mdns_inits o) (mdns_queries o).
Definition set_recvs (o : oracle) (x : list (Z * Z)) : oracle :=
  mkOracle (gpio_in o) (clock o) (sockets o) (connects o) (i2s_in o) (sends o)
           (selects o) x (mdns_inits o) (mdns_queries o).
Definition set_mdns_inits (o : oracle) (x : list Z) : oracle :=
  mkOracle (gpio_in o) (clock o) (sockets o) (connects o) (i2s_in o) (sends o)
           (selects o) (recvs o) x (mdns_queries o).
Definition set_mdns_queries (o : oracle) (x : list (Z * Z)) : oracle :=
  mkOracle (gpio_in o) (clock o) (sockets o) (connects o) (i2s_in o) (sends o)
           (selects o) (recvs o) (mdns_inits o) x.

(** Number of answers left; every loop of the firmware takes at least one
    answer per iteration, so this bounds the iterations of any loop. *)
Definition answers_left (o : oracle) : nat :=
  (length (gpio_in o) + length (clock o) + length (sockets o) +
   length (connects o) + length (i2s_in o) + length (sends o) +
   length (selects o) + length (recvs o) + length (mdns_inits o) +
   length (mdns_queries o))%nat.

(** ** A state, input and output monad

    [M S A]: a computation over the static variables [S] that takes answers
    from the oracle, emits events and returns an [A]; [None] when the oracle
    has no answer left for a call (the run needs a longer environment) or an
    answer breaks the contract of the call. *)

Record res (S A : Type) := mkRes {
  val : A;
  mem : S;
  rest : oracle;
  out : list event
}.
Arguments mkRes {S A}.
Arguments val {S A}.
Arguments mem {S A}.
Arguments rest {S A}.
Arguments out {S A}.

Definition M (S A : Type) : Type := S -> oracle -> option (res S A).

Definition ret {S A} (a : A) : M S A := fun s o => Some (mkRes a s o []).

Definition bind {S A B} (c : M S A) (k : A -> M S B) : M S B := fun s o =>
  match c s o with
  | None => None
  | Some r1 =>
      match k (val r1) (mem r1) (rest r1) with
      | None => None
      | Some r2 => Some (mkRes (val r2) (mem r2) (rest r2) (out r1 ++ out r2))
      end
  end.

Definition fail {S A} : M S A := fun _ _ => None.
Definition emit {S} (e : event) : M S unit := fun s o => Some (mkRes tt s o [e]).
Definition get {S} : M S S := fun s o => Some (mkRes s s o []).
Definition put {S} (s' : S) : M S unit := fun _ o => Some (mkRes tt s' o []).
Definition with_fuel {S A} (f : nat -> M S A) : M S A :=
  fun s o => f (Datatypes.S (answers_left o)) s o.

Declare Scope m_scope.
Delimit Scope m_scope with m.
Notation "x <- c ;; k" := (bind c (fun x => k))
  (at level 61, c at next level, right associativity) : m_scope.
Notation "c ;;; k" := (bind c (fun _ => k))
  (at level 61, right associativity) : m_scope.
Local Open Scope m_scope.

(** ** External calls *)

Definition gpio_get_level {S} (pin : Z) : M S Z := fun s o =>
  match gpio_in o with
  | [] => None
  | v :: tl => Some (mkRes v s (set_gpio_in o tl) [])
  end.

Definition esp_timer_get_time {S} : M S Z := fun s o =>
  match clock o with
  | [] => None
  | t :: tl => Some (mkRes (int64_t t) s (set_clock o tl) [])
  end.

Definition gpio_set_level {S} (pin level : Z) : M S unit := emit (EvGpioSet pin level).

(** Time passes through the [clock] queue only. *)
Definition vTaskDelay {S} (ms : Z) : M S unit := ret tt.

Definition ESP_LOGE {S} (msg : string) : M S unit := emit (EvLog LOG_E msg).
Definition ESP_LOGW {S} (msg : string) : M S unit := emit (EvLog LOG_W msg).
Definition ESP_LOGI {S} (msg : string) : M S unit := emit (EvLog LOG_I msg).

Definition socket {S} : M S Z := fun s o =>
  match sockets o with
  | [] => None
  | fd :: tl => Some (mkRes (int32_t fd) s (set_sockets o tl) [EvSocket (int32_t fd)])
  end.

Definition connect {S} (fd : Z) (ip : string) (port : Z) : M S Z := fun s o =>
  match connects o with
  | [] => None
  | rc :: tl => Some (mkRes rc s (set_connects o tl) [EvConnect fd ip port rc])
  end.

Definition close {S} (fd : Z) : M S unit := emit (EvClose fd).

Definition send {S} (fd : Z) (buf : list Z) : M S Z := fun s o =>
  match sends o with
  | [] => None
  | rc :: tl => Some (mkRes rc s (set_sends o tl) [EvSend fd buf rc])
  end.

Definition select {S} (fd : Z) : M S (Z * bool) := fun s o =>
  match selects o with
  | [] => None
  | (rc, isset) :: tl => Some (mkRes (rc, isset) s (set_selects o tl) [EvSelect fd rc])
  end.

Definition recv {S} (fd : Z) : M S (Z * Z) := fun s o =>
  match recvs o with
  | [] => None
  | (n, b) :: tl => Some (mkRes (n, b mod 256) s (set_recvs o tl) [EvRecv fd n])
  end.

(** [i2s_channel_read(rx_chan, dest, size, &bytes_read, portMAX_DELAY)]: the
    driver stores at most [size] bytes; the answer is the error code and the
    bytes stored ([bytes_read] is their number). *)
Definition i2s_channel_read {S} (size : Z) : M S (Z * list Z) := fun s o =>
  match i2s_in o with
  | [] => None
  | (err, data) :: tl =>
      if Z.of_nat (length data) <=? size
      then Some (mkRes (err, data) s (set_i2s_in o tl) [])
      else None
  end.

Definition mdns_init {S} : M S Z := fun s o =>
  match mdns_inits o with
  | [] => None
  | err :: tl => Some (mkRes err s (set_mdns_inits o tl) [])
  end.

Definition mdns_query_a {S} : M S (Z * Z) := fun s o =>
  match mdns_queries o with
  | [] => None
  | q :: tl => Some (mkRes q s (set_mdns_queries o tl) [])
  end.

(** ** RGB LED (identical in both revisions) *)

Definition led_off {S} : M S unit :=
  gpio_set_level PIN_LED_R 0 ;;; gpio_set_level PIN_LED_G 0 ;;; gpio_set_level PIN_LED_B 0.

Definition led_solid_blue {S} : M S unit :=
  gpio_set_level PIN_LED_R 0 ;;; gpio_set_level PIN_LED_G 0 ;;; gpio_set_level PIN_LED_B 1.

Definition led_solid_green {S} : M S unit :=
  gpio_set_level PIN_LED_R 0 ;;; gpio_set_level PIN_LED_G 1 ;;; gpio_set_level PIN_LED_B 0.

(** ** Sample buffers

    [i2s_raw] is [int32_t[256]], kept as its 1024 bytes (the target is little
    endian); [pcm_frame] is [int16_t[256]]. *)

Definition store_bytes (buf : list Z) (off : nat) (data : list Z) : list Z :=
  firstn off buf ++ data ++ skipn (off + length data) buf.

Definition load_i32 (buf : list Z) (i : nat) : Z :=
  int32_t (nth (4 * i) buf 0 mod 256
           + (nth (4 * i + 1) buf 0 mod 256) * 2 ^ 8
           + (nth (4 * i + 2) buf 0 mod 256) * 2 ^ 16
           + (nth (4 * i + 3) buf 0 mod 256) * 2 ^ 24).

(** [(int16_t)(x >> 16)] for an [int32_t x]. *)
Definition sample16 (x : Z) : Z := int16_t (Z.shiftr x 16).

(** [for (i = 0; i < PCM_FRAME_LEN; i++) pcm_frame[i] = (int16_t)(i2s_raw[i] >> 16);] *)
Definition convert_frame (i2s_raw : list Z) : list Z :=
  map (fun i => sample16 (load_i32 i2s_raw i)) (seq 0 (Z.to_nat PCM_FRAME_LEN)).

(** The bytes [send] transmits for [pcm_frame], [PCM_FRAME_LEN * sizeof(int16_t)]
    of them. *)
Definition frame_bytes (pcm_frame : list Z) : list Z :=
  flat_map (fun x => [x mod 256; (x / 256) mod 256]) pcm_frame.

Definition zeros (n : nat) : list Z := repeat 0 n.

(** * [src/firmware/main/main.c] *)
Module MainC.

(** The file's static variables. *)
Record globals := mkGlobals {
  i2s_raw : list Z;
  pcm_frame : list Z
}.

Definition globals0 : globals := mkGlobals (zeros 1024) (zeros 256).

Definition set_i2s_raw (g : globals) (x : list Z) : globals := mkGlobals x (pcm_frame g).
Definition set_pcm_frame (g : globals) (x : list Z) : globals := mkGlobals (i2s_raw g) x.

(** *** Button *)

Definition button_pressed : M globals bool :=
  lvl <- gpio_get_level PIN_BUTTON ;;
  ret (lvl =? 0).

(** *** Read one PCM frame *)

Fixpoint read_loop (fuel : nat) (samples_got : Z) : M globals unit :=
  match fuel with
  | O => fail
  | Datatypes.S n =>
      if samples_got <? PCM_FRAME_LEN then
        let need := int32_t (PCM_FRAME_LEN - samples_got) in
        r <- i2s_channel_read (need * 4) ;;
        g <- get ;;
        put (set_i2s_raw g (store_bytes (i2s_raw g) (Z.to_nat (4 * samples_got)) (snd r))) ;;;
        read_loop n (int32_t (samples_got + Z.of_nat (length (snd r)) / 4))
      else
        g <- get ;;
        put (set_pcm_frame g (convert_frame (i2s_raw g)))
  end.

Definition read_i2s_pcm : M globals unit :=
  with_fuel (fun n => read_loop n 0).

Record locals := mkLocals {
  state : state_t;
  sock : Z;
  wait_start : Z;
  led_on : bool;
  last_blink : Z
}.

Definition locals0 : locals := mkLocals STATE_IDLE (-1) 0 false 0.

Definition set_state (l : locals) (x : state_t) : locals :=
  mkLocals x (sock l) (wait_start l) (led_on l) (last_blink l).
Definition set_sock (l : locals) (x : Z) : locals :=
  mkLocals (state l) x (wait_start l) (led_on l) (last_blink l).
Definition set_blink (l : locals) (on : bool) (t : Z) : locals :=
  mkLocals (state l) (sock l) (wait_start l) on t.
Definition enter_wait (l : locals) (t : Z) : locals :=
  mkLocals STATE_WAIT (sock l) t true t.
(** [sock = -1; ... state = STATE_IDLE;] *)
Definition to_idle (l : locals) : locals := set_state (set_sock l (-1)) STATE_IDLE.

(** [while (button_pressed()) vTaskDelay(pdMS_TO_TICKS(50));] *)
Fixpoint wait_release (fuel : nat) : M globals unit :=
  match fuel with
  | O => fail
  | Datatypes.S n =>
      p <- button_pressed ;;
      if p then vTaskDelay 50 ;;; wait_release n else ret tt
  end.

(** [CONFIG_SERVER_IP] comes from the build configuration. *)
Section Config.

Variable SERVER_IP : string.

(** *** TCP *)

Definition tcp_connect : M globals Z :=
  sock <- socket ;;
  if sock <? 0 then
    ESP_LOGE "Socket creation failed" ;;; ret (-1)
  else
    rc <- connect sock SERVER_IP SERVER_PORT ;;
    if negb (rc =? 0) then
      ESP_LOGE "TCP connect to %s:%d failed" ;;; close sock ;;; ret (-1)
    else
      ESP_LOGI "Connected to server" ;;; ret sock.

(** *** Control loop: one iteration of [while (1) { switch (state) ... }]. *)
Definition tick (l : locals) : M globals locals :=
  match state l with
  | STATE_IDLE =>
      p <- button_pressed ;;
      if p then
        s <- tcp_connect ;;
        let l := set_sock l s in
        if s <? 0 then
          with_fuel wait_release ;;;
          ret l
        else
          led_solid_blue ;;;
          ESP_LOGI "Recording..." ;;;
          ret (set_state l STATE_RECORDING)
      else
        vTaskDelay 20 ;;; ret l
  | STATE_RECORDING =>
      read_i2s_pcm ;;;
      g <- get ;;
      rc <- send (sock l) (frame_bytes (pcm_frame g)) ;;
      if rc <? 0 then
        ESP_LOGE "send() failed, aborting" ;;;
        close (sock l) ;;;
        led_off ;;;
        ret (to_idle l)
      else
        p <- button_pressed ;;
        if negb p then
          t <- esp_timer_get_time ;;
          ESP_LOGI "Button released, waiting 3s..." ;;;
          ret (enter_wait l t)
        else ret l
  | STATE_WAIT =>
      now <- esp_timer_get_time ;;
      l <- (if sub64 now (last_blink l) >? 333 * 1000 then
              let on := negb (led_on l) in
              gpio_set_level PIN_LED_B (if on then 1 else 0) ;;;
              ret (set_blink l on now)
            else ret l) ;;
      p <- button_pressed ;;
      if p then
        led_solid_blue ;;;
        ESP_LOGI "Button pressed again, resuming recording..." ;;;
        ret (set_state l STATE_RECORDING)
      else if sub64 now (wait_start l) >? WAIT_TIMEOUT_US then
        ESP_LOGI "Grace period expired, processing..." ;;;
        send (sock l) END_MARKER ;;;
        led_solid_green ;;;
        ret (set_state l STATE_PROCESSING)
      else
        read_i2s_pcm ;;;
        g <- get ;;
        rc <- send (sock l) (frame_bytes (pcm_frame g)) ;;
        if rc <? 0 then
          ESP_LOGE "send() failed during wait" ;;;
          close (sock l) ;;;
          led_off ;;;
          ret (to_idle l)
        else ret l
  | STATE_PROCESSING =>
      r <- select (sock l) ;;
      if (fst r >? 0) && snd r then
        d <- recv (sock l) ;;
        (if (fst d =? 1) && (snd d =? 0x01)
         then ESP_LOGI "Server done, back to idle"
         else ESP_LOGW "Unexpected recv result (n=%d), returning to idle") ;;;
        close (sock l) ;;;
        led_off ;;;
        ret (to_idle l)
      else if fst r <? 0 then
        ESP_LOGE "select() error, returning to idle" ;;;
        close (sock l) ;;;
        led_off ;;;
        ret (to_idle l)
      else
        now <- esp_timer_get_time ;;
        if sub64 now (wait_start l) >? RECV_TIMEOUT_S * 1000 * 1000 then
          ESP_LOGW "Processing timeout (%ds), returning to idle" ;;;
          close (sock l) ;;;
          led_off ;;;
          ret (to_idle l)
        else ret l
  end.

(** [n] iterations of the loop. *)
Fixpoint run (n : nat) (l : locals) : M globals locals :=
  match n with
  | O => ret l
  | Datatypes.S n' => l' <- tick l ;; run n' l'
  end.

(** [for (int i = 0; i < 8; i++) read_i2s_pcm();] *)
Fixpoint discard_frames (k : nat) : M globals unit :=
  match k with
  | O => ret tt
  | Datatypes.S k' => read_i2s_pcm ;;; discard_frames k'
  end.

(** [app_main] up to the loop (peripheral and WiFi bring-up left out). *)
Definition startup : M globals locals :=
  led_off ;;;
  ESP_LOGI "Waiting for WiFi..." ;;;
  discard_frames 8 ;;;
  ESP_LOGI "Ready — press button to talk" ;;;
  ret locals0.

(** [app_main] cut after [n] iterations of its loop. *)
Definition app_main (n : nat) : M globals locals :=
  l <- startup ;; run n l.

End Config.

End MainC.

(** * [src/unnamed/part_001] *)
Module Part001.

Definition MDNS_RESOLVE_RETRIES : Z := 5.
Definition MDNS_RESOLVE_TIMEOUT_MS : Z := 3000.
Definition MDNS_RETRY_DELAY_MS : Z := 1000.
Definition DEBOUNCE_US : Z := 30 * 1000.
Definition ERROR_FLASH_US : Z := 500 * 1000.

(** The file's static variables. *)
Record globals := mkGlobals {
  i2s_raw : list Z;
  pcm_frame : list Z;
  resolved_ip : string;
  last_button_change : Z;
  debounced_state : bool
}.

Definition globals0 : globals :=
  mkGlobals (zeros 1024) (zeros 256) EmptyString 0 false.

Definition set_i2s_raw (g : globals) (x : list Z) : globals :=
  mkGlobals x (pcm_frame g) (resolved_ip g) (last_button_change g) (debounced_state g).
Definition set_pcm_frame (g : globals) (x : list Z) : globals :=
  mkGlobals (i2s_raw g) x (resolved_ip g) (last_button_change g) (debounced_state g).
Definition set_resolved_ip (g : globals) (x : string) : globals :=
  mkGlobals (i2s_raw g) (pcm_frame g) x (last_button_change g) (debounced_state g).
Definition set_button (g : globals) (change : Z) (stable : bool) : globals :=
  mkGlobals (i2s_raw g) (pcm_frame g) (resolved_ip g) change stable.

(** *** Button *)

(** The body of [button_pressed] once [raw] and [now] are read. *)
Definition debounce (raw : bool) (now : Z) (g : globals) : globals :=
  if negb (Bool.eqb raw (debounced_state g)) then
    if last_button_change g =? 0 then
      set_button g now (debounced_state g)
    else if sub64 now (last_button_change g) >? DEBOUNCE_US then
      set_button g 0 raw
    else g
  else set_button g 0 (debounced_state g).

Definition button_pressed : M globals bool :=
  lvl <- gpio_get_level PIN_BUTTON ;;
  now <- esp_timer_get_time ;;
  g <- get ;;
  put (debounce (lvl =? 0) now g) ;;;
  g' <- get ;;
  ret (debounced_state g').

(** *** RGB LED *)

Definition led_solid_red {S} : M S unit :=
  gpio_set_level PIN_LED_R 1 ;;; gpio_set_level PIN_LED_G 0 ;;; gpio_set_level PIN_LED_B 0.

(** [while (esp_timer_get_time() - start < ERROR_FLASH_US) vTaskDelay(...)] *)
Fixpoint flash_loop {S} (fuel : nat) (start : Z) : M S unit :=
  match fuel with
  | O => fail
  | Datatypes.S n =>
      t <- esp_timer_get_time ;;
      if sub64 t start <? ERROR_FLASH_US
      then vTaskDelay 50 ;;; flash_loop n start
      else ret tt
  end.

Definition led_flash_red {S} : M S unit :=
  led_solid_red ;;;
  start <- esp_timer_get_time ;;
  with_fuel (fun n => flash_loop n start) ;;;
  led_off.

(** *** Read one PCM frame *)

Fixpoint read_loop (fuel : nat) (samples_got : Z) : M globals bool :=
  match fuel with
  | O => fail
  | Datatypes.S n =>
      if samples_got <? PCM_FRAME_LEN then
        let need := int32_t (PCM_FRAME_LEN - samples_got) in
        r <- i2s_channel_read (need * 4) ;;
        g <- get ;;
        put (set_i2s_raw g (store_bytes (i2s_raw g) (Z.to_nat (4 * samples_got)) (snd r))) ;;;
        if negb (fst r =? ESP_OK) then
          ESP_LOGW "i2s_channel_read error: %s" ;;; ret false
        else
          read_loop n (int32_t (samples_got + Z.of_nat (length (snd r)) / 4))
      else
        g <- get ;;
        put (set_pcm_frame g (convert_frame (i2s_raw g))) ;;;
        ret true
  end.

Definition read_i2s_pcm : M globals bool :=
  with_fuel (fun n => read_loop n 0).

(** *** TCP *)

Definition tcp_connect : M globals Z :=
  g <- get ;;
  sock <- socket ;;
  if sock <? 0 then
    ESP_LOGE "Socket creation failed" ;;; ret (-1)
  else
    rc <- connect sock (resolved_ip g) SERVER_PORT ;;
    if negb (rc =? 0) then
      ESP_LOGE "TCP connect to %s:%d failed" ;;; close sock ;;; ret (-1)
    else
      ESP_LOGI "Connected to server" ;;; ret sock.

(** *** Control loop *)

Record locals := mkLocals {
  state : state_t;
  sock : Z;
  wait_start : Z;
  process_start : Z;
  led_on : bool;
  last_blink : Z
}.

Definition locals0 : locals := mkLocals STATE_IDLE (-1) 0 0 false 0.

Definition set_state (l : locals) (x : state_t) : locals :=
  mkLocals x (sock l) (wait_start l) (process_start l) (led_on l) (last_blink l).
Definition set_sock (l : locals) (x : Z) : locals :=
  mkLocals (state l) x (wait_start l) (process_start l) (led_on l) (last_blink l).
Definition set_process_start (l : locals) (x : Z) : locals :=
  mkLocals (state l) (sock l) (wait_start l) x (led_on l) (last_blink l).
Definition set_blink (l : locals) (on : bool) (t : Z) : locals :=
  mkLocals (state l) (sock l) (wait_start l) (process_start l) on t.
Definition enter_wait (l : locals) (t : Z) : locals :=
  mkLocals STATE_WAIT (sock l) t (process_start l) true t.
(** [sock = -1; ... state = STATE_IDLE;] *)
Definition to_idle (l : locals) : locals := set_state (set_sock l (-1)) STATE_IDLE.

(** [while (button_pressed()) vTaskDelay(pdMS_TO_TICKS(50));] *)
Fixpoint wait_release (fuel : nat) : M globals unit :=
  match fuel with
  | O => fail
  | Datatypes.S n =>
      p <- button_pressed ;;
      if p then vTaskDelay 50 ;;; wait_release n else ret tt
  end.

(** One iteration of [while (1) { switch (state) ... }]. *)
Definition tick (l : locals) : M globals locals :=
  match state l with
  | STATE_IDLE =>
      p <- button_pressed ;;
      if p then
        s <- tcp_connect ;;
        let l := set_sock l s in
        if s <? 0 then
          led_flash_red ;;;
          with_fuel wait_release ;;;
          ret l
        else
          led_solid_blue ;;;
          ESP_LOGI "Recording..." ;;;
          ret (set_state l STATE_RECORDING)
      else
        vTaskDelay 20 ;;; ret l
  | STATE_RECORDING =>
      ok <- read_i2s_pcm ;;
      if negb ok then
        ESP_LOGW "I2S read error, retrying..." ;;; ret l
      else
        g <- get ;;
        rc <- send (sock l) (frame_bytes (pcm_frame g)) ;;
        if rc <? 0 then
          ESP_LOGE "send() failed, aborting" ;;;
          close (sock l) ;;;
          led_flash_red ;;;
          ret (to_idle l)
        else
          p <- button_pressed ;;
          if negb p then
            t <- esp_timer_get_time ;;
            ESP_LOGI "Button released, waiting 3s..." ;;;
            ret (enter_wait l t)
          else ret l
  | STATE_WAIT =>
      now <- esp_timer_get_time ;;
      l <- (if sub64 now (last_blink l) >? 333 * 1000 then
              let on := negb (led_on l) in
              gpio_set_level PIN_LED_B (if on then 1 else 0) ;;;
              ret (set_blink l on now)
            else ret l) ;;
      p <- button_pressed ;;
      if p then
        led_solid_blue ;;;
        ESP_LOGI "Button pressed again, resuming recording..." ;;;
        ret (set_state l STATE_RECORDING)
      else if sub64 now (wait_start l) >? WAIT_TIMEOUT_US then
        ESP_LOGI "Grace period expired, processing..." ;;;
        rc <- send (sock l) END_MARKER ;;
        if rc <? 0 then
          ESP_LOGE "send() end marker failed" ;;;
          close (sock l) ;;;
          led_flash_red ;;;
          ret (to_idle l)
        else
          led_solid_green ;;;
          t <- esp_timer_get_time ;;
          ret (set_state (set_process_start l t) STATE_PROCESSING)
      else
        ok <- read_i2s_pcm ;;
        if negb ok then
          ESP_LOGW "I2S read error during wait, retrying..." ;;; ret l
        else
          g <- get ;;
          rc <- send (sock l) (frame_bytes (pcm_frame g)) ;;
          if rc <? 0 then
            ESP_LOGE "send() failed during wait" ;;;
            close (sock l) ;;;
            led_flash_red ;;;
            ret (to_idle l)
          else ret l
  | STATE_PROCESSING =>
      r <- select (sock l) ;;
      if (fst r >? 0) && snd r then
        d <- recv (sock l) ;;
        (if (fst d =? 1) && (snd d =? 0x01)
         then ESP_LOGI "Server done, back to idle"
         else ESP_LOGW "Unexpected recv result (n=%d), returning to idle") ;;;
        close (sock l) ;;;
        led_off ;;;
        ret (to_idle l)
      else if fst r <? 0 then
        ESP_LOGE "select() error, returning to idle" ;;;
        close (sock l) ;;;
        led_flash_red ;;;
        ret (to_idle l)
      else
        now <- esp_timer_get_time ;;
        if sub64 now (process_start l) >? RECV_TIMEOUT_S * 1000 * 1000 then
          ESP_LOGW "Processing timeout (%ds), returning to idle" ;;;
          close (sock l) ;;;
          led_flash_red ;;;
          ret (to_idle l)
        else ret l
  end.

(** [n] iterations of the loop. *)
Fixpoint run (n : nat) (l : locals) : M globals locals :=
  match n with
  | O => ret l
  | Datatypes.S n' => l' <- tick l ;; run n' l'
  end.

(** *** Address resolution and start-up

    [CONFIG_SERVER_IP] comes from the build configuration and [IPSTR] /
    [IP2STR] from the network headers; both are taken as given. *)
Section Config.

Variable SERVER_IP : string.
Variable ipstr : Z -> string.

(** What a 64-byte buffer holds after [snprintf] or [strncpy] with room for
    63 characters. *)
Definition fit64 (s : string) : string := substring 0 63 s.

(** [for (attempt = 0; attempt < MDNS_RESOLVE_RETRIES; attempt++)]; the fuel
    is only the structural argument. *)
Fixpoint resolve_loop (fuel : nat) (attempt : Z) : M globals bool :=
  match fuel with
  | O => fail
  | Datatypes.S n =>
      if attempt <? MDNS_RESOLVE_RETRIES then
        ESP_LOGI "Resolving %s.local (attempt %d/%d)..." ;;;
        q <- mdns_query_a ;;
        if fst q =? ESP_OK then
          g <- get ;;
          put (set_resolved_ip g (fit64 (ipstr (snd q)))) ;;;
          ESP_LOGI "Resolved %s.local -> %s" ;;;
          ret true
        else
          ESP_LOGW "mDNS query failed: %s, retrying..." ;;;
          vTaskDelay MDNS_RETRY_DELAY_MS ;;;
          resolve_loop n (int32_t (attempt + 1))
      else ret false
  end.

Definition resolve_mdns_hostname : M globals bool :=
  err <- mdns_init ;;
  if negb (err =? ESP_OK) then
    ESP_LOGE "mdns_init failed: %s" ;;; ret false
  else
    resolve_loop (Datatypes.S (Z.to_nat MDNS_RESOLVE_RETRIES)) 0.

(** [for (int i = 0; i < 8; i++) read_i2s_pcm();] *)
Fixpoint discard_frames (k : nat) : M globals unit :=
  match k with
  | O => ret tt
  | Datatypes.S k' => read_i2s_pcm ;;; discard_frames k'
  end.

(** The block of [app_main] that resolves the server: mDNS first, the
    configured address if that fails. *)
Definition resolve_server : M globals unit :=
  ok <- resolve_mdns_hostname ;;
  if negb ok then
    ESP_LOGW "mDNS resolution failed, falling back to %s" ;;;
    g <- get ;;
    put (set_resolved_ip g (fit64 SERVER_IP))
  else ret tt.

(** [app_main] up to the loop (peripheral and WiFi bring-up left out). *)
Definition startup : M globals locals :=
  led_off ;;;
  ESP_LOGI "Waiting for WiFi..." ;;;
  resolve_server ;;;
  discard_frames 8 ;;;
  ESP_LOGI "Ready — press button to talk" ;;;
  ret locals0.

(** [app_main] cut after [n] iterations of its loop. *)
Definition app_main (n : nat) : M globals locals :=
  l <- startup ;; run n l.

End Config.

End Part001.

(** * Derived definitions used to state the properties *)

(** Calling [button_pressed] [k] times in a row, results in call order. *)
Fixpoint poll_buttons (k : nat) : M Part001.globals (list bool) :=
  match k with
  | O => ret []
  | Datatypes.S k' =>
      p <- Part001.button_pressed ;;
      ps <- poll_buttons k' ;;
      ret (p :: ps)
  end.

(** The same for the undebounced [button_pressed] of [main.c]. *)
Fixpoint poll_buttons_raw (k : nat) : M MainC.globals (list bool) :=
  match k with
  | O => ret []
  | Datatypes.S k' =>
      p <- MainC.button_pressed ;;
      ps <- poll_buttons_raw k' ;;
      ret (p :: ps)
  end.

(** The debounce variables after successive calls of [button_pressed] that
    read the raw levels and the times of [polls], and the levels the calls
    return. *)
Fixpoint debounce_all (g : Part001.globals) (polls : list (bool * Z)) : Part001.globals :=
  match polls with
  | [] => g
  | (raw, t) :: tl => debounce_all (Part001.debounce raw (int64_t t) g) tl
  end.

Fixpoint stable_levels (g : Part001.globals) (polls : list (bool * Z)) : list bool :=
  match polls with
  | [] => []
  | (raw, t) :: tl =>
      let g' := Part001.debounce raw (int64_t t) g in
      Part001.debounced_state g' :: stable_levels g' tl
  end.

(** The GPIO level that reads as [raw] (the button is active low). *)
Definition level_of (raw : bool) : Z := if raw then 0 else 1.

(** An environment that answers exactly the given polls. *)
Definition button_oracle (polls : list (bool * Z)) : oracle :=
  set_clock (set_gpio_in no_input (map (fun p => level_of (fst p)) polls))
            (map snd polls).

(** All times lie in the window of one debounce interval that starts at [t0]. *)
Definition within_debounce (t0 : Z) (ts : list Z) : Prop :=
  Forall (fun t => t0 <= t <= t0 + Part001.DEBOUNCE_US) ts.

(** Whole samples a read contributes: [bytes_read / sizeof(int32_t)]. *)
Definition samples_in (rd : Z * list Z) : Z := Z.of_nat (length (snd rd)) / 4.

Fixpoint samples_of (reads : list (Z * list Z)) : Z :=
  match reads with
  | [] => 0
  | rd :: tl => samples_in rd + samples_of tl
  end.

(** [i2s_raw] after the reads, each stored at [i2s_raw + samples_got]. *)
Fixpoint gather (buf : list Z) (samples_got : Z) (reads : list (Z * list Z)) : list Z :=
  match reads with
  | [] => buf
  | rd :: tl =>
      gather (store_bytes buf (Z.to_nat (4 * samples_got)) (snd rd))
             (samples_got + samples_in rd) tl
  end.

(** Every read before the last leaves the frame short of [PCM_FRAME_LEN]
    samples: the loop asked again only because it had to. *)
Definition short_before_last (samples_got : Z) (reads : list (Z * list Z)) : Prop :=
  forall p q, reads = p ++ q -> q <> [] -> samples_got + samples_of p < PCM_FRAME_LEN.

(** What a call of [read_i2s_pcm] of [part_001] that consumed [reads] and
    returned [r] has done, starting with [samples_got] samples in hand. *)
Definition frame_read (samples_got : Z) (g : Part001.globals) (o : oracle)
           (r : res Part001.globals bool) (reads : list (Z * list Z)) : Prop :=
  i2s_in o = reads ++ i2s_in (rest r)
  /\ rest r = set_i2s_in o (i2s_in (rest r))
  /\ mem r = Part001.set_pcm_frame
              (Part001.set_i2s_raw g (gather (Part001.i2s_raw g) samples_got reads))
              (Part001.pcm_frame (mem r))
  /\ short_before_last samples_got reads
  /\ if val r then
       Forall (fun rd => fst rd = ESP_OK) reads
       /\ samples_got + samples_of reads = PCM_FRAME_LEN
       /\ Part001.pcm_frame (mem r) = convert_frame (Part001.i2s_raw (mem r))
       /\ length (Part001.pcm_frame (mem r)) = 256%nat
       /\ out r = []
     else
       Part001.pcm_frame (mem r) = Part001.pcm_frame g
       /\ (exists p last, reads = p ++ [last] /\ fst last <> ESP_OK
                          /\ Forall (fun rd => fst rd = ESP_OK) p)
       /\ out r = [EvLog LOG_W "i2s_channel_read error: %s"].

(** The same for [read_i2s_pcm] of [main.c], which returns nothing and does
    not look at the error code. *)
Definition frame_read_unchecked (samples_got : Z) (g : MainC.globals) (o : oracle)
           (r : res MainC.globals unit) (reads : list (Z * list Z)) : Prop :=
  i2s_in o = reads ++ i2s_in (rest r)
  /\ rest r = set_i2s_in o (i2s_in (rest r))
  /\ MainC.i2s_raw (mem r) = gather (MainC.i2s_raw g) samples_got reads
  /\ short_before_last samples_got reads
  /\ samples_got + samples_of reads = PCM_FRAME_LEN
  /\ MainC.pcm_frame (mem r) = convert_frame (MainC.i2s_raw (mem r))
  /\ length (MainC.pcm_frame (mem r)) = 256%nat
  /\ out r = [].

(** Each read stores no more than was asked for: [need * sizeof(int32_t)]
    bytes with [need = PCM_FRAME_LEN - samples_got]. *)
Fixpoint in_contract (samples_got : Z) (reads : list (Z * list Z)) : Prop :=
  match reads with
  | [] => True
  | rd :: tl =>
      Z.of_nat (length (snd rd)) <= (PCM_FRAME_LEN - samples_got) * 4
      /\ in_contract (samples_got + samples_in rd) tl
  end.

(** An environment whose only answers are the given I2S reads. *)
Definition i2s_oracle (reads : list (Z * list Z)) : oracle := set_i2s_in no_input reads.

(** ** A monitor for the wire protocol

    What the outside sees of the socket: no socket, a socket not yet
    connected, a connected socket on which only frames went out so far (the
    Session is open), a connected socket on which the end marker went out. *)
Inductive link := Closed | Created (fd : Z) | Open (fd : Z) | Marked (fd : Z).

Definition is_marker (buf : list Z) : bool :=
  if list_eq_dec Z.eq_dec buf END_MARKER then true else false.

Record monitor := mkMonitor {
  link_of : link;
  sockets_made : nat;   (* socket() calls that returned a descriptor *)
  opened : nat;         (* connections established *)
  closed : nat          (* close() calls *)
}.

Definition monitor0 : monitor := mkMonitor Closed 0 0 0.

Definition set_link (m : monitor) (k : link) : monitor :=
  mkMonitor k (sockets_made m) (opened m) (closed m).

(** [close] was called: no socket any more, one more close counted. *)
Definition close_link (m : monitor) : monitor :=
  mkMonitor Closed (sockets_made m) (opened m) (S (closed m)).

(** The monitor accepts an event only where the protocol allows it. *)
Definition observe (m : monitor) (e : event) : option monitor :=
  match e with
  | EvLog _ _ => Some m
  | EvGpioSet _ _ => Some m
  | EvSocket fd =>
      match link_of m with
      | Closed =>
          Some (if fd <? 0 then m
                else mkMonitor (Created fd) (S (sockets_made m)) (opened m) (closed m))
      | _ => None
      end
  | EvConnect fd _ _ rc =>
      match link_of m with
      | Created fd' =>
          if fd =? fd' then
            Some (if rc =? 0
                  then mkMonitor (Open fd) (sockets_made m) (S (opened m)) (closed m)
                  else m)
          else None
      | _ => None
      end
  | EvSend fd buf _ =>
      match link_of m with
      | Open fd' =>
          if fd =? fd' then Some (if is_marker buf then set_link m (Marked fd) else m)
          else None
      | _ => None
      end
  | EvSelect fd _ =>
      match link_of m with
      | Marked fd' => if fd =? fd' then Some m else None
      | _ => None
      end
  | EvRecv fd _ =>
      match link_of m with
      | Marked fd' => if fd =? fd' then Some m else None
      | _ => None
      end
  | EvClose fd =>
      match link_of m with
      | Closed => None
      | Created fd' => if fd =? fd' then Some (close_link m) else None
      | Open fd' => if fd =? fd' then Some (close_link m) else None
      | Marked fd' => if fd =? fd' then Some (close_link m) else None
      end
  end.

Fixpoint observe_all (m : monitor) (tr : list event) : option monitor :=
  match tr with
  | [] => Some m
  | e :: tl =>
      match observe m e with
      | Some m' => observe_all m' tl
      | None => None
      end
  end.

(** The loop variables [state] and [sock] against the monitor. *)
Definition agrees (st : state_t) (sock : Z) (k : link) : Prop :=
  match st with
  | STATE_IDLE => k = Closed /\ sock = -1
  | STATE_RECORDING => k = Open sock /\ 0 <= sock
  | STATE_WAIT => k = Open sock /\ 0 <= sock
  | STATE_PROCESSING => k = Marked sock /\ 0 <= sock
  end.

(** The arrows of the state machine. *)
Definition may_follow (a b : state_t) : Prop :=
  match a, b with
  | STATE_IDLE, (STATE_IDLE | STATE_RECORDING) => True
  | STATE_RECORDING, (STATE_RECORDING | STATE_WAIT | STATE_IDLE) => True
  | STATE_WAIT, _ => True
  | STATE_PROCESSING, (STATE_PROCESSING | STATE_IDLE) => True
  | _, _ => False
  end.

(** What one iteration of the loop may do to the connection: [st], [sk] and
    [m] before, [st'], [sk'] and [m'] after. *)
Definition step_ok (st : state_t) (sk : Z) (m : monitor)
           (st' : state_t) (sk' : Z) (m' : monitor) : Prop :=
  agrees st' sk' (link_of m')
  /\ may_follow st st'
  /\ opened m' = (if state_eqb st STATE_IDLE && state_eqb st' STATE_RECORDING
                  then S (opened m) else opened m)
  /\ (st <> STATE_IDLE -> sockets_made m' = sockets_made m)
  /\ (closed m' = closed m \/ (closed m' = S (closed m) /\ st' = STATE_IDLE))
  /\ (st <> STATE_IDLE ->
        closed m' = (if state_eqb st' STATE_IDLE then S (closed m) else closed m))
  /\ (st <> STATE_IDLE -> st' <> STATE_IDLE -> sk' = sk).

(** Events that are sends of an audio frame. *)
Definition is_frame_send (e : event) : bool :=
  match e with
  | EvSend _ buf _ => negb (is_marker buf)
  | _ => false
  end.

Definition is_marker_send (e : event) : bool :=
  match e with
  | EvSend _ buf _ => is_marker buf
  | _ => false
  end.

Definition is_close (e : event) : bool :=
  match e with EvClose _ => true | _ => false end.

(** [socket()] returned a descriptor. *)
Definition is_socket (e : event) : bool :=
  match e with EvSocket fd => negb (fd <? 0) | _ => false end.

(** [connect()] succeeded: a connection was opened. *)
Definition is_open (e : event) : bool :=
  match e with EvConnect _ _ _ rc => rc =? 0 | _ => false end.

(** A call of [socket()] or [connect()], whatever it returned. *)
Definition is_connect_call (e : event) : bool :=
  match e with
  | EvSocket _ => true
  | EvConnect _ _ _ _ => true
  | _ => false
  end.

(** The address and port a [connect] went to. *)
Definition uses_ip (ip : string) (e : event) : Prop :=
  match e with
  | EvConnect _ ip' port _ => ip' = ip /\ port = SERVER_PORT
  | _ => True
  end.

Definition count (f : event -> bool) (tr : list event) : nat := length (filter f tr).

(** What the loop relies on in the static variables of [part_001]: the
    frame buffer keeps its 256 slots and the resolved address stays [ip]. *)
Definition ginv (ip : string) (g : Part001.globals) : Prop :=
  length (Part001.pcm_frame g) = 256%nat /\ Part001.resolved_ip g = ip.

(** The same for [main.c]. *)
Definition ginv_c (g : MainC.globals) : Prop :=
  length (MainC.pcm_frame g) = 256%nat.

(** The LED writes of [led_flash_red]: red on, then off. *)
Definition red_flash : list event :=
  [EvGpioSet PIN_LED_R 1; EvGpioSet PIN_LED_G 0; EvGpioSet PIN_LED_B 0;
   EvGpioSet PIN_LED_R 0; EvGpioSet PIN_LED_G 0; EvGpioSet PIN_LED_B 0].

Definition leds_off : list event :=
  [EvGpioSet PIN_LED_R 0; EvGpioSet PIN_LED_G 0; EvGpioSet PIN_LED_B 0].

(** What [tcp_connect] returning [s] with events [evs] means to a monitor
    that saw no socket before. *)
Definition connect_outcome (ip : string) (s : Z) (evs : list event) : Prop :=
  Forall (uses_ip ip) evs
  /\ ((s = -1 /\ forall m, link_of m = Closed -> observe_all m evs = Some m)
      \/ (s = -1 /\ forall m, link_of m = Closed ->
                              observe_all m evs =
                              Some (mkMonitor Closed (S (sockets_made m)) (opened m)
                                              (S (closed m))))
      \/ (0 <= s /\ forall m, link_of m = Closed ->
                              observe_all m evs =
                              Some (mkMonitor (Open s) (S (sockets_made m))
                                              (S (opened m)) (closed m)))).

(** What one iteration of the loop of [part_001] guarantees. *)
Definition tick_post (ip : string) (l : Part001.locals) (m : monitor)
           (r : res Part001.globals Part001.locals) : Prop :=
  ginv ip (mem r)
  /\ Forall (uses_ip ip) (out r)
  /\ exists m', observe_all m (out r) = Some m'
               /\ step_ok (Part001.state l) (Part001.sock l) m
                          (Part001.state (val r)) (Part001.sock (val r)) m'.

(** What one iteration of the loop of [main.c] guarantees. *)
Definition tick_post_c (ip : string) (l : MainC.locals) (m : monitor)
           (r : res MainC.globals MainC.locals) : Prop :=
  ginv_c (mem r)
  /\ Forall (uses_ip ip) (out r)
  /\ exists m', observe_all m (out r) = Some m'
               /\ step_ok (MainC.state l) (MainC.sock l) m
                          (MainC.state (val r)) (MainC.sock (val r)) m'.

(** [n] iterations of the loop of [part_001], keeping [state] and [sock] as
    they are after each iteration. *)
Fixpoint visited (n : nat) (l : Part001.locals) : M Part001.globals (list (state_t * Z)) :=
  match n with
  | O => ret []
  | Datatypes.S n' =>
      l' <- Part001.tick l ;;
      vs <- visited n' l' ;;
      ret ((Part001.state l', Part001.sock l') :: vs)
  end.

(** The same for [main.c]. *)
Fixpoint visited_c (ip : string) (n : nat) (l : MainC.locals)
  : M MainC.globals (list (state_t * Z)) :=
  match n with
  | O => ret []
  | Datatypes.S n' =>
      l' <- MainC.tick ip l ;;
      vs <- visited_c ip n' l' ;;
      ret ((MainC.state l', MainC.sock l') :: vs)
  end.

(** Number of steps from IDLE to RECORDING along [prev :: sts]. *)
Fixpoint connections (prev : state_t) (sts : list state_t) : nat :=
  match sts with
  | [] => O
  | s :: tl =>
      ((if state_eqb prev STATE_IDLE && state_eqb s STATE_RECORDING then 1 else 0)
       + connections s tl)%nat
  end.

(** Successive [(state, sock)] pairs follow the arrows of the machine, keep
    the socket while the machine stays out of IDLE, and have a valid
    descriptor whenever out of IDLE. *)
Fixpoint walk (prev : state_t * Z) (vs : list (state_t * Z)) : Prop :=
  match vs with
  | [] => True
  | v :: tl =>
      may_follow (fst prev) (fst v)
      /\ (fst prev <> STATE_IDLE -> fst v <> STATE_IDLE -> snd v = snd prev)
      /\ (fst v <> STATE_IDLE -> 0 <= snd v)
      /\ (fst v = STATE_IDLE -> snd v = -1)
      /\ walk v tl
  end.

(** Events the protocol monitor ignores. *)
Definition is_quiet (e : event) : Prop :=
  match e with
  | EvLog _ _ => True
  | EvGpioSet _ _ => True
  | _ => False
  end.

(** What [n] iterations of the loop of [part_001] guarantee. *)
Definition run_post (ip : string) (m : monitor)
           (r : res Part001.globals Part001.locals) : Prop :=
  ginv ip (mem r)
  /\ Forall (uses_ip ip) (out r)
  /\ exists m', observe_all m (out r) = Some m'
               /\ agrees (Part001.state (val r)) (Part001.sock (val r)) (link_of m').

Definition run_post_c (ip : string) (m : monitor)
           (r : res MainC.globals MainC.locals) : Prop :=
  ginv_c (mem r)
  /\ Forall (uses_ip ip) (out r)
  /\ exists m', observe_all m (out r) = Some m'
               /\ agrees (MainC.state (val r)) (MainC.sock (val r)) (link_of m').

(** What a run that records the visited states guarantees. *)
Definition visited_post (st : state_t) (sk : Z) (m : monitor) {S}
           (r : res S (list (state_t * Z))) : Prop :=
  walk (st, sk) (val r)
  /\ exists m', observe_all m (out r) = Some m'
               /\ opened m' = (opened m + connections st (map fst (val r)))%nat.

(** One full frame from the driver in a single read, all samples zero. *)
Definition silent_read : Z * list Z := (ESP_OK, zeros 1024).

(** Press (two polls, debounced), connect, two frames while the release is
    debounced, WAIT with one frame, press again (debounced), RECORDING. *)
Definition resume_scenario : oracle :=
  mkOracle [0; 0; 1; 1; 0; 0]
           [1000; 40000; 60000; 100000; 100001; 120000; 120001; 160000; 160001]
           [3] [0]
           [silent_read; silent_read; silent_read]
           [512; 512; 512] [] [] [] [].

(** The events since the last successful [connect] on [fd]: no [close]
    among them and [markers] end markers. *)
Definition in_session (tr : list event) (fd : Z) (markers : nat) : Prop :=
  exists p1 ip port p2,
    tr = p1 ++ EvConnect fd ip port 0 :: p2
    /\ count is_close p2 = O
    /\ count is_marker_send p2 = markers.

(** ** Concrete environments used as examples *)

Definition demo_server_ip : string := "192.168.1.50".

Definition demo_ipstr (addr : Z) : string :=
  if addr =? 0x0700000A then "10.0.0.7" else "0.0.0.0".

(** Start-up answers: [mdns_init] succeeds, the first query resolves, and the
    driver delivers the eight frames that are thrown away. *)
Definition with_startup (o : oracle) : oracle :=
  set_mdns_queries
    (set_mdns_inits
       (set_i2s_in o (repeat silent_read 8 ++ i2s_in o))
       (ESP_OK :: mdns_inits o))
    ((ESP_OK, 0x0700000A) :: mdns_queries o).

(** The button is pressed (two polls, debounced), the connection is made,
    and the first frame cannot be sent; the red flash takes two clock
    readings after its start. *)
Definition aborted_session : oracle :=
  mkOracle [0; 0]
           [1000; 40000; 50000; 300000; 600000]
           [3] [0]
           [silent_read]
           [-1] [] [] [] [].

(** The red flash lasts from the clock reading [start] over the readings
    [mids], all short of [ERROR_FLASH_US], to the reading [fend]. *)
Definition flash_clock (start : Z) (mids : list Z) (fend : Z) : Prop :=
  Forall (fun t => sub64 (int64_t t) (int64_t start) < Part001.ERROR_FLASH_US) mids
  /\ Part001.ERROR_FLASH_US <= sub64 (int64_t fend) (int64_t start).

(** The log line of the PROCESSING state after [recv] returned [n] and, if
    it stored one, the byte [b]. *)
Definition ack_log (n b : Z) : event :=
  if (n =? 1) && (b mod 256 =? 0x01)
  then EvLog LOG_I "Server done, back to idle"
  else EvLog LOG_W "Unexpected recv result (n=%d), returning to idle".

(** Everything the PROCESSING state does once [select] reports the socket
    readable. *)
Definition ack_events (sock rc n b : Z) : list event :=
  [EvSelect sock rc; EvRecv sock n; ack_log n b; EvClose sock] ++ leds_off.

(** The blink of the WAIT state at the clock reading [now]: the LED write,
    if any, and the loop variables afterwards. *)
Definition blink_events (led_on : bool) (last_blink now : Z) : list event :=
  if sub64 now last_blink >? 333 * 1000
  then [EvGpioSet PIN_LED_B (if negb led_on then 1 else 0)]
  else [].

Definition blinked (l : Part001.locals) (now : Z) : Part001.locals :=
  if sub64 now (Part001.last_blink l) >? 333 * 1000
  then Part001.set_blink l (negb (Part001.led_on l)) now
  else l.

Definition blinked_c (l : MainC.locals) (now : Z) : MainC.locals :=
  if sub64 now (MainC.last_blink l) >? 333 * 1000
  then MainC.set_blink l (negb (MainC.led_on l)) now
  else l.

Definition leds_green : list event :=
  [EvGpioSet PIN_LED_R 0; EvGpioSet PIN_LED_G 1; EvGpioSet PIN_LED_B 0].

(** The overall deadline of PROCESSING in microseconds,
    [(int64_t)RECV_TIMEOUT_S * 1000 * 1000]. *)
Definition RECV_DEADLINE_US : Z := RECV_TIMEOUT_S * 1000 * 1000.

(** [k] clock readings 100 ms apart after [start], the pace of the PROCESSING
    state, whose [select] waits 100 ms. *)
Definition every_100ms (start : Z) (k : nat) : list Z :=
  map (fun i => start + 100000 * Z.of_nat i) (seq 1 k).

(** [main.c]: press, connect, one frame, release read at 1.000000 s, grace
    period seen over at 4.000001 s, end marker sent (its [send] returning
    [marker_rc]); then [select] times out every 100 ms, 1170 times, up to
    the clock reading 121.000001 s. *)
Definition release_then_silence (marker_rc : Z) : oracle :=
  mkOracle [0; 1; 1]
           ([1000000; 4000001] ++ every_100ms 4000001 1170)
           [3] [0]
           [silent_read]
           [512; marker_rc] (repeat (0, false) 1170) [] [] [].

(** [part_001] on the same timeline: the polls of the debouncer and the
    reading of [process_start] (4.000003 s) take clock readings of their
    own; [select] times out every 100 ms, 1201 times, up to the clock
    reading 124.100003 s, and the red flash polls the clock every 50 ms
    from 124.100004 s to 124.600004 s. *)
Definition release_then_silence_debounced : oracle :=
  mkOracle [0; 0; 1; 1; 1]
           ([500000; 600000; 900000; 999000; 1000000; 4000001; 4000002; 4000003]
            ++ every_100ms 4000003 1201
            ++ map (fun i => 124100004 + 50000 * Z.of_nat i) (seq 0 11))
           [3] [0]
           [silent_read; silent_read]
           [512; 512; 4] (repeat (0, false) 1201) [] [] [].

(** [part_001]: the same up to the end marker, whose [send] fails; the red
    flash runs from 4.000003 s to 4.600000 s. *)
Definition marker_fails_debounced : oracle :=
  mkOracle [0; 0; 1; 1; 1]
           [500000; 600000; 900000; 999000; 1000000;
            4000001; 4000002; 4000003; 4600000]
           [3] [0]
           [silent_read; silent_read]
           [512; 512; -1] [] [] [] [].

(** The log lines of [k] failed discovery attempts. *)
Fixpoint failed_attempts (k : nat) : list event :=
  match k with
  | O => []
  | Datatypes.S k' =>
      EvLog LOG_I "Resolving %s.local (attempt %d/%d)..."
      :: EvLog LOG_W "mDNS query failed: %s, retrying..."
      :: failed_attempts k'
  end.

Definition successful_attempt : list event :=
  [EvLog LOG_I "Resolving %s.local (attempt %d/%d)...";
   EvLog LOG_I "Resolved %s.local -> %s"].

Definition falling_back : list event :=
  [EvLog LOG_W "mDNS resolution failed, falling back to %s"].

(** A discovery answer that is an error. *)
Definition query_failed (q : Z * Z) : Prop := fst q <> ESP_OK.

(** Discovery fails four times and succeeds the fifth time; then the button
    is pressed (two polls, debounced) and the connection is made. *)
Definition fifth_attempt_resolves : oracle :=
  mkOracle [0; 0] [1000; 40000] [3] [0]
           (repeat silent_read 8) [] [] []
           [ESP_OK]
           [(-1, 0); (-1, 0); (-1, 0); (-1, 0); (ESP_OK, 0x0700000A)].

(** [mdns_init] fails although a query would have been answered. *)
Definition mdns_unavailable : oracle :=
  set_mdns_queries (set_mdns_inits no_input [-1]) [(ESP_OK, 0x0700000A)].

(** The result of a run that is known to return. *)
Definition the {A} (d : A) (x : option A) : A :=
  match x with Some a => a | None => d end.

(** Partial-correctness predicate transformer: if the computation returns,
    its result satisfies [Q]. *)
Definition wp {S A} (c : M S A) (Q : res S A -> Prop) (s : S) (o : oracle) : Prop :=
  match c s o with
  | Some r => Q r
  | None => True
  end.

(** Total-correctness predicate transformer: the computation returns and
    its result satisfies [Q]. *)
Definition wpt {S A} (c : M S A) (Q : res S A -> Prop) (s : S) (o : oracle) : Prop :=
  match c s o with
  | Some r => Q r
  | None => False
  end.

(** The result of [c] followed by a computation that returned [r2]. *)
Definition after {S A B} (r1 : res S A) (r2 : res S B) : res S B :=
  mkRes (val r2) (mem r2) (rest r2) (out r1 ++ out r2).

(** Number of changes of level in [prev :: levels]. *)
Fixpoint transitions (prev : bool) (levels : list bool) : nat :=
  match levels with
  | [] => O
  | x :: tl => ((if Bool.eqb prev x then 0 else 1) + transitions x tl)%nat
  end.

(** ** Sessions that are aborted

    A frame [send] that returned an error leaves a [close] pending on its
    descriptor: until that [close] the firmware may only log and write the
    LED pins. *)
Inductive pending := Clear | Failed (fd : Z).

(** A [send] of an audio frame that returned an error. *)
Definition is_failed_frame_send (e : event) : bool :=
  match e with
  | EvSend _ buf rc => negb (is_marker buf) && (rc <? 0)
  | _ => false
  end.

Definition abort_step (p : pending) (e : event) : option pending :=
  match p with
  | Clear =>
      match e with
      | EvSend fd _ _ => Some (if is_failed_frame_send e then Failed fd else Clear)
      | _ => Some Clear
      end
  | Failed fd =>
      match e with
      | EvLog _ _ => Some (Failed fd)
      | EvGpioSet _ _ => Some (Failed fd)
      | EvClose fd' => if fd' =? fd then Some Clear else None
      | _ => None
      end
  end.

Fixpoint abort_all (p : pending) (tr : list event) : option pending :=
  match tr with
  | [] => Some p
  | e :: tl =>
      match abort_step p e with
      | Some p' => abort_all p' tl
      | None => None
      end
  end.

(** The events [post] begin with the [close] of [fd], after log lines and
    LED writes only: no [send], no [select], no [recv] before it. *)
Definition closed_at_once (fd : Z) (post : list event) : Prop :=
  exists logs post',
    post = logs ++ EvClose fd :: post' /\ Forall is_quiet logs.
(** * Further definitions: the rest of the two revisions' behaviour *)

(** ** [tcp_connect] by outcome *)

(** The three ways [tcp_connect] ends: [socket()] fails; [connect()] fails
    and the new descriptor is closed; the connection is made and its
    descriptor returned. *)
Definition connect_trace (ip : string) (s : Z) (evs : list event) : Prop :=
  (exists fd, fd < 0 /\ s = -1
              /\ evs = [EvSocket fd; EvLog LOG_E "Socket creation failed"])
  \/ (exists fd rc, 0 <= fd /\ rc <> 0 /\ s = -1
                    /\ evs = [EvSocket fd; EvConnect fd ip SERVER_PORT rc;
                              EvLog LOG_E "TCP connect to %s:%d failed"; EvClose fd])
  \/ (0 <= s
      /\ evs = [EvSocket s; EvConnect s ip SERVER_PORT 0;
                EvLog LOG_I "Connected to server"]).

(** Descriptors made and not yet closed by the events [evs]. *)
Definition descriptors_held (evs : list event) : Z :=
  Z.of_nat (count is_socket evs) - Z.of_nat (count is_close evs).

(** ** The debouncer over time *)

(** Clock readings that never go back and stay in the range of [int64_t]. *)
Fixpoint rising (prev : Z) (ts : list Z) : Prop :=
  match ts with
  | [] => True
  | t :: tl => prev <= t < 2 ^ 63 /\ rising t tl
  end.

(** The times at which the level returned by [button_pressed] differs from
    the level returned before; [obs] pairs each returned level with the
    clock reading of its call. *)
Fixpoint change_times (prev : bool) (obs : list (bool * Z)) : list Z :=
  match obs with
  | [] => []
  | (lv, t) :: tl =>
      (if Bool.eqb prev lv then [] else [t]) ++ change_times lv tl
  end.

(** Successive times are more than one debounce interval apart; [prev] is
    the time before the first, if there is one. *)
Fixpoint spaced (prev : option Z) (cs : list Z) : Prop :=
  match cs with
  | [] => True
  | c :: tl =>
      match prev with
      | Some p => p + Part001.DEBOUNCE_US < c
      | None => True
      end
      /\ spaced (Some c) tl
  end.

(** The polls answered by [button_pressed], seen from outside: the level
    each call returned with the clock reading it took. *)
Definition observed (g : Part001.globals) (polls : list (bool * Z)) : list (bool * Z) :=
  combine (stable_levels g polls) (map snd polls).

(** ** The bytes of a frame *)

(** A read that delivers whole samples, at least one. *)
Definition whole_samples (rd : Z * list Z) : Prop :=
  (length (snd rd) mod 4 = 0)%nat /\ snd rd <> [].

(** The bytes the driver delivered over the reads, in order. *)
Definition stream_of (reads : list (Z * list Z)) : list Z := concat (map snd reads).

(** ** The RGB LED as the outside sees it *)

(** The levels last written to the three LED pins. *)
Record leds := mkLeds { led_r : Z; led_g : Z; led_b : Z }.

Definition led_write (c : leds) (e : event) : leds :=
  match e with
  | EvGpioSet pin level =>
      if pin =? PIN_LED_R then mkLeds level (led_g c) (led_b c)
      else if pin =? PIN_LED_G then mkLeds (led_r c) level (led_b c)
      else if pin =? PIN_LED_B then mkLeds (led_r c) (led_g c) level
      else c
  | _ => c
  end.

Definition leds_after (c : leds) (evs : list event) : leds := fold_left led_write evs c.

(** The colour that belongs to each state: dark in IDLE, blue in RECORDING,
    blue or dark as [led_on] says in WAIT, green in PROCESSING. *)
Definition shows (st : state_t) (led_on : bool) (c : leds) : Prop :=
  match st with
  | STATE_IDLE => c = mkLeds 0 0 0
  | STATE_RECORDING => c = mkLeds 0 0 1
  | STATE_WAIT => c = mkLeds 0 0 (if led_on then 1 else 0)
  | STATE_PROCESSING => c = mkLeds 0 1 0
  end.

(** ** What is handed to [send] *)

(** The buffer given to [send] is the end marker or one frame of
    [PCM_FRAME_LEN * sizeof(int16_t)] bytes; the value [send] returns is
    not looked at here. *)
Definition is_whole_unit (e : event) : Prop :=
  match e with
  | EvSend _ buf _ => buf = END_MARKER \/ length buf = 512%nat
  | _ => True
  end.

Definition is_log (e : event) : Prop :=
  match e with
  | EvLog _ _ => True
  | _ => False
  end.

(** What one iteration of the loop of [part_001] keeps besides the
    protocol: only whole frames and the marker are sent, the LED shows the
    state, and IDLE is kept only with the button released. *)
Definition tick_more (ip : string) (l : Part001.locals) (c : leds)
           (r : res Part001.globals Part001.locals) : Prop :=
  ginv ip (mem r)
  /\ Forall is_whole_unit (out r)
  /\ shows (Part001.state (val r)) (Part001.led_on (val r)) (leds_after c (out r))
  /\ (Part001.state l = STATE_IDLE -> Part001.state (val r) = STATE_IDLE ->
      Part001.debounced_state (mem r) = false).

(** The same for [main.c], which has no debouncer. *)
Definition tick_more_c (l : MainC.locals) (c : leds)
           (r : res MainC.globals MainC.locals) : Prop :=
  ginv_c (mem r)
  /\ Forall is_whole_unit (out r)
  /\ shows (MainC.state (val r)) (MainC.led_on (val r)) (leds_after c (out r)).

(** The monitor has counted one descriptor more than closes exactly while it
    sees a socket. *)
Definition balanced (m : monitor) : Prop :=
  sockets_made m =
  (closed m + match link_of m with Closed => 0 | _ => 1 end)%nat.

(** ** A press in IDLE *)

Definition leds_blue : list event :=
  [EvGpioSet PIN_LED_R 0; EvGpioSet PIN_LED_G 0; EvGpioSet PIN_LED_B 1].

(** What an iteration that starts in IDLE has done when it ends: nothing,
    if the button was not pressed; one failed connection attempt (with the
    error signal [signal] of the revision), if it ends in IDLE after a
    press; one connection made, the LED blue, if it ends in RECORDING. *)
Definition idle_outcome (ip : string) (signal : list event)
           (st : state_t) (sk : Z) (pressed : bool) (evs : list event) : Prop :=
  (st = STATE_IDLE /\ pressed = false /\ evs = [])
  \/ (st = STATE_IDLE /\ sk = -1 /\ pressed = true
      /\ exists tr, connect_trace ip (-1) tr /\ evs = tr ++ signal)
  \/ (st = STATE_RECORDING /\ 0 <= sk /\ pressed = true
      /\ evs = [EvSocket sk; EvConnect sk ip SERVER_PORT 0;
                EvLog LOG_I "Connected to server"]
               ++ leds_blue ++ [EvLog LOG_I "Recording..."]).

(** The button polls an iteration of [main.c] took: [held] polls that read
    pressed (level 0), then, if [released], one that read released. *)
Definition polls_taken (o : oracle) (r_rest : oracle) (held : nat) (released : bool) : Prop :=
  if released
  then exists lvl, lvl <> 0 /\ gpio_in o = repeat 0 held ++ lvl :: gpio_in r_rest
  else gpio_in o = repeat 0 held ++ gpio_in r_rest.

(** The button is held while [socket()] fails; it is released at 504 ms,
    which the debouncer accepts at 540 ms. The red flash runs from 2 ms to
    502 ms. *)
Definition held_through_failure : oracle :=
  mkOracle [0; 0; 1; 1] [1000; 2000; 502000; 503000; 504000; 540000]
           [-1] [] [] [] [] [] [] [].

(** The static variables of [part_001] with the button debounced as
    pressed. *)
Definition globals_pressed : Part001.globals := Part001.set_button Part001.globals0 0 true.

(** ** From the microphone to the wire *)

(** The sends of a recording: one frame per full read of the driver, each
    the conversion of the 1024 bytes read; [frames] pairs the bytes of a
    read with the value [send] returns for its frame. *)
Definition streamed (sock : Z) (frames : list (list Z * Z)) : list event :=
  map (fun f => EvSend sock (frame_bytes (convert_frame (fst f))) (snd f)) frames.

(** The driver's answers for these frames, each in one read. *)
Definition full_reads (frames : list (list Z * Z)) : list (Z * list Z) :=
  map (fun f => (ESP_OK, fst f)) frames.

(** A read of a whole frame whose [send] is accepted. *)
Definition frame_goes_out (f : list Z * Z) : Prop :=
  length (fst f) = 1024%nat /\ 0 <= snd f.

(** * The first version, [src/unnamed/part_000]

    No state machine and no LED: wait for a press, connect, stream while
    the button is down, send the end marker, close. *)
Module Part000.

Definition PIN_BTN : Z := 0.

(** The static buffers of [app_main]: [i2s_buf] is [int32_t[256]], kept as
    its 1024 bytes; [pcm_buf] is [int16_t[256]]. *)
Record globals := mkGlobals {
  i2s_buf : list Z;
  pcm_buf : list Z
}.

Definition globals0 : globals := mkGlobals (zeros 1024) (zeros 256).

Definition set_i2s_buf (g : globals) (x : list Z) : globals := mkGlobals x (pcm_buf g).
Definition set_pcm_buf (g : globals) (x : list Z) : globals := mkGlobals (i2s_buf g) x.

Definition button_pressed : M globals bool :=
  lvl <- gpio_get_level PIN_BTN ;;
  ret (lvl =? 0).

(** [for (i = 0; i < num_samples; i++) pcm_buf[i] = (int16_t)(i2s_buf[i] >> 16);] *)
Definition convert (i2s_buf : list Z) (num_samples : nat) (pcm_buf : list Z) : list Z :=
  map (fun i => sample16 (load_i32 i2s_buf i)) (seq 0 num_samples)
  ++ skipn num_samples pcm_buf.

(** [while (!button_pressed()) vTaskDelay(pdMS_TO_TICKS(20));] *)
Fixpoint wait_press (fuel : nat) : M globals unit :=
  match fuel with
  | O => fail
  | Datatypes.S n =>
      p <- button_pressed ;;
      if negb p then vTaskDelay 20 ;;; wait_press n else ret tt
  end.

(** [while (button_pressed()) vTaskDelay(pdMS_TO_TICKS(20));] *)
Fixpoint wait_release (fuel : nat) : M globals unit :=
  match fuel with
  | O => fail
  | Datatypes.S n =>
      p <- button_pressed ;;
      if p then vTaskDelay 20 ;;; wait_release n else ret tt
  end.

(** [while (button_pressed()) { read; convert; send }] *)
Fixpoint stream (fuel : nat) (sock : Z) : M globals unit :=
  match fuel with
  | O => fail
  | Datatypes.S n =>
      p <- button_pressed ;;
      if p then
        r <- i2s_channel_read 1024 ;;
        g <- get ;;
        put (set_i2s_buf g (store_bytes (i2s_buf g) 0 (snd r))) ;;;
        if negb (fst r =? ESP_OK) then stream n sock
        else
          let num_samples := Z.to_nat (int32_t (Z.of_nat (length (snd r)) / 4)) in
          g <- get ;;
          put (set_pcm_buf g (convert (i2s_buf g) num_samples (pcm_buf g))) ;;;
          g <- get ;;
          send sock (frame_bytes (firstn num_samples (pcm_buf g))) ;;;
          stream n sock
      else ret tt
  end.

(** [for (int i = 0; i < 8; i++) i2s_channel_read(...);] *)
Fixpoint discard_reads (k : nat) : M globals unit :=
  match k with
  | O => ret tt
  | Datatypes.S k' =>
      r <- i2s_channel_read 1024 ;;
      g <- get ;;
      put (set_i2s_buf g (store_bytes (i2s_buf g) 0 (snd r))) ;;;
      discard_reads k'
  end.

Section Config.

Variable SERVER_IP : string.

Definition tcp_connect : M globals Z :=
  sock <- socket ;;
  if sock <? 0 then
    ESP_LOGE "Socket creation failed" ;;; ret (-1)
  else
    rc <- connect sock SERVER_IP SERVER_PORT ;;
    if negb (rc =? 0) then
      ESP_LOGE "TCP connect to %s:%d failed" ;;; close sock ;;; ret (-1)
    else
      ESP_LOGI "Connected to server %s:%d" ;;; ret sock.

(** One turn of [while (1)]: from the wait for a press to the pause after
    the close. *)
Definition session : M globals unit :=
  with_fuel wait_press ;;;
  ESP_LOGI "Recording..." ;;;
  sock <- tcp_connect ;;
  if sock <? 0 then
    with_fuel wait_release
  else
    with_fuel (fun n => stream n sock) ;;;
    send sock END_MARKER ;;;
    close sock ;;;
    ESP_LOGI "Sent. Waiting for next press..." ;;;
    vTaskDelay 200.

(** [n] turns of the loop. *)
Fixpoint run (n : nat) : M globals unit :=
  match n with
  | O => ret tt
  | Datatypes.S n' => session ;;; run n'
  end.

(** [app_main] up to the loop (peripheral and WiFi bring-up left out). *)
Definition startup : M globals unit :=
  ESP_LOGI "Waiting for WiFi..." ;;;
  discard_reads 8 ;;;
  ESP_LOGI "Ready! Hold BOOT button to record, release to send.".

(** [app_main] cut after [n] turns of its loop. *)
Definition app_main (n : nat) : M globals unit :=
  startup ;;; run n.

End Config.

End Part000.

(** A [send] on the descriptor [fd]. *)
Definition is_send_on (fd : Z) (e : event) : Prop :=
  match e with
  | EvSend fd' _ _ => fd' = fd
  | _ => False
  end.

(** The sizes of what was sent, in order. *)
Definition sent_sizes (evs : list event) : list nat :=
  flat_map (fun e => match e with EvSend _ buf _ => [length buf] | _ => [] end) evs.

(** The frame sizes [part_000] makes of the reads of a recording: nothing
    for a read that reported an error, two bytes per whole sample
    otherwise. *)
Definition frame_sizes (reads : list (Z * list Z)) : list nat :=
  map (fun rd => (2 * (length (snd rd) / 4))%nat)
      (filter (fun rd => fst rd =? ESP_OK) reads).

(** What one turn of the loop of [part_000] does to the outside, having
    taken [reads] from the driver: a failed [socket()] or [connect()] and
    nothing else, or one connection that carries one frame per good read,
    sized by its whole samples, then the end marker, and is closed. *)
Definition session_trace (ip : string) (reads : list (Z * list Z)) (evs : list event)
  : Prop :=
  (exists fd, fd < 0 /\ reads = []
              /\ evs = [EvLog LOG_I "Recording..."; EvSocket fd;
                        EvLog LOG_E "Socket creation failed"])
  \/ (exists fd rc, 0 <= fd /\ rc <> 0 /\ reads = []
                    /\ evs = [EvLog LOG_I "Recording..."; EvSocket fd;
                              EvConnect fd ip SERVER_PORT rc;
                              EvLog LOG_E "TCP connect to %s:%d failed"; EvClose fd])
  \/ (exists fd frames rc,
        0 <= fd /\ Forall (is_send_on fd) frames
        /\ sent_sizes frames = frame_sizes reads
        /\ Forall (fun rd => (length (snd rd) <= 1024)%nat) reads
        /\ evs = [EvLog LOG_I "Recording..."; EvSocket fd;
                  EvConnect fd ip SERVER_PORT 0;
                  EvLog LOG_I "Connected to server %s:%d"]
                 ++ frames
                 ++ [EvSend fd END_MARKER rc; EvClose fd;
                     EvLog LOG_I "Sent. Waiting for next press..."]).

(** One press of the first version: the driver delivers 600 bytes, then
    reports an error, then delivers 6 bytes; every [send] fails. *)
Definition short_reads : oracle :=
  mkOracle [1; 0; 0; 0; 0; 1] [] [3] [0]
           [(0, repeat 7 600); (-1, []); (0, repeat 9 6)]
           [-1; -1; -1] [] [] [] [].

(** ** The grace period *)

Definition is_send (e : event) : bool :=
  match e with
  | EvSend _ _ _ => true
  | _ => false
  end.

(** The clock readings of the iterations of WAIT in [part_001]: for each,
    the reading at the head of the iteration and the reading of the
    debouncer. *)
Definition wait_clock (times : list (Z * Z)) : list Z :=
  flat_map (fun p => [fst p; snd p]) times.

(** Every iteration starts within the grace period that began at [w]. *)
Definition within_grace (w : Z) (times : list (Z * Z)) : Prop :=
  Forall (fun p => w <= fst p <= w + WAIT_TIMEOUT_US) times.

(** * Machine integers: facts *)

Lemma wrap_small w x :
  0 < w -> - 2 ^ (w - 1) <= x < 2 ^ (w - 1) -> wrap w x = x.
Proof.
  intros Hw Hx. unfold wrap.
  assert (E : 2 ^ w = 2 * 2 ^ (w - 1)).
  { replace w with (Z.succ (w - 1)) at 1 by lia. apply Z.pow_succ_r. lia. }
  rewrite Z.mod_small; lia.
Qed.

Lemma int16_small x : in_int16 x -> int16_t x = x.
Proof. intros H. apply wrap_small; [lia | exact H]. Qed.

Lemma int32_small x : in_int32 x -> int32_t x = x.
Proof. intros H. apply wrap_small; [lia | exact H]. Qed.

Lemma int64_small x : in_int64 x -> int64_t x = x.
Proof. intros H. apply wrap_small; [lia | exact H]. Qed.

Lemma sub64_small a b :
  0 <= a < 2 ^ 63 -> 0 <= b < 2 ^ 63 -> sub64 a b = a - b.
Proof. intros Ha Hb. apply int64_small. unfold in_int64. lia. Qed.

Lemma shiftr16_range x : in_int32 x -> in_int16 (Z.shiftr x 16).
Proof.
  unfold in_int32, in_int16. intros [Hlo Hhi].
  rewrite Z.shiftr_div_pow2 by lia.
  split.
  - apply Z.div_le_lower_bound; lia.
  - apply Z.div_lt_upper_bound; lia.
Qed.

(** * Reasoning about monadic code *)

Lemma wp_intro {S A} (c : M S A) (Q : res S A -> Prop) s o :
  (forall r, c s o = Some r -> Q r) -> wp c Q s o.
Proof. unfold wp. intros H. destruct (c s o); auto. Qed.

Lemma wp_elim {S A} (c : M S A) (Q : res S A -> Prop) s o r :
  wp c Q s o -> c s o = Some r -> Q r.
Proof. unfold wp. intros H E. rewrite E in H. exact H. Qed.

Lemma wp_mono {S A} (c : M S A) (Q Q' : res S A -> Prop) s o :
  wp c Q s o -> (forall r, Q r -> Q' r) -> wp c Q' s o.
Proof. unfold wp. destruct (c s o); auto. Qed.

Lemma wp_ret {S A} (a : A) (Q : res S A -> Prop) s o :
  Q (mkRes a s o []) -> wp (ret a) Q s o.
Proof. exact (fun H => H). Qed.

Lemma wp_fail {S A} (Q : res S A -> Prop) s o : wp fail Q s o.
Proof. exact I. Qed.

Lemma wp_bind {S A B} (c : M S A) (k : A -> M S B) (Q : res S B -> Prop) s o :
  wp c (fun r1 => wp (k (val r1)) (fun r2 => Q (after r1 r2)) (mem r1) (rest r1)) s o ->
  wp (bind c k) Q s o.
Proof.
  unfold wp, bind, after. destruct (c s o) as [r1 |]; [| auto].
  destruct (k (val r1) (mem r1) (rest r1)); auto.
Qed.

(** Sequencing through a proved specification [R] of the first part. *)
Lemma wp_seq {S A B} (R : res S A -> Prop) (c : M S A) (k : A -> M S B)
      (Q : res S B -> Prop) s o :
  wp c R s o ->
  (forall r1, R r1 -> wp (k (val r1)) (fun r2 => Q (after r1 r2)) (mem r1) (rest r1)) ->
  wp (bind c k) Q s o.
Proof.
  intros H1 H2. apply wp_bind. apply (wp_mono _ _ _ _ _ H1). exact H2.
Qed.

(** A call whose result is known. *)
Lemma wp_known {S A} (c : M S A) (Q : res S A -> Prop) s o r :
  c s o = Some r -> Q r -> wp c Q s o.
Proof. intros E H. unfold wp. rewrite E. exact H. Qed.

Lemma wp_emit {S} e (Q : res S unit -> Prop) s o :
  Q (mkRes tt s o [e]) -> wp (emit e) Q s o.
Proof. exact (fun H => H). Qed.

Lemma wp_get {S} (Q : res S S -> Prop) s o :
  Q (mkRes s s o []) -> wp get Q s o.
Proof. exact (fun H => H). Qed.

Lemma wp_put {S} s' (Q : res S unit -> Prop) s o :
  Q (mkRes tt s' o []) -> wp (put s') Q s o.
Proof. exact (fun H => H). Qed.

Lemma wp_with_fuel {S A} (f : nat -> M S A) (Q : res S A -> Prop) s o :
  (forall n, wp (f n) Q s o) -> wp (with_fuel f) Q s o.
Proof. intros H. apply H. Qed.

Lemma wp_gpio_get_level {S} pin (Q : res S Z -> Prop) s o :
  (forall v tl, gpio_in o = v :: tl -> Q (mkRes v s (set_gpio_in o tl) [])) ->
  wp (gpio_get_level pin) Q s o.
Proof.
  unfold wp, gpio_get_level. intros H. destruct (gpio_in o); [exact I | apply H; reflexivity].
Qed.

Lemma wp_esp_timer_get_time {S} (Q : res S Z -> Prop) s o :
  (forall t tl, clock o = t :: tl -> Q (mkRes (int64_t t) s (set_clock o tl) [])) ->
  wp esp_timer_get_time Q s o.
Proof.
  unfold wp, esp_timer_get_time. intros H.
  destruct (clock o); [exact I | apply H; reflexivity].
Qed.

Lemma wp_socket {S} (Q : res S Z -> Prop) s o :
  (forall fd tl, sockets o = fd :: tl ->
     Q (mkRes (int32_t fd) s (set_sockets o tl) [EvSocket (int32_t fd)])) ->
  wp socket Q s o.
Proof.
  unfold wp, socket. intros H.
  destruct (sockets o); [exact I | apply H; reflexivity].
Qed.

Lemma wp_connect {S} fd ip port (Q : res S Z -> Prop) s o :
  (forall rc tl, connects o = rc :: tl ->
     Q (mkRes rc s (set_connects o tl) [EvConnect fd ip port rc])) ->
  wp (connect fd ip port) Q s o.
Proof.
  unfold wp, connect. intros H.
  destruct (connects o); [exact I | apply H; reflexivity].
Qed.

Lemma wp_send {S} fd buf (Q : res S Z -> Prop) s o :
  (forall rc tl, sends o = rc :: tl ->
     Q (mkRes rc s (set_sends o tl) [EvSend fd buf rc])) ->
  wp (send fd buf) Q s o.
Proof.
  unfold wp, send. intros H.
  destruct (sends o); [exact I | apply H; reflexivity].
Qed.

Lemma wp_select {S} fd (Q : res S (Z * bool) -> Prop) s o :
  (forall rc isset tl, selects o = (rc, isset) :: tl ->
     Q (mkRes (rc, isset) s (set_selects o tl) [EvSelect fd rc])) ->
  wp (select fd) Q s o.
Proof.
  unfold wp, select. intros H.
  destruct (selects o) as [| [rc isset] tl]; [exact I | apply H; reflexivity].
Qed.

Lemma wp_recv {S} fd (Q : res S (Z * Z) -> Prop) s o :
  (forall n b tl, recvs o = (n, b) :: tl ->
     Q (mkRes (n, b mod 256) s (set_recvs o tl) [EvRecv fd n])) ->
  wp (recv fd) Q s o.
Proof.
  unfold wp, recv. intros H.
  destruct (recvs o) as [| [n b] tl]; [exact I | apply H; reflexivity].
Qed.

Lemma wp_i2s_channel_read {S} size (Q : res S (Z * list Z) -> Prop) s o :
  (forall err data tl, i2s_in o = (err, data) :: tl ->
     Z.of_nat (length data) <= size ->
     Q (mkRes (err, data) s (set_i2s_in o tl) [])) ->
  wp (i2s_channel_read size) Q s o.
Proof.
  unfold wp, i2s_channel_read. intros H.
  destruct (i2s_in o) as [| [err data] tl]; [exact I |].
  destruct (Z.leb_spec (Z.of_nat (length data)) size); [| exact I].
  apply H; [reflexivity | assumption].
Qed.

Lemma wp_mdns_init {S} (Q : res S Z -> Prop) s o :
  (forall err tl, mdns_inits o = err :: tl -> Q (mkRes err s (set_mdns_inits o tl) [])) ->
  wp mdns_init Q s o.
Proof.
  unfold wp, mdns_init. intros H.
  destruct (mdns_inits o); [exact I | apply H; reflexivity].
Qed.

Lemma wp_mdns_query_a {S} (Q : res S (Z * Z) -> Prop) s o :
  (forall q tl, mdns_queries o = q :: tl -> Q (mkRes q s (set_mdns_queries o tl) [])) ->
  wp mdns_query_a Q s o.
Proof.
  unfold wp, mdns_query_a. intros H.
  destruct (mdns_queries o); [exact I | apply H; reflexivity].
Qed.

(** One step of symbolic execution of a monadic term. *)
Ltac wp_step :=
  lazymatch goal with
  | |- wp (bind _ _) _ _ _ => apply wp_bind
  | |- wp (ret _) _ _ _ => apply wp_ret
  | |- wp fail _ _ _ => apply wp_fail
  | |- wp (emit _) _ _ _ => apply wp_emit
  | |- wp (gpio_set_level _ _) _ _ _ => apply wp_emit
  | |- wp (ESP_LOGE _) _ _ _ => apply wp_emit
  | |- wp (ESP_LOGW _) _ _ _ => apply wp_emit
  | |- wp (ESP_LOGI _) _ _ _ => apply wp_emit
  | |- wp (close _) _ _ _ => apply wp_emit
  | |- wp (vTaskDelay _) _ _ _ => apply wp_ret
  | |- wp get _ _ _ => apply wp_get
  | |- wp (put _) _ _ _ => apply wp_put
  | |- wp (with_fuel _) _ _ _ => apply wp_with_fuel; intro
  | |- wp (gpio_get_level _) _ _ _ => apply wp_gpio_get_level; intros ? ? ?
  | |- wp esp_timer_get_time _ _ _ => apply wp_esp_timer_get_time; intros ? ? ?
  | |- wp socket _ _ _ => apply wp_socket; intros ? ? ?
  | |- wp (connect _ _ _) _ _ _ => apply wp_connect; intros ? ? ?
  | |- wp (send _ _) _ _ _ => apply wp_send; intros ? ? ?
  | |- wp (select _) _ _ _ => apply wp_select; intros ? ? ? ?
  | |- wp (recv _) _ _ _ => apply wp_recv; intros ? ? ? ?
  | |- wp (i2s_channel_read _) _ _ _ => apply wp_i2s_channel_read; intros ? ? ? ? ?
  | |- wp mdns_init _ _ _ => apply wp_mdns_init; intros ? ? ?
  | |- wp mdns_query_a _ _ _ => apply wp_mdns_query_a; intros ? ? ?
  | |- wp (if ?b then _ else _) _ _ _ => destruct b eqn:?
  end; cbn [after val mem rest out fst snd].

Ltac wp_run := repeat wp_step.

(** The fuel of [with_fuel] covers every queue of the environment. *)
Lemma answers_cover_i2s o : (length (i2s_in o) <= answers_left o)%nat.
Proof. unfold answers_left. lia. Qed.

Lemma answers_cover_clock o : (length (clock o) <= answers_left o)%nat.
Proof. unfold answers_left. lia. Qed.

Lemma answers_cover_gpio o : (length (gpio_in o) <= answers_left o)%nat.
Proof. unfold answers_left. lia. Qed.

(** * Running the code forward on a given environment *)

Lemma wpt_exact {S A} (c : M S A) s o R :
  wpt c (fun r => r = R) s o -> c s o = Some R.
Proof. unfold wpt. destruct (c s o); [intros ->; reflexivity | contradiction]. Qed.

Lemma wpt_ret {S A} (a : A) (Q : res S A -> Prop) s o :
  Q (mkRes a s o []) -> wpt (ret a) Q s o.
Proof. exact (fun H => H). Qed.

Lemma wpt_bind {S A B} (c : M S A) (k : A -> M S B) (Q : res S B -> Prop) s o :
  wpt c (fun r1 => wpt (k (val r1)) (fun r2 => Q (after r1 r2)) (mem r1) (rest r1)) s o ->
  wpt (bind c k) Q s o.
Proof.
  unfold wpt, bind, after. destruct (c s o) as [r1 |]; [| auto].
  destruct (k (val r1) (mem r1) (rest r1)); auto.
Qed.

(** A call whose result is known. *)
Lemma wpt_known {S A} (c : M S A) (Q : res S A -> Prop) s o r :
  c s o = Some r -> Q r -> wpt c Q s o.
Proof. unfold wpt. intros ->. auto. Qed.

Lemma wpt_emit {S} e (Q : res S unit -> Prop) s o :
  Q (mkRes tt s o [e]) -> wpt (emit e) Q s o.
Proof. exact (fun H => H). Qed.

Lemma wpt_get {S} (Q : res S S -> Prop) s o :
  Q (mkRes s s o []) -> wpt get Q s o.
Proof. exact (fun H => H). Qed.

Lemma wpt_put {S} s' (Q : res S unit -> Prop) s o :
  Q (mkRes tt s' o []) -> wpt (put s') Q s o.
Proof. exact (fun H => H). Qed.

Lemma wpt_with_fuel {S A} (f : nat -> M S A) (Q : res S A -> Prop) s o :
  wpt (f (Datatypes.S (answers_left o))) Q s o -> wpt (with_fuel f) Q s o.
Proof. exact (fun H => H). Qed.

Lemma wpt_gpio_get_level {S} pin (Q : res S Z -> Prop) s o v tl :
  gpio_in o = v :: tl -> Q (mkRes v s (set_gpio_in o tl) []) ->
  wpt (gpio_get_level pin) Q s o.
Proof. unfold wpt, gpio_get_level. intros ->. auto. Qed.

Lemma wpt_esp_timer_get_time {S} (Q : res S Z -> Prop) s o t tl :
  clock o = t :: tl -> Q (mkRes (int64_t t) s (set_clock o tl) []) ->
  wpt esp_timer_get_time Q s o.
Proof. unfold wpt, esp_timer_get_time. intros ->. auto. Qed.

Lemma wpt_socket {S} (Q : res S Z -> Prop) s o fd tl :
  sockets o = fd :: tl ->
  Q (mkRes (int32_t fd) s (set_sockets o tl) [EvSocket (int32_t fd)]) ->
  wpt socket Q s o.
Proof. unfold wpt, socket. intros ->. auto. Qed.

Lemma wpt_connect {S} fd ip port (Q : res S Z -> Prop) s o rc tl :
  connects o = rc :: tl ->
  Q (mkRes rc s (set_connects o tl) [EvConnect fd ip port rc]) ->
  wpt (connect fd ip port) Q s o.
Proof. unfold wpt, connect. intros ->. auto. Qed.

Lemma wpt_send {S} fd buf (Q : res S Z -> Prop) s o rc tl :
  sends o = rc :: tl ->
  Q (mkRes rc s (set_sends o tl) [EvSend fd buf rc]) ->
  wpt (send fd buf) Q s o.
Proof. unfold wpt, send. intros ->. auto. Qed.

Lemma wpt_select {S} fd (Q : res S (Z * bool) -> Prop) s o rc isset tl :
  selects o = (rc, isset) :: tl ->
  Q (mkRes (rc, isset) s (set_selects o tl) [EvSelect fd rc]) ->
  wpt (select fd) Q s o.
Proof. unfold wpt, select. intros ->. auto. Qed.

Lemma wpt_recv {S} fd (Q : res S (Z * Z) -> Prop) s o n b tl :
  recvs o = (n, b) :: tl ->
  Q (mkRes (n, b mod 256) s (set_recvs o tl) [EvRecv fd n]) ->
  wpt (recv fd) Q s o.
Proof. unfold wpt, recv. intros ->. auto. Qed.

Lemma wpt_mdns_init {S} (Q : res S Z -> Prop) s o err tl :
  mdns_inits o = err :: tl -> Q (mkRes err s (set_mdns_inits o tl) []) ->
  wpt mdns_init Q s o.
Proof. unfold wpt, mdns_init. intros ->. auto. Qed.

Lemma wpt_mdns_query_a {S} (Q : res S (Z * Z) -> Prop) s o q tl :
  mdns_queries o = q :: tl -> Q (mkRes q s (set_mdns_queries o tl) []) ->
  wpt mdns_query_a Q s o.
Proof. unfold wpt, mdns_query_a. intros ->. auto. Qed.

Ltac oracle_field :=
  cbn [gpio_in clock sockets connects i2s_in sends selects recvs mdns_inits mdns_queries
       set_gpio_in set_clock set_sockets set_connects set_i2s_in set_sends
       set_selects set_recvs set_mdns_inits set_mdns_queries];
  first [eassumption | reflexivity].

(** One step of forward execution; the environment must hold the answer. *)
Ltac fwd_step :=
  lazymatch goal with
  | |- wpt (bind _ _) _ _ _ => apply wpt_bind
  | |- wpt (ret _) _ _ _ => apply wpt_ret
  | |- wpt (emit _) _ _ _ => apply wpt_emit
  | |- wpt (gpio_set_level _ _) _ _ _ => apply wpt_emit
  | |- wpt (ESP_LOGE _) _ _ _ => apply wpt_emit
  | |- wpt (ESP_LOGW _) _ _ _ => apply wpt_emit
  | |- wpt (ESP_LOGI _) _ _ _ => apply wpt_emit
  | |- wpt (close _) _ _ _ => apply wpt_emit
  | |- wpt (vTaskDelay _) _ _ _ => apply wpt_ret
  | |- wpt get _ _ _ => apply wpt_get
  | |- wpt (put _) _ _ _ => apply wpt_put
  | |- wpt led_off _ _ _ => unfold led_off
  | |- wpt led_solid_blue _ _ _ => unfold led_solid_blue
  | |- wpt led_solid_green _ _ _ => unfold led_solid_green
  | |- wpt Part001.led_solid_red _ _ _ => unfold Part001.led_solid_red
  | |- wpt (gpio_get_level _) _ _ _ => eapply wpt_gpio_get_level; [oracle_field |]
  | |- wpt esp_timer_get_time _ _ _ => eapply wpt_esp_timer_get_time; [oracle_field |]
  | |- wpt socket _ _ _ => eapply wpt_socket; [oracle_field |]
  | |- wpt (connect _ _ _) _ _ _ => eapply wpt_connect; [oracle_field |]
  | |- wpt (send _ _) _ _ _ => eapply wpt_send; [oracle_field |]
  | |- wpt (select _) _ _ _ => eapply wpt_select; [oracle_field |]
  | |- wpt (recv _) _ _ _ => eapply wpt_recv; [oracle_field |]
  | |- wpt mdns_init _ _ _ => eapply wpt_mdns_init; [oracle_field |]
  | |- wpt mdns_query_a _ _ _ => eapply wpt_mdns_query_a; [oracle_field |]
  end; cbn [after val mem rest out fst snd].

Ltac fwd := repeat fwd_step.

(** Closes a forward execution whose result is stated exactly. *)
Ltac fwd_done := unfold after; cbn [val mem rest out app]; reflexivity.

(** The red flash returns once the clock has passed its half second. *)
Lemma flash_loop_eq {S} start mids : forall fuel (s : S) o fend cl,
  clock o = mids ++ fend :: cl ->
  Forall (fun t => sub64 (int64_t t) start < Part001.ERROR_FLASH_US) mids ->
  Part001.ERROR_FLASH_US <= sub64 (int64_t fend) start ->
  (length mids < fuel)%nat ->
  Part001.flash_loop fuel start s o = Some (mkRes tt s (set_clock o cl) []).
Proof.
  induction mids as [| t mids IH]; intros fuel s o fend cl Hc Hm He Hf;
    (destruct fuel as [| n]; [cbn in Hf; lia |]); cbn [Part001.flash_loop];
    apply wpt_exact; fwd.
  - destruct (Z.ltb_spec (sub64 (int64_t fend) start) Part001.ERROR_FLASH_US); [lia |].
    fwd. reflexivity.
  - pose proof (Forall_inv Hm) as Ht. cbn beta in Ht.
    destruct (Z.ltb_spec (sub64 (int64_t t) start) Part001.ERROR_FLASH_US); [| lia].
    fwd. eapply wpt_known.
    + apply (IH n s (set_clock o (mids ++ fend :: cl)) fend cl);
        [reflexivity | exact (Forall_inv_tail Hm) | exact He | cbn in Hf; lia].
    + reflexivity.
Qed.

Lemma led_flash_red_eq {S} (s : S) o start mids fend cl :
  clock o = start :: mids ++ fend :: cl ->
  flash_clock start mids fend ->
  Part001.led_flash_red s o = Some (mkRes tt s (set_clock o cl) red_flash).
Proof.
  intros Hc [Hm He]. unfold Part001.led_flash_red. apply wpt_exact. fwd.
  apply wpt_with_fuel. eapply wpt_known.
  - apply (flash_loop_eq (int64_t start) mids _ s _ fend cl);
      [reflexivity | exact Hm | exact He |].
    pose proof (answers_cover_clock (set_clock o (mids ++ fend :: cl))) as Ha.
    cbn [clock set_clock] in Ha. rewrite length_app in Ha. cbn [length] in Ha. lia.
  - cbn [after val mem rest out]. fwd. reflexivity.
Qed.

(** * Frame conversion *)

(** Every slot of the converted frame is [sample16] of the raw slot. *)
Lemma convert_frame_nth raw (i : nat) :
  (i < 256)%nat ->
  nth i (convert_frame raw) 0 = sample16 (load_i32 raw i).
Proof.
  intros Hi. unfold convert_frame.
  change (Z.to_nat PCM_FRAME_LEN) with 256%nat.
  rewrite (nth_indep _ 0 (sample16 (load_i32 raw 0)))
    by (rewrite length_map, length_seq; exact Hi).
  rewrite (map_nth (fun i => sample16 (load_i32 raw i)) (seq 0 256) 0%nat i).
  rewrite seq_nth by exact Hi. reflexivity.
Qed.

Lemma convert_frame_length raw : length (convert_frame raw) = 256%nat.
Proof. unfold convert_frame. rewrite length_map, length_seq. reflexivity. Qed.

(** The raw word stored as bytes [FF 56 34 12] is [0x123456FF] and converts
    to [0x1234]. *)
Example convert_literal :
  nth 0 (convert_frame (store_bytes (zeros 1024) 0 [0xFF; 0x56; 0x34; 0x12])) 0 = 0x1234.
Proof. vm_compute. reflexivity. Qed.

(** * C9: reading one frame *)

Lemma short_before_last_nil sg : short_before_last sg [].
Proof.
  intros p q E Hq. destruct p; destruct q; try discriminate. congruence.
Qed.

Lemma short_before_last_cons sg rd reads :
  sg < PCM_FRAME_LEN ->
  short_before_last (sg + samples_in rd) reads ->
  short_before_last sg (rd :: reads).
Proof.
  intros Hsg H p q E Hq. destruct p as [| x p].
  - cbn. lia.
  - cbn in E. injection E as -> E. cbn [samples_of].
    specialize (H p q E Hq). lia.
Qed.

Lemma samples_in_bounds (err : Z) (data : list Z) (need : Z) :
  Z.of_nat (length data) <= need * 4 ->
  0 <= samples_in (err, data) <= need.
Proof.
  intros H. unfold samples_in. cbn [snd]. split.
  - apply Z.div_pos; lia.
  - apply Z.div_le_upper_bound; lia.
Qed.

Lemma read_loop_sound fuel : forall sg g o,
  0 <= sg <= PCM_FRAME_LEN ->
  wp (Part001.read_loop fuel sg) (fun r => exists reads, frame_read sg g o r reads) g o.
Proof.
  induction fuel as [| n IH]; intros sg g o Hsg; [exact I |].
  cbn [Part001.read_loop]. unfold PCM_FRAME_LEN in *.
  destruct (Z.ltb_spec sg 256) as [Hlt | Hge].
  - rewrite (int32_small (256 - sg)) by (unfold in_int32; lia).
    wp_run.
    + (* error code *)
      exists [(err, data)]. unfold frame_read. cbn.
      repeat split.
      * rewrite H. reflexivity.
      * apply short_before_last_cons; [exact Hlt | apply short_before_last_nil].
      * exists [], (err, data). cbn. repeat split; [| constructor].
        apply Z.eqb_neq. apply negb_true_iff. exact Heqb.
    + pose proof (samples_in_bounds err data (256 - sg) H0) as Hb.
      unfold samples_in in Hb. cbn [snd] in Hb.
      rewrite int32_small by (unfold in_int32; lia).
      eapply wp_mono; [apply IH; lia |].
      cbn beta. intros r (reads & Hi & Hr & Hm & Hs & Hv).
      exists ((err, data) :: reads). unfold frame_read, after.
      cbn [val mem rest out app] in *.
      cbn [i2s_in set_i2s_in Part001.i2s_raw Part001.set_i2s_raw Part001.pcm_frame
           Part001.set_pcm_frame] in *.
      split; [rewrite H, Hi; reflexivity |].
      split; [rewrite Hr; reflexivity |].
      split; [exact Hm |].
      split; [apply short_before_last_cons; [exact Hlt | exact Hs] |].
      apply negb_false_iff in Heqb. apply Z.eqb_eq in Heqb.
      destruct (val r).
      * destruct Hv as (Hok & Hsum & Hc & Hlen & Hout).
        repeat split; auto.
        cbn [samples_of]. unfold samples_in at 1. cbn [snd]. lia.
      * destruct Hv as (Hp & (p & last & Hpl & Hne & Hpok) & Hout).
        repeat split; auto.
        exists ((err, data) :: p), last. rewrite Hpl. repeat split; auto.
  - assert (sg = 256) by lia. subst sg.
    wp_run.
    exists []. unfold frame_read. cbn.
    repeat split;
      first [ apply short_before_last_nil | apply convert_frame_length
            | constructor | destruct o; reflexivity ].
Qed.

Lemma read_loop_unchecked_sound fuel : forall sg g o,
  0 <= sg <= PCM_FRAME_LEN ->
  wp (MainC.read_loop fuel sg)
     (fun r => exists reads, frame_read_unchecked sg g o r reads) g o.
Proof.
  induction fuel as [| n IH]; intros sg g o Hsg; [exact I |].
  cbn [MainC.read_loop]. unfold PCM_FRAME_LEN in *.
  destruct (Z.ltb_spec sg 256) as [Hlt | Hge].
  - rewrite (int32_small (256 - sg)) by (unfold in_int32; lia).
    wp_run.
    pose proof (samples_in_bounds err data (256 - sg) H0) as Hb.
    unfold samples_in in Hb. cbn [snd] in Hb.
    rewrite int32_small by (unfold in_int32; lia).
    eapply wp_mono; [apply IH; lia |].
    cbn beta. intros r (reads & Hi & Hr & Hm & Hs & Hsum & Hc & Hlen & Hout).
    exists ((err, data) :: reads). unfold frame_read_unchecked, after.
    cbn [val mem rest out app] in *.
    cbn [i2s_in set_i2s_in MainC.i2s_raw MainC.set_i2s_raw MainC.pcm_frame
         MainC.set_pcm_frame] in *.
    split; [rewrite H, Hi; reflexivity |].
    split; [rewrite Hr; reflexivity |].
    split; [exact Hm |].
    split; [apply short_before_last_cons; [exact Hlt | exact Hs] |].
    repeat split; auto.
    cbn [samples_of]. unfold samples_in at 1. cbn [snd]. lia.
  - assert (sg = 256) by lia. subst sg.
    wp_run.
    exists []. unfold frame_read_unchecked. cbn.
    repeat split;
      first [ apply short_before_last_nil | apply convert_frame_length
            | constructor | destruct o; reflexivity ].
Qed.

(** The loop does return, with a frame, when the driver delivers. *)
Lemma read_loop_complete reads : forall sg g o tl fuel,
  0 <= sg ->
  i2s_in o = reads ++ tl ->
  in_contract sg reads ->
  Forall (fun rd => fst rd = ESP_OK) reads ->
  sg + samples_of reads = PCM_FRAME_LEN ->
  short_before_last sg reads ->
  (length reads < fuel)%nat ->
  Part001.read_loop fuel sg g o =
  Some (mkRes true
          (Part001.set_pcm_frame
             (Part001.set_i2s_raw g (gather (Part001.i2s_raw g) sg reads))
             (convert_frame (gather (Part001.i2s_raw g) sg reads)))
          (set_i2s_in o tl) []).
Proof.
  induction reads as [| [err data] reads IH]; intros sg g o tl fuel H0 Hi Hc Hok Hsum Hs Hf;
    (destruct fuel as [| n]; [cbn in Hf; lia |]); cbn [Part001.read_loop].
  - cbn in Hsum. replace sg with PCM_FRAME_LEN by lia.
    cbn. cbn in Hi. rewrite <- Hi. destruct o; reflexivity.
  - assert (Hlt : sg < PCM_FRAME_LEN).
    { assert (Hne : (err, data) :: reads <> []) by discriminate.
      pose proof (Hs [] ((err, data) :: reads) eq_refl Hne) as Hs0.
      cbn [samples_of] in Hs0. lia. }
    unfold PCM_FRAME_LEN in *.
    destruct (Z.ltb_spec sg 256); [| lia].
    rewrite (int32_small (256 - sg)) by (unfold in_int32; lia).
    destruct Hc as [Hc1 Hc2]. cbn [snd] in Hc1. unfold PCM_FRAME_LEN in Hc1.
    pose proof (samples_in_bounds err data (256 - sg) Hc1) as Hb.
    pose proof (Forall_inv Hok) as He. cbn [fst] in He. subst err.
    unfold bind at 1. unfold i2s_channel_read. rewrite Hi. cbn [app].
    destruct (Z.leb_spec (Z.of_nat (length data)) ((256 - sg) * 4)); [| lia].
    cbn [val mem rest out fst snd]. unfold bind at 1. unfold get at 1.
    cbn [val mem rest out]. unfold bind at 1. unfold put at 1.
    cbn [val mem rest out]. rewrite Z.eqb_refl. cbn [negb].
    change (Z.of_nat (length data) / 4) with (samples_in (ESP_OK, data)).
    rewrite int32_small by (unfold in_int32; lia).
    rewrite (IH (sg + samples_in (ESP_OK, data)) _ (set_i2s_in o (reads ++ tl)) tl n);
      try assumption; try reflexivity.
    + lia.
    + apply (Forall_inv_tail Hok).
    + cbn [samples_of] in Hsum. lia.
    + intros p q E Hq.
      specialize (Hs ((ESP_OK, data) :: p) q). cbn [app samples_of] in Hs.
      rewrite E in Hs. specialize (Hs eq_refl Hq). lia.
    + cbn in Hf. lia.
Qed.

(** [read_i2s_pcm] is total on a driver that keeps its contract and
    delivers 256 samples. *)
Lemma read_i2s_pcm_complete reads g o tl :
  i2s_in o = reads ++ tl ->
  in_contract 0 reads ->
  Forall (fun rd => fst rd = ESP_OK) reads ->
  samples_of reads = PCM_FRAME_LEN ->
  short_before_last 0 reads ->
  Part001.read_i2s_pcm g o =
  Some (mkRes true
          (Part001.set_pcm_frame
             (Part001.set_i2s_raw g (gather (Part001.i2s_raw g) 0 reads))
             (convert_frame (gather (Part001.i2s_raw g) 0 reads)))
          (set_i2s_in o tl) []).
Proof.
  intros Hi Hc Hok Hsum Hs. unfold Part001.read_i2s_pcm, with_fuel.
  apply read_loop_complete; try assumption; try lia.
  pose proof (answers_cover_i2s o) as Ha. rewrite Hi, length_app in Ha. lia.
Qed.



(** * C4: the samples of the frame *)

(** Every slot of the raw buffer reads as a 32-bit value. *)
Lemma load_i32_range raw i : in_int32 (load_i32 raw i).
Proof.
  unfold load_i32, int32_t, wrap, in_int32.
  match goal with
  | |- _ <= ?a mod ?m - _ < _ =>
      pose proof (Z.mod_pos_bound a m ltac:(lia)) as H
  end.
  change (2 ^ 32) with 4294967296 in *. change (2 ^ (32 - 1)) with 2147483648 in *.
  change (2 ^ 31) with 2147483648. lia.
Qed.

(** C4. For every 32-bit raw sample [x], the 16-bit sample that ends up in
    the frame is [x] shifted right arithmetically by 16 (the floor of
    [x / 2^16]): the cast to [int16_t] loses nothing, bit [k] of the sample
    is bit [k + 16] of [x], and the result fits 16 bits. This is what the
    frame holds: slot [i] of the converted frame is the shifted slot [i] of
    the raw buffer, for each of the 256 slots, and [pcm_frame] is that
    frame of [i2s_raw] whenever [read_i2s_pcm] delivers a frame, in both
    revisions. So a raw sample [0x123456FF] gives the frame sample
    [0x1234]. *)
Theorem C4_sample_is_top_16_bits (x : Z) :
  in_int32 x ->
  (sample16 x = Z.shiftr x 16
   /\ sample16 x = x / 2 ^ 16
   /\ in_int16 (sample16 x)
   /\ (forall k, 0 <= k -> Z.testbit (sample16 x) k = Z.testbit x (k + 16))
   /\ sample16 0x123456FF = 0x1234)
  /\ (forall raw i, in_int32 (load_i32 raw i))
  /\ (forall raw i,
        (i < 256)%nat -> load_i32 raw i = x ->
        nth i (convert_frame raw) 0 = Z.shiftr x 16)
  /\ (forall g o r i,
        Part001.read_i2s_pcm g o = Some r -> val r = true ->
        (i < 256)%nat -> load_i32 (Part001.i2s_raw (mem r)) i = x ->
        nth i (Part001.pcm_frame (mem r)) 0 = Z.shiftr x 16)
  /\ (forall g o r i,
        MainC.read_i2s_pcm g o = Some r ->
        (i < 256)%nat -> load_i32 (MainC.i2s_raw (mem r)) i = x ->
        nth i (MainC.pcm_frame (mem r)) 0 = Z.shiftr x 16).
Proof.
  intros Hx.
  assert (E : sample16 x = Z.shiftr x 16).
  { unfold sample16. apply int16_small. apply shiftr16_range. exact Hx. }
  assert (R0 : 0 <= 0 <= PCM_FRAME_LEN) by (unfold PCM_FRAME_LEN; lia).
  split; [| split; [| split; [| split]]].
  - rewrite E. repeat split.
    + apply Z.shiftr_div_pow2. lia.
    + apply (shiftr16_range x Hx).
    + apply (shiftr16_range x Hx).
    + intros k Hk. apply Z.shiftr_spec. exact Hk.
  - apply load_i32_range.
  - intros raw i Hi Hl. rewrite convert_frame_nth by exact Hi. rewrite Hl. exact E.
  - intros g o r i Er Hv Hi Hl.
    pose proof (read_loop_sound (S (answers_left o)) 0 g o R0) as H.
    destruct (wp_elim _ _ _ _ _ H Er) as (reads & _ & _ & _ & _ & Hr).
    rewrite Hv in Hr. destruct Hr as (_ & _ & Hc & _).
    rewrite Hc, convert_frame_nth by exact Hi. rewrite Hl. exact E.
  - intros g o r i Er Hi Hl.
    pose proof (read_loop_unchecked_sound (S (answers_left o)) 0 g o R0) as H.
    destruct (wp_elim _ _ _ _ _ H Er) as (reads & _ & _ & _ & _ & _ & Hc & _).
    rewrite Hc, convert_frame_nth by exact Hi. rewrite Hl. exact E.
Qed.

(** The driver delivers a frame whose first sample is stored as the bytes
    [FF 56 34 12]: slot 0 of [pcm_frame] is [0x1234]. *)
Lemma C4_witness :
  let o := i2s_oracle [(ESP_OK, [0xFF; 0x56; 0x34; 0x12] ++ zeros 1020)] in
  let r := the (mkRes false Part001.globals0 no_input [])
               (Part001.read_i2s_pcm Part001.globals0 o) in
  in_int32 0x123456FF
  /\ load_i32 (Part001.i2s_raw (mem r)) 0 = 0x123456FF
  /\ nth 0 (Part001.pcm_frame (mem r)) 0 = 0x1234.
Proof.
  intros o r.
  assert (H : in_int32 0x123456FF) by (unfold in_int32; lia).
  assert (Hl : load_i32 (Part001.i2s_raw (mem r)) 0 = 0x123456FF)
    by (vm_compute; reflexivity).
  split; [exact H |]. split; [exact Hl |].
  change 0x1234 with (Z.shiftr 0x123456FF 16).
  refine (proj1 (proj2 (proj2 (proj2 (C4_sample_is_top_16_bits 0x123456FF H))))
                Part001.globals0 o r 0%nat _ _ _ Hl).
  - vm_compute. reflexivity.
  - vm_compute. reflexivity.
  - lia.
Defined.

(** * C3: the debouncer of [part_001] *)

Lemma button_pressed_eq g o lvl t gs cs :
  gpio_in o = lvl :: gs ->
  clock o = t :: cs ->
  Part001.button_pressed g o =
  Some (mkRes (Part001.debounced_state (Part001.debounce (lvl =? 0) (int64_t t) g))
              (Part001.debounce (lvl =? 0) (int64_t t) g)
              (set_clock (set_gpio_in o gs) cs) []).
Proof.
  intros Hg Hc.
  unfold Part001.button_pressed, bind, gpio_get_level, esp_timer_get_time, get, put, ret.
  rewrite Hg. cbn [val mem rest out clock set_gpio_in]. rewrite Hc.
  reflexivity.
Qed.

Lemma level_of_raw raw : (level_of raw =? 0) = raw.
Proof. destruct raw; reflexivity. Qed.

(** Polling through the monad is [stable_levels] and [debounce_all]. *)
Lemma poll_buttons_eq polls : forall g,
  poll_buttons (length polls) g (button_oracle polls) =
  Some (mkRes (stable_levels g polls) (debounce_all g polls) no_input []).
Proof.
  induction polls as [| [raw t] tl IH]; intros g.
  - reflexivity.
  - cbn [length poll_buttons]. unfold bind at 1.
    rewrite (button_pressed_eq g _ (level_of raw) t
               (map (fun p => level_of (fst p)) tl) (map snd tl))
      by reflexivity.
    cbn [val mem rest out]. rewrite level_of_raw.
    change (set_clock (set_gpio_in (button_oracle ((raw, t) :: tl)) _) _)
      with (button_oracle tl).
    unfold bind. rewrite IH. reflexivity.
Qed.

Lemma stable_levels_app g p q :
  stable_levels g (p ++ q) = stable_levels g p ++ stable_levels (debounce_all g p) q.
Proof.
  revert g. induction p as [| [raw t] tl IH]; intros g; cbn; [reflexivity |].
  rewrite IH. reflexivity.
Qed.

Lemma debounce_all_app g p q :
  debounce_all g (p ++ q) = debounce_all (debounce_all g p) q.
Proof.
  revert g. induction p as [| [raw t] tl IH]; intros g; cbn; [reflexivity |].
  apply IH.
Qed.

Lemma transitions_same s n tl :
  transitions s (repeat s n ++ tl) = transitions s tl.
Proof.
  induction n as [| n IH]; cbn; [reflexivity |].
  rewrite Bool.eqb_reflx. exact IH.
Qed.

Lemma transitions_flat s n : transitions s (repeat s n) = O.
Proof.
  rewrite <- (app_nil_r (repeat s n)). rewrite transitions_same. reflexivity.
Qed.

(** Inside one window nothing is promoted, whatever the raw levels are. *)
Lemma window_keeps_level s t0 polls : forall g,
  0 <= t0 -> t0 + Part001.DEBOUNCE_US < 2 ^ 63 ->
  Part001.debounced_state g = s ->
  Part001.last_button_change g = 0
    \/ t0 <= Part001.last_button_change g <= t0 + Part001.DEBOUNCE_US ->
  within_debounce t0 (map snd polls) ->
  stable_levels g polls = repeat s (length polls)
  /\ Part001.debounced_state (debounce_all g polls) = s
  /\ (Part001.last_button_change (debounce_all g polls) = 0
      \/ t0 <= Part001.last_button_change (debounce_all g polls)
            <= t0 + Part001.DEBOUNCE_US).
Proof.
  induction polls as [| [raw t] tl IH]; intros g H0 Hmax Hs Hl Hw.
  - cbn. auto.
  - pose proof (Forall_inv Hw) as Ht. pose proof (Forall_inv_tail Hw) as Hw'.
    cbn [fst snd] in Ht.
    assert (Et : int64_t t = t).
    { apply int64_small. unfold in_int64, Part001.DEBOUNCE_US in *. lia. }
    cbn [stable_levels debounce_all length repeat]. rewrite Et.
    assert (Hstep : Part001.debounced_state (Part001.debounce raw t g)
                    = Part001.debounced_state g
                    /\ (Part001.last_button_change (Part001.debounce raw t g) = 0
                        \/ t0 <= Part001.last_button_change (Part001.debounce raw t g)
                              <= t0 + Part001.DEBOUNCE_US)).
    { unfold Part001.debounce.
      destruct (negb (Bool.eqb raw (Part001.debounced_state g))).
      - destruct (Z.eqb_spec (Part001.last_button_change g) 0) as [E0 | N0].
        + cbn. split; [reflexivity | right; unfold Part001.DEBOUNCE_US in *; lia].
        + destruct Hl as [Hl | Hl]; [contradiction |].
          rewrite sub64_small by (unfold Part001.DEBOUNCE_US in *; lia).
          destruct (Z.gtb_spec (t - Part001.last_button_change g) Part001.DEBOUNCE_US).
          * unfold Part001.DEBOUNCE_US in *; lia.
          * split; [reflexivity | right; exact Hl].
      - cbn. split; [reflexivity | left; reflexivity]. }
    destruct Hstep as [Hs' Hl'].
    destruct (IH (Part001.debounce raw t g) H0 Hmax (eq_trans Hs' Hs) Hl' Hw')
      as (E1 & E2 & E3).
    rewrite E1, Hs', Hs. auto.
Qed.

(** A poll that reads the stable level clears any pending change. *)
Lemma debounce_same_level g t :
  Part001.debounce (Part001.debounced_state g) t g =
  Part001.set_button g 0 (Part001.debounced_state g).
Proof. unfold Part001.debounce. rewrite Bool.eqb_reflx. reflexivity. Qed.

Lemma stable_levels_settled s g ts :
  Part001.debounced_state g = s ->
  stable_levels g (map (pair s) ts) = repeat s (length ts).
Proof.
  revert g. induction ts as [| t tl IH]; intros g Hs; cbn; [reflexivity |].
  subst s. rewrite debounce_same_level. cbn. rewrite IH by reflexivity.
  reflexivity.
Qed.

(** While the pending change is younger than the interval, polls that keep
    reading the new level change nothing. *)
Lemma pending_holds s t1 mids : forall g,
  0 < t1 -> t1 + Part001.DEBOUNCE_US < 2 ^ 63 ->
  Part001.debounced_state g = s ->
  Part001.last_button_change g = t1 ->
  within_debounce t1 mids ->
  stable_levels g (map (pair (negb s)) mids) = repeat s (length mids)
  /\ debounce_all g (map (pair (negb s)) mids) = g.
Proof.
  induction mids as [| t tl IH]; intros g H1 Hmax Hs Hl Hw.
  - cbn. auto.
  - pose proof (Forall_inv Hw) as Ht. pose proof (Forall_inv_tail Hw) as Hw'.
    cbn beta in Ht.
    assert (Et : int64_t t = t).
    { apply int64_small. unfold in_int64, Part001.DEBOUNCE_US in *. lia. }
    assert (Ed : Part001.debounce (negb s) t g = g).
    { unfold Part001.debounce. rewrite Hs, Hl.
      replace (Bool.eqb (negb s) s) with false by (destruct s; reflexivity).
      cbn [negb].
      destruct (Z.eqb_spec t1 0); [lia |].
      rewrite sub64_small by (unfold Part001.DEBOUNCE_US in *; lia).
      destruct (Z.gtb_spec (t - t1) Part001.DEBOUNCE_US); [lia | reflexivity]. }
    cbn [map stable_levels debounce_all length repeat]. rewrite Et, Ed.
    destruct (IH g H1 Hmax Hs Hl Hw') as [E1 E2].
    rewrite E1, E2, Hs. auto.
Qed.

(** From rest, a level held from [t1] until a poll later than
    [t1 + DEBOUNCE_US] is promoted at that poll, once. *)
Lemma sustained_promotes s g t1 mids tj tail :
  Part001.debounced_state g = s ->
  Part001.last_button_change g = 0 ->
  0 < t1 -> within_debounce t1 mids ->
  t1 + Part001.DEBOUNCE_US < tj < 2 ^ 63 ->
  stable_levels g ((negb s, t1) :: map (pair (negb s)) mids
                   ++ (negb s, tj) :: map (pair (negb s)) tail)
  = repeat s (1 + length mids) ++ repeat (negb s) (1 + length tail).
Proof.
  intros Hs Hl H1 Hw Hj.
  assert (Hmax : t1 + Part001.DEBOUNCE_US < 2 ^ 63) by lia.
  assert (E1 : int64_t t1 = t1).
  { apply int64_small. unfold in_int64, Part001.DEBOUNCE_US in *. lia. }
  assert (Ej : int64_t tj = tj).
  { apply int64_small. unfold in_int64, Part001.DEBOUNCE_US in *. lia. }
  set (g1 := Part001.set_button g t1 s).
  assert (Eg1 : Part001.debounce (negb s) t1 g = g1).
  { unfold Part001.debounce. rewrite Hs, Hl.
    replace (Bool.eqb (negb s) s) with false by (destruct s; reflexivity).
    reflexivity. }
  cbn [stable_levels]. rewrite E1, Eg1.
  destruct (pending_holds s t1 mids g1 H1 Hmax eq_refl eq_refl Hw) as [Em Eg].
  rewrite stable_levels_app, Em, Eg.
  cbn [stable_levels]. rewrite Ej.
  set (g2 := Part001.set_button g1 0 (negb s)).
  assert (Eg2 : Part001.debounce (negb s) tj g1 = g2).
  { unfold Part001.debounce. cbn [g1 Part001.debounced_state Part001.last_button_change
                                    Part001.set_button].
    replace (Bool.eqb (negb s) s) with false by (destruct s; reflexivity).
    cbn [negb].
    destruct (Z.eqb_spec t1 0); [lia |].
    rewrite sub64_small by (unfold Part001.DEBOUNCE_US in *; lia).
    destruct (Z.gtb_spec (tj - t1) Part001.DEBOUNCE_US); [reflexivity | lia]. }
  rewrite Eg2.
  rewrite (stable_levels_settled (negb s) g2 tail eq_refl).
  cbn [g1 g2 Part001.debounced_state Part001.set_button repeat Nat.add app].
  reflexivity.
Qed.

Lemma transitions_once s n m :
  transitions s (repeat s n ++ repeat (negb s) (1 + m)) = 1%nat.
Proof.
  rewrite transitions_same. cbn [Nat.add repeat transitions].
  replace (Bool.eqb s (negb s)) with false by (destruct s; reflexivity).
  rewrite transitions_flat. reflexivity.
Qed.

(** C3 (as the code has it). From rest (the stable level is [s] and nothing
    is pending): (a) polls that all fall inside one debounce interval, with
    any raw levels and any number of bounces, followed by a poll that reads
    the old level again, return [s] every time: no stable transition, and
    nothing stays pending; (b) after any such bouncing, a new raw level read
    at [t1 > 0] and at every poll up to one later than [t1 + DEBOUNCE_US]
    gives exactly one stable transition, at that poll. The comparison is
    strict: a level held for exactly the interval is not promoted. *)
Theorem C3_debounce_law (g : Part001.globals) (s : bool) :
  Part001.debounced_state g = s ->
  Part001.last_button_change g = 0 ->
  (forall t0 polls tend,
     0 <= t0 -> t0 + Part001.DEBOUNCE_US < 2 ^ 63 ->
     within_debounce t0 (map snd polls) ->
     exists r,
       poll_buttons (length (polls ++ [(s, tend)])) g
                    (button_oracle (polls ++ [(s, tend)])) = Some r
       /\ val r = repeat s (length polls + 1)
       /\ transitions s (val r) = O
       /\ Part001.debounced_state (mem r) = s
       /\ Part001.last_button_change (mem r) = 0)
  /\
  (forall t0 bounces tb t1 mids tj tail,
     0 <= t0 -> t0 + Part001.DEBOUNCE_US < 2 ^ 63 ->
     within_debounce t0 (map snd bounces) ->
     0 < t1 -> within_debounce t1 mids ->
     t1 + Part001.DEBOUNCE_US < tj < 2 ^ 63 ->
     let polls := bounces ++ (s, tb) ::
                  (negb s, t1) :: map (pair (negb s)) mids
                  ++ (negb s, tj) :: map (pair (negb s)) tail in
     exists r,
       poll_buttons (length polls) g (button_oracle polls) = Some r
       /\ val r = repeat s (length bounces + 1 + (1 + length mids))
                  ++ repeat (negb s) (1 + length tail)
       /\ transitions s (val r) = 1%nat).
Proof.
  intros Hs Hl.
  assert (Rest : forall t0 polls tend,
     0 <= t0 -> t0 + Part001.DEBOUNCE_US < 2 ^ 63 ->
     within_debounce t0 (map snd polls) ->
     stable_levels g (polls ++ [(s, tend)]) = repeat s (length polls + 1)
     /\ Part001.debounced_state (debounce_all g (polls ++ [(s, tend)])) = s
     /\ Part001.last_button_change (debounce_all g (polls ++ [(s, tend)])) = 0).
  { intros t0 polls tend H0 Hmax Hw.
    destruct (window_keeps_level s t0 polls g H0 Hmax Hs (or_introl Hl) Hw)
      as (E1 & E2 & _).
    rewrite stable_levels_app, debounce_all_app, E1.
    cbn [stable_levels debounce_all].
    pose proof (debounce_same_level (debounce_all g polls) (int64_t tend)) as Ed.
    rewrite E2 in Ed. rewrite Ed.
    cbn [Part001.debounced_state Part001.last_button_change Part001.set_button].
    rewrite repeat_app. cbn [repeat]. auto. }
  split.
  - intros t0 polls tend H0 Hmax Hw.
    destruct (Rest t0 polls tend H0 Hmax Hw) as (E1 & E2 & E3).
    eexists. split; [apply poll_buttons_eq |].
    cbn [val mem]. rewrite E1. repeat split; auto.
    apply transitions_flat.
  - intros t0 bounces tb t1 mids tj tail H0 Hmax Hw H1 Hm Hj polls.
    destruct (Rest t0 bounces tb H0 Hmax Hw) as (E1 & E2 & E3).
    eexists. split; [apply poll_buttons_eq |].
    cbn [val]. unfold polls.
    change (bounces ++ (s, tb) :: ?x) with (bounces ++ [(s, tb)] ++ x).
    rewrite app_assoc, stable_levels_app, E1.
    rewrite (sustained_promotes s _ t1 mids tj tail E2 E3 H1 Hm Hj).
    rewrite app_assoc, <- repeat_app.
    split; [reflexivity |].
    apply transitions_once.
Qed.

(** * C3: examples *)

Lemma C3_witness :
  (exists r,
      poll_buttons 3 Part001.globals0
                   (button_oracle [(true, 1000); (true, 21000); (false, 31000)]) = Some r
      /\ val r = [false; false; false]
      /\ transitions false (val r) = O)
  /\ (exists r,
         poll_buttons 5 Part001.globals0
                      (button_oracle [(false, 500); (true, 1000); (true, 21000);
                                      (true, 41000); (true, 61000)]) = Some r
         /\ val r = [false; false; false; true; true]
         /\ transitions false (val r) = 1%nat).
Proof.
  destruct (C3_debounce_law Part001.globals0 false eq_refl eq_refl) as [A B].
  split.
  - destruct (A 1000 [(true, 1000); (true, 21000)] 31000) as (r & E & V & T & _).
    + lia.
    + reflexivity.
    + repeat constructor; cbn; unfold Part001.DEBOUNCE_US; lia.
    + exists r. auto.
  - destruct (B 0 [] 500 1000 [21000] 41000 [61000]) as (r & E & V & T).
    + lia.
    + reflexivity.
    + constructor.
    + lia.
    + repeat constructor; unfold Part001.DEBOUNCE_US; lia.
    + unfold Part001.DEBOUNCE_US. split; [lia | reflexivity].
    + exists r. auto.
Defined.

(** The claim as first stated promises a stable transition for a level
    held for at least the interval. Here the pressed level is read at
    1.000 ms and again 30 000 us later, exactly the interval, and then the
    released level is read: no poll returns "pressed". *)
Lemma C3_counterexample :
  31000 - 1000 >= Part001.DEBOUNCE_US
  /\ exists r,
       poll_buttons 3 Part001.globals0
                    (button_oracle [(true, 1000); (true, 31000); (false, 31001)]) = Some r
       /\ val r = [false; false; false]
       /\ transitions false (val r) = O
       /\ transitions false (val r) <> 1%nat.
Proof.
  split; [vm_compute; discriminate |].
  eexists. split; [vm_compute; reflexivity |].
  repeat split; try reflexivity. discriminate.
Qed.

(** [main.c] has no debouncer: [button_pressed] is the raw level, so a
    single bounce is two transitions of what the loop sees. *)
Lemma main_c_button_is_raw raws : forall g,
  poll_buttons_raw (length raws) g
                   (set_gpio_in no_input (map level_of raws)) =
  Some (mkRes raws g no_input []).
Proof.
  induction raws as [| raw tl IH]; intros g; [reflexivity |].
  cbn [length poll_buttons_raw map]. apply wpt_exact.
  unfold MainC.button_pressed. fwd. rewrite level_of_raw.
  eapply wpt_known; [apply IH |]. cbn [after val mem rest out]. fwd. fwd_done.
Qed.

Example main_c_bounce_is_seen :
  exists r,
    poll_buttons_raw 3 MainC.globals0 (set_gpio_in no_input [1; 0; 1]) = Some r
    /\ val r = [false; true; false]
    /\ transitions false (val r) = 2%nat.
Proof. eexists. split; [vm_compute; reflexivity |]. split; reflexivity. Qed.

(** * The protocol monitor *)

Lemma observe_all_app m tr1 tr2 :
  observe_all m (tr1 ++ tr2) =
  match observe_all m tr1 with
  | Some m1 => observe_all m1 tr2
  | None => None
  end.
Proof.
  revert m. induction tr1 as [| e tl IH]; intros m; cbn; [reflexivity |].
  destruct (observe m e); [apply IH | reflexivity].
Qed.

Lemma frame_bytes_length pcm : length (frame_bytes pcm) = (2 * length pcm)%nat.
Proof.
  unfold frame_bytes. induction pcm as [| x tl IH]; cbn; [reflexivity |].
  rewrite IH. lia.
Qed.

Lemma frame_is_not_marker pcm :
  length pcm = 256%nat -> is_marker (frame_bytes pcm) = false.
Proof.
  intros H. unfold is_marker.
  destruct (list_eq_dec Z.eq_dec (frame_bytes pcm) END_MARKER) as [E | _];
    [| reflexivity].
  apply (f_equal (@length Z)) in E. rewrite frame_bytes_length, H in E.
  discriminate E.
Qed.

(** * Specifications of the helpers of [part_001] *)

Lemma debounce_keeps raw now g :
  Part001.pcm_frame (Part001.debounce raw now g) = Part001.pcm_frame g
  /\ Part001.resolved_ip (Part001.debounce raw now g) = Part001.resolved_ip g
  /\ Part001.i2s_raw (Part001.debounce raw now g) = Part001.i2s_raw g.
Proof.
  unfold Part001.debounce.
  destruct (negb _); [destruct (_ =? 0); [| destruct (_ >? _)] |]; cbn; auto.
Qed.

Lemma button_pressed_wp ip g o :
  ginv ip g ->
  wp Part001.button_pressed (fun r => ginv ip (mem r) /\ out r = []) g o.
Proof.
  intros [Hf Hi]. unfold Part001.button_pressed. wp_run.
  destruct (debounce_keeps (v =? 0) (int64_t t) g) as (E1 & E2 & _).
  unfold ginv. rewrite E1, E2. auto.
Qed.

Lemma flash_loop_wp {S} fuel start : forall (s : S) o,
  wp (Part001.flash_loop fuel start) (fun r => mem r = s /\ out r = []) s o.
Proof.
  induction fuel as [| n IH]; intros s o; [exact I |].
  cbn [Part001.flash_loop]. wp_run; [| auto].
  eapply wp_mono; [apply IH |]. cbn. intros r [E1 E2]. rewrite E2. auto.
Qed.

Lemma led_flash_red_wp {S} (s : S) o :
  wp Part001.led_flash_red (fun r => mem r = s /\ out r = red_flash) s o.
Proof.
  unfold Part001.led_flash_red, Part001.led_solid_red, led_off. wp_run.
  eapply wp_mono; [apply (flash_loop_wp n (int64_t t) s) |].
  cbn beta. intros r [E1 E2]. rewrite E1. wp_run. cbn. rewrite E2. auto.
Qed.

Lemma read_i2s_pcm_wp ip g o :
  ginv ip g ->
  wp Part001.read_i2s_pcm
     (fun r => ginv ip (mem r)
               /\ out r = if val r then []
                          else [EvLog LOG_W "i2s_channel_read error: %s"]) g o.
Proof.
  intros [Hf Hi]. unfold Part001.read_i2s_pcm. apply wp_with_fuel. intros n.
  eapply wp_mono.
  - apply (read_loop_sound n 0 g o). unfold PCM_FRAME_LEN. lia.
  - cbn beta. intros r (reads & _ & _ & Hm & _ & Hv). unfold ginv.
    rewrite Hm at 2. cbn [Part001.resolved_ip Part001.set_pcm_frame Part001.set_i2s_raw].
    destruct (val r).
    + destruct Hv as (_ & _ & _ & Hl & Ho). auto.
    + destruct Hv as (Hp & _ & Ho). rewrite Hp. auto.
Qed.

Lemma wait_release_wp ip fuel : forall g o,
  ginv ip g ->
  wp (Part001.wait_release fuel) (fun r => ginv ip (mem r) /\ out r = []) g o.
Proof.
  induction fuel as [| n IH]; intros g o Hg; [exact I |].
  cbn [Part001.wait_release]. apply wp_bind.
  eapply wp_mono; [apply (button_pressed_wp ip); exact Hg |].
  cbn beta. intros r1 [Hg1 Ho1]. destruct (val r1).
  - wp_run. eapply wp_mono; [apply IH; exact Hg1 |].
    cbn. intros r [Hg2 Ho2]. rewrite Ho1, Ho2. auto.
  - wp_run. cbn. rewrite Ho1. auto.
Qed.

Lemma marker_is_marker : is_marker END_MARKER = true.
Proof. reflexivity. Qed.

Lemma tcp_connect_wp g o :
  wp Part001.tcp_connect
     (fun r => mem r = g /\ connect_outcome (Part001.resolved_ip g) (val r) (out r)) g o.
Proof.
  unfold Part001.tcp_connect. wp_run; cbn; (split; [reflexivity |]);
    (split; [repeat constructor |]).
  - left. split; [reflexivity |]. intros m Hm.
    cbn [observe_all observe app]. rewrite Hm, Heqb. reflexivity.
  - right. left. split; [reflexivity |]. intros m Hm.
    cbn [observe_all observe app]. rewrite Hm, Heqb. cbn.
    rewrite Z.eqb_refl. apply negb_true_iff in Heqb0. rewrite Heqb0. cbn.
    rewrite Z.eqb_refl. reflexivity.
  - right. right. split; [apply Z.ltb_ge; exact Heqb |].
    intros m Hm. cbn [observe_all observe app]. rewrite Hm, Heqb. cbn.
    rewrite Z.eqb_refl. apply negb_false_iff in Heqb0. rewrite Heqb0. reflexivity.
Qed.

(** * One iteration of the loop keeps the protocol *)

Ltac norm_vals :=
  repeat match goal with
  | H : negb _ = true |- _ => apply negb_true_iff in H
  | H : negb _ = false |- _ => apply negb_false_iff in H
  end;
  repeat match goal with
  | E : val ?r = _, H : out ?r = _ |- _ => rewrite E in H
  end;
  repeat match goal with
  | H : out _ = _ |- _ => rewrite H; clear H
  end;
  cbn [app].

Ltac eval_monitor :=
  repeat (cbn [observe_all observe link_of set_link close_link sockets_made opened closed];
          rewrite ?Z.eqb_refl, ?marker_is_marker;
          try (rewrite frame_is_not_marker
                 by (match goal with
                     | H : ginv _ ?g |- _ = 256%nat => exact (proj1 H)
                     | H : ginv_c ?g |- _ = 256%nat => exact H
                     end))).

Ltac close_step :=
  unfold step_ok;
  cbn [Part001.state Part001.sock Part001.set_state Part001.set_sock
       Part001.to_idle Part001.enter_wait Part001.set_process_start
       Part001.set_blink
       MainC.state MainC.sock MainC.set_state MainC.set_sock
       MainC.to_idle MainC.enter_wait MainC.set_blink
       link_of sockets_made opened closed set_link close_link];
  repeat match goal with
  | E : Part001.state _ = _ |- _ => rewrite E
  | E : MainC.state _ = _ |- _ => rewrite E
  end;
  cbn [agrees may_follow state_eqb andb];
  repeat split; intros; try congruence; try lia; auto.

Ltac all_use_ip :=
  rewrite ?Forall_app; repeat split; try assumption; repeat constructor.

Ltac leaf :=
  norm_vals;
  (split; [assumption |]);
  (split; [all_use_ip |]);
  eexists; split; [eval_monitor; reflexivity | close_step].

Ltac p1_step ip :=
  lazymatch goal with
  | |- wp Part001.button_pressed _ _ _ =>
      eapply wp_mono; [apply (button_pressed_wp ip); assumption | cbn beta; intros ? [? ?]]
  | |- wp Part001.read_i2s_pcm _ _ _ =>
      eapply wp_mono; [apply (read_i2s_pcm_wp ip); assumption | cbn beta; intros ? [? ?]]
  | |- wp Part001.led_flash_red _ _ _ =>
      let E := fresh "E" in
      eapply wp_mono; [apply led_flash_red_wp | cbn beta; intros ? [E ?]; rewrite E; clear E]
  | |- wp (Part001.wait_release _) _ _ _ =>
      eapply wp_mono; [apply (wait_release_wp ip); assumption | cbn beta; intros ? [? ?]]
  | |- wp Part001.tcp_connect _ _ _ =>
      let E := fresh "E" in
      eapply wp_mono; [apply tcp_connect_wp | cbn beta; intros ? [E ?]; rewrite E; clear E]
  | |- wp led_off _ _ _ => unfold led_off
  | |- wp led_solid_blue _ _ _ => unfold led_solid_blue
  | |- wp led_solid_green _ _ _ => unfold led_solid_green
  | _ => wp_step
  end.

Lemma tick_ok ip l g o m :
  agrees (Part001.state l) (Part001.sock l) (link_of m) ->
  ginv ip g ->
  wp (Part001.tick l) (tick_post ip l m) g o.
Proof.
  intros Hag Hg. unfold Part001.tick, tick_post.
  destruct m as [k ns no nc]. cbn [link_of] in Hag.
  destruct (Part001.state l) eqn:Hst; cbn [agrees] in Hag; destruct Hag as [Hk Hs];
    subst k.
  - repeat p1_step ip.
    all: cbn [after val mem rest out app]; norm_vals.
    + assert (Eip : Part001.resolved_ip (mem r) = ip) by apply H.
      rewrite Eip in H1. destruct H1 as [Hu [[Ev Hc] | [[Ev Hc] | [Ev Hc]]]];
        [| | apply Z.ltb_lt in Heqb0; lia].
      * split; [assumption |]. split; [all_use_ip |].
        rewrite observe_all_app, (Hc (mkMonitor Closed ns no nc) eq_refl).
        eexists; split; [eval_monitor; reflexivity |].
        rewrite Ev. close_step.
      * split; [assumption |]. split; [all_use_ip |].
        rewrite observe_all_app, (Hc (mkMonitor Closed ns no nc) eq_refl).
        eexists; split; [eval_monitor; reflexivity |].
        rewrite Ev. close_step.
    + assert (Eip : Part001.resolved_ip (mem r) = ip) by apply H.
      rewrite Eip in H1. destruct H1 as [Hu [[Ev Hc] | [[Ev Hc] | [Ev Hc]]]];
        [rewrite Ev in Heqb0; discriminate | rewrite Ev in Heqb0; discriminate |].
      split; [assumption |]. split; [all_use_ip |].
      rewrite observe_all_app, (Hc (mkMonitor Closed ns no nc) eq_refl).
      eexists; split; [eval_monitor; reflexivity |].
      close_step.
    + leaf.
  - repeat p1_step ip.
    all: cbn [after val mem rest out app].
    all: leaf.
  - repeat p1_step ip.
    all: cbn [after val mem rest out app].
    all: leaf.
  - repeat p1_step ip.
    all: cbn [after val mem rest out app].
    all: leaf.
Qed.

(** ** The same for [main.c] *)

Lemma button_pressed_c_wp g o :
  wp MainC.button_pressed (fun r => mem r = g /\ out r = []) g o.
Proof. unfold MainC.button_pressed. wp_run. auto. Qed.

Lemma read_i2s_pcm_c_wp g o :
  ginv_c g ->
  wp MainC.read_i2s_pcm (fun r => ginv_c (mem r) /\ out r = []) g o.
Proof.
  intros Hg. unfold MainC.read_i2s_pcm. apply wp_with_fuel. intros n.
  eapply wp_mono.
  - apply (read_loop_unchecked_sound n 0 g o). unfold PCM_FRAME_LEN. lia.
  - cbn beta. intros r (reads & _ & _ & _ & _ & _ & _ & Hl & Ho). unfold ginv_c. auto.
Qed.

Lemma wait_release_c_wp fuel : forall g o,
  wp (MainC.wait_release fuel) (fun r => mem r = g /\ out r = []) g o.
Proof.
  induction fuel as [| n IH]; intros g o; [exact I |].
  cbn [MainC.wait_release]. apply wp_bind.
  eapply wp_mono; [apply button_pressed_c_wp |].
  cbn beta. intros r1 [Hg1 Ho1]. rewrite Hg1. destruct (val r1).
  - wp_run. eapply wp_mono; [apply IH |].
    cbn. intros r [Hg2 Ho2]. rewrite Ho1, Ho2. auto.
  - wp_run. cbn. rewrite Ho1. auto.
Qed.

Lemma tcp_connect_c_wp ip g o :
  wp (MainC.tcp_connect ip)
     (fun r => mem r = g /\ connect_outcome ip (val r) (out r)) g o.
Proof.
  unfold MainC.tcp_connect. wp_run; cbn; (split; [reflexivity |]);
    (split; [repeat constructor |]).
  - left. split; [reflexivity |]. intros m Hm.
    cbn [observe_all observe app]. rewrite Hm, Heqb. reflexivity.
  - right. left. split; [reflexivity |]. intros m Hm.
    cbn [observe_all observe app]. rewrite Hm, Heqb. cbn.
    rewrite Z.eqb_refl. apply negb_true_iff in Heqb0. rewrite Heqb0. cbn.
    rewrite Z.eqb_refl. reflexivity.
  - right. right. split; [apply Z.ltb_ge; exact Heqb |].
    intros m Hm. cbn [observe_all observe app]. rewrite Hm, Heqb. cbn.
    rewrite Z.eqb_refl. apply negb_false_iff in Heqb0. rewrite Heqb0. reflexivity.
Qed.

Ltac c_step :=
  lazymatch goal with
  | |- wp MainC.button_pressed _ _ _ =>
      let E := fresh "E" in
      eapply wp_mono; [apply button_pressed_c_wp | cbn beta; intros ? [E ?]; rewrite E; clear E]
  | |- wp MainC.read_i2s_pcm _ _ _ =>
      eapply wp_mono; [apply read_i2s_pcm_c_wp; assumption | cbn beta; intros ? [? ?]]
  | |- wp (MainC.wait_release _) _ _ _ =>
      let E := fresh "E" in
      eapply wp_mono; [apply wait_release_c_wp | cbn beta; intros ? [E ?]; rewrite E; clear E]
  | |- wp (MainC.tcp_connect _) _ _ _ =>
      let E := fresh "E" in
      eapply wp_mono; [apply tcp_connect_c_wp | cbn beta; intros ? [E ?]; rewrite E; clear E]
  | |- wp led_off _ _ _ => unfold led_off
  | |- wp led_solid_blue _ _ _ => unfold led_solid_blue
  | |- wp led_solid_green _ _ _ => unfold led_solid_green
  | _ => wp_step
  end.

Lemma tick_ok_c ip l g o m :
  agrees (MainC.state l) (MainC.sock l) (link_of m) ->
  ginv_c g ->
  wp (MainC.tick ip l) (tick_post_c ip l m) g o.
Proof.
  intros Hag Hg. unfold MainC.tick, tick_post_c.
  destruct m as [k ns no nc]. cbn [link_of] in Hag.
  destruct (MainC.state l) eqn:Hst; cbn [agrees] in Hag; destruct Hag as [Hk Hs];
    subst k.
  - repeat c_step.
    all: cbn [after val mem rest out app]; norm_vals.
    + destruct H0 as [Hu [[Ev Hc] | [[Ev Hc] | [Ev Hc]]]];
        [| | apply Z.ltb_lt in Heqb0; lia].
      * split; [assumption |]. split; [all_use_ip |].
        rewrite observe_all_app, (Hc (mkMonitor Closed ns no nc) eq_refl).
        eexists; split; [eval_monitor; reflexivity |].
        rewrite Ev. close_step.
      * split; [assumption |]. split; [all_use_ip |].
        rewrite observe_all_app, (Hc (mkMonitor Closed ns no nc) eq_refl).
        eexists; split; [eval_monitor; reflexivity |].
        rewrite Ev. close_step.
    + destruct H0 as [Hu [[Ev Hc] | [[Ev Hc] | [Ev Hc]]]];
        [rewrite Ev in Heqb0; discriminate | rewrite Ev in Heqb0; discriminate |].
      split; [assumption |]. split; [all_use_ip |].
      rewrite observe_all_app, (Hc (mkMonitor Closed ns no nc) eq_refl).
      eexists; split; [eval_monitor; reflexivity |].
      close_step.
    + leaf.
  - repeat c_step.
    all: cbn [after val mem rest out app].
    all: leaf.
  - repeat c_step.
    all: cbn [after val mem rest out app].
    all: leaf.
  - repeat c_step.
    all: cbn [after val mem rest out app].
    all: leaf.
Qed.

(** * Runs of the loop *)

Lemma run_ok ip n : forall l g o m,
  agrees (Part001.state l) (Part001.sock l) (link_of m) ->
  ginv ip g ->
  wp (Part001.run n l) (run_post ip m) g o.
Proof.
  induction n as [| n IH]; intros l g o m Hag Hg; cbn [Part001.run].
  - apply wp_ret. unfold run_post. cbn. repeat split; try apply Hg; [constructor |].
    exists m. auto.
  - apply wp_bind. eapply wp_mono; [apply (tick_ok ip l g o m Hag Hg) |].
    cbn beta. intros r1 (Hg1 & Hu1 & m1 & Ho1 & Hstep).
    eapply wp_mono; [apply (IH (val r1) (mem r1) (rest r1) m1 (proj1 Hstep) Hg1) |].
    cbn beta. intros r2 (Hg2 & Hu2 & m2 & Ho2 & Hag2).
    unfold run_post, after. cbn [val mem rest out].
    split; [exact Hg2 |]. split; [apply Forall_app; auto |].
    exists m2. rewrite observe_all_app, Ho1. auto.
Qed.

Lemma run_ok_c ip n : forall l g o m,
  agrees (MainC.state l) (MainC.sock l) (link_of m) ->
  ginv_c g ->
  wp (MainC.run ip n l) (run_post_c ip m) g o.
Proof.
  induction n as [| n IH]; intros l g o m Hag Hg; cbn [MainC.run].
  - apply wp_ret. unfold run_post_c. cbn. repeat split; try apply Hg; [constructor |].
    exists m. auto.
  - apply wp_bind. eapply wp_mono; [apply (tick_ok_c ip l g o m Hag Hg) |].
    cbn beta. intros r1 (Hg1 & Hu1 & m1 & Ho1 & Hstep).
    eapply wp_mono; [apply (IH (val r1) (mem r1) (rest r1) m1 (proj1 Hstep) Hg1) |].
    cbn beta. intros r2 (Hg2 & Hu2 & m2 & Ho2 & Hag2).
    unfold run_post_c, after. cbn [val mem rest out].
    split; [exact Hg2 |]. split; [apply Forall_app; auto |].
    exists m2. rewrite observe_all_app, Ho1. auto.
Qed.

Lemma agrees_walk st sk k :
  agrees st sk k -> (st <> STATE_IDLE -> 0 <= sk) /\ (st = STATE_IDLE -> sk = -1).
Proof.
  destruct st; cbn; intros [H1 H2]; split; intros; try congruence; auto.
Qed.

Lemma visited_ok ip n : forall l g o m,
  agrees (Part001.state l) (Part001.sock l) (link_of m) ->
  ginv ip g ->
  wp (visited n l) (visited_post (Part001.state l) (Part001.sock l) m) g o.
Proof.
  induction n as [| n IH]; intros l g o m Hag Hg; cbn [visited].
  - apply wp_ret. unfold visited_post. cbn. split; [exact I |].
    exists m. split; [reflexivity | lia].
  - apply wp_bind. eapply wp_mono; [apply (tick_ok ip l g o m Hag Hg) |].
    cbn beta. intros r1 (Hg1 & Hu1 & m1 & Ho1 & Hstep).
    apply wp_bind.
    eapply wp_mono; [apply (IH (val r1) (mem r1) (rest r1) m1 (proj1 Hstep) Hg1) |].
    cbn beta. intros r2 (Hw2 & m2 & Ho2 & Hc2).
    apply wp_ret. unfold visited_post, after. cbn [val mem rest out map fst snd walk connections].
    destruct Hstep as (Ha & Hf & Hop & _ & _ & _ & Hsk).
    destruct (agrees_walk _ _ _ Ha) as [Hp Hi].
    split; [repeat split; auto |].
    exists m2. rewrite app_nil_r, observe_all_app, Ho1. split; [exact Ho2 |].
    rewrite Hc2, Hop.
    destruct (state_eqb (Part001.state l) STATE_IDLE
              && state_eqb (Part001.state (val r1)) STATE_RECORDING); lia.
Qed.

Lemma visited_ok_c ip n : forall l g o m,
  agrees (MainC.state l) (MainC.sock l) (link_of m) ->
  ginv_c g ->
  wp (visited_c ip n l) (visited_post (MainC.state l) (MainC.sock l) m) g o.
Proof.
  induction n as [| n IH]; intros l g o m Hag Hg; cbn [visited_c].
  - apply wp_ret. unfold visited_post. cbn. split; [exact I |].
    exists m. split; [reflexivity | lia].
  - apply wp_bind. eapply wp_mono; [apply (tick_ok_c ip l g o m Hag Hg) |].
    cbn beta. intros r1 (Hg1 & Hu1 & m1 & Ho1 & Hstep).
    apply wp_bind.
    eapply wp_mono; [apply (IH (val r1) (mem r1) (rest r1) m1 (proj1 Hstep) Hg1) |].
    cbn beta. intros r2 (Hw2 & m2 & Ho2 & Hc2).
    apply wp_ret. unfold visited_post, after. cbn [val mem rest out map fst snd walk connections].
    destruct Hstep as (Ha & Hf & Hop & _ & _ & _ & Hsk).
    destruct (agrees_walk _ _ _ Ha) as [Hp Hi].
    split; [repeat split; auto |].
    exists m2. rewrite app_nil_r, observe_all_app, Ho1. split; [exact Ho2 |].
    rewrite Hc2, Hop.
    destruct (state_eqb (MainC.state l) STATE_IDLE
              && state_eqb (MainC.state (val r1)) STATE_RECORDING); lia.
Qed.

(** The counters of the monitor count events. *)
Lemma observe_counts tr : forall m m',
  observe_all m tr = Some m' ->
  opened m' = (opened m + count is_open tr)%nat
  /\ closed m' = (closed m + count is_close tr)%nat
  /\ sockets_made m' = (sockets_made m + count is_socket tr)%nat.
Proof.
  unfold count.
  induction tr as [| e tl IH]; intros m m' H; cbn in H.
  - injection H as <-. cbn. lia.
  - destruct (observe m e) as [m1 |] eqn:E; [| discriminate].
    destruct (IH m1 m' H) as (H1 & H2 & H3). rewrite H1, H2, H3. clear IH H H1 H2 H3.
    destruct e; cbn in E |- *;
      try (injection E as <-; cbn; lia);
      destruct (link_of m); try discriminate;
      try (destruct (fd =? fd0); [| discriminate]);
      injection E as <-.
    + destruct (fd <? 0); cbn; lia.
    + destruct (rc =? 0); cbn; lia.
    + destruct (is_marker buf); cbn; lia.
    + cbn; lia.
    + cbn; lia.
    + cbn; lia.
    + cbn; lia.
    + cbn; lia.
Qed.

(** * Start-up *)

Lemma quiet_observe evs : forall m, Forall is_quiet evs -> observe_all m evs = Some m.
Proof.
  induction evs as [| e tl IH]; intros m H; [reflexivity |].
  pose proof (Forall_inv H) as He. cbn.
  destruct e; try contradiction; cbn; apply IH; exact (Forall_inv_tail H).
Qed.

Lemma quiet_uses_ip ip evs : Forall is_quiet evs -> Forall (uses_ip ip) evs.
Proof.
  intros H. eapply Forall_impl; [| exact H].
  intros e He. destruct e; try contradiction; exact I.
Qed.

Lemma resolve_loop_wp ipstr fuel : forall attempt g o,
  length (Part001.pcm_frame g) = 256%nat ->
  wp (Part001.resolve_loop ipstr fuel attempt)
     (fun r => length (Part001.pcm_frame (mem r)) = 256%nat
               /\ Forall is_quiet (out r)
               /\ (val r = false -> Part001.resolved_ip (mem r) = Part001.resolved_ip g)) g o.
Proof.
  induction fuel as [| n IH]; intros attempt g o Hg; [exact I |].
  cbn [Part001.resolve_loop]. wp_run.
  - cbn. split; [exact Hg |]. split; [repeat constructor | discriminate].
  - eapply wp_mono; [apply IH; exact Hg |].
    cbn. intros r (H1 & H2 & H3). split; [exact H1 |].
    split; [repeat constructor; exact H2 | exact H3].
  - cbn. split; [exact Hg |]. split; [constructor | reflexivity].
Qed.

Lemma discard_frames_wp ip k : forall g o,
  ginv ip g ->
  wp (Part001.discard_frames k) (fun r => ginv ip (mem r) /\ Forall is_quiet (out r)) g o.
Proof.
  induction k as [| k IH]; intros g o Hg; cbn [Part001.discard_frames].
  - apply wp_ret. cbn. split; [exact Hg | constructor].
  - apply wp_bind. eapply wp_mono; [apply (read_i2s_pcm_wp ip _ _ Hg) |].
    cbn beta. intros r1 [Hg1 Ho1].
    eapply wp_mono; [apply (IH _ _ Hg1) |].
    cbn. intros r2 [Hg2 Ho2]. split; [exact Hg2 |].
    apply Forall_app. split; [| exact Ho2].
    rewrite Ho1. destruct (val r1); repeat constructor.
Qed.

Lemma resolve_server_wp SERVER_IP ipstr g o :
  length (Part001.pcm_frame g) = 256%nat ->
  wp (Part001.resolve_server SERVER_IP ipstr)
     (fun r => length (Part001.pcm_frame (mem r)) = 256%nat
               /\ Forall is_quiet (out r)) g o.
Proof.
  intros Hg. unfold Part001.resolve_server, Part001.resolve_mdns_hostname.
  wp_run.
  all: try (cbn in Heqb0; discriminate Heqb0).
  - cbn. split; [exact Hg | repeat constructor].
  - eapply wp_mono; [apply (resolve_loop_wp ipstr); exact Hg |].
    cbn beta. intros r (H1 & H2 & H3).
    destruct (negb (val r)) eqn:Hv; wp_run; cbn.
    + split; [exact H1 |]. apply Forall_app. split; [exact H2 | repeat constructor].
    + split; [exact H1 |]. apply Forall_app. split; [exact H2 | constructor].
Qed.

Lemma startup_ok SERVER_IP ipstr g o :
  length (Part001.pcm_frame g) = 256%nat ->
  wp (Part001.startup SERVER_IP ipstr)
     (fun r => val r = Part001.locals0
               /\ ginv (Part001.resolved_ip (mem r)) (mem r)
               /\ Forall is_quiet (out r)) g o.
Proof.
  intros Hg. unfold Part001.startup, led_off.
  wp_run.
  eapply wp_mono; [apply (resolve_server_wp SERVER_IP ipstr); exact Hg |].
  cbn beta. intros r [H1 H2]. apply wp_bind.
  eapply wp_mono; [apply (discard_frames_wp (Part001.resolved_ip (mem r)));
                   split; [exact H1 | reflexivity] |].
  cbn beta. intros r2 [[H4 H5] H6]. wp_run. cbn.
  split; [reflexivity |]. split; [split; [exact H4 | reflexivity] |].
  repeat constructor. apply Forall_app. split; [exact H2 |].
  apply Forall_app. split; [exact H6 | repeat constructor].
Qed.

Lemma app_main_ok SERVER_IP ipstr n o :
  wp (Part001.app_main SERVER_IP ipstr n)
     (fun r => exists ip, run_post ip monitor0 r) Part001.globals0 o.
Proof.
  unfold Part001.app_main. apply wp_bind.
  eapply wp_mono; [apply startup_ok; reflexivity |].
  cbn beta. intros r1 (Hv & Hg & Hq). rewrite Hv.
  eapply wp_mono;
    [apply (run_ok (Part001.resolved_ip (mem r1)) n Part001.locals0 _ _ monitor0);
     [cbn; auto | exact Hg] |].
  cbn beta. intros r2 (Hg2 & Hu2 & m2 & Ho2 & Hag2).
  exists (Part001.resolved_ip (mem r1)). unfold run_post, after. cbn [val mem rest out].
  split; [exact Hg2 |].
  split; [apply Forall_app; split; [apply quiet_uses_ip; exact Hq | exact Hu2] |].
  exists m2. rewrite observe_all_app, (quiet_observe _ _ Hq). auto.
Qed.

Lemma discard_frames_c_wp k : forall g o,
  ginv_c g ->
  wp (MainC.discard_frames k) (fun r => ginv_c (mem r) /\ out r = []) g o.
Proof.
  induction k as [| k IH]; intros g o Hg; cbn [MainC.discard_frames].
  - apply wp_ret. cbn. auto.
  - apply wp_bind. eapply wp_mono; [apply (read_i2s_pcm_c_wp _ _ Hg) |].
    cbn beta. intros r1 [Hg1 Ho1].
    eapply wp_mono; [apply (IH _ _ Hg1) |].
    cbn. intros r2 [Hg2 Ho2]. rewrite Ho1, Ho2. auto.
Qed.

Lemma app_main_ok_c SERVER_IP n o :
  wp (MainC.app_main SERVER_IP n) (run_post_c SERVER_IP monitor0) MainC.globals0 o.
Proof.
  unfold MainC.app_main, MainC.startup, led_off. wp_run.
  eapply wp_mono; [apply discard_frames_c_wp; reflexivity |].
  cbn beta. intros r1 [Hg1 Ho1]. wp_run.
  eapply wp_mono; [apply (run_ok_c SERVER_IP n MainC.locals0 _ _ monitor0);
                   [cbn; auto | exact Hg1] |].
  cbn beta. intros r2 (Hg2 & Hu2 & m2 & Ho2 & Hag2).
  unfold run_post_c. cbn [after val mem rest out]. rewrite Ho1. cbn [app].
  split; [exact Hg2 |].
  split; [repeat constructor; exact Hu2 |].
  exists m2. cbn. auto.
Qed.

(** * What accepted traces look like *)

Lemma count_app f (a b : list event) : count f (a ++ b) = (count f a + count f b)%nat.
Proof. unfold count. rewrite filter_app, length_app. reflexivity. Qed.

Lemma observe_all_snoc m tr e m' :
  observe_all m (tr ++ [e]) = Some m' ->
  exists m1, observe_all m tr = Some m1 /\ observe m1 e = Some m'.
Proof.
  rewrite observe_all_app. destruct (observe_all m tr) as [m1 |]; [| discriminate].
  cbn. destruct (observe m1 e) as [m2 |] eqn:E; [| discriminate].
  intros H. injection H as <-. eauto.
Qed.

Lemma in_session_snoc tr fd k e :
  in_session tr fd k -> is_close e = false ->
  in_session (tr ++ [e]) fd (k + (if is_marker_send e then 1 else 0)).
Proof.
  intros (p1 & ip & port & p2 & E & Hc & Hm) He.
  exists p1, ip, port, (p2 ++ [e]). rewrite E, <- app_assoc. split; [reflexivity |].
  rewrite !count_app, Hc, Hm. unfold count. cbn. rewrite He.
  destruct (is_marker_send e); cbn; split; lia.
Qed.

(** An open link means the trace ends inside a session without marker, a
    marked link inside a session with exactly one. *)
Lemma session_shape tr : forall m,
  observe_all monitor0 tr = Some m ->
  match link_of m with
  | Open fd => in_session tr fd 0
  | Marked fd => in_session tr fd 1
  | _ => True
  end.
Proof.
  induction tr as [| e tr IH] using rev_ind; intros m H.
  - injection H as <-. exact I.
  - destruct (observe_all_snoc _ _ _ _ H) as (m1 & H1 & He).
    specialize (IH m1 H1).
    assert (Keep : is_close e = false -> is_marker_send e = false ->
                   match link_of m1 with
                   | Open fd => in_session (tr ++ [e]) fd 0
                   | Marked fd => in_session (tr ++ [e]) fd 1
                   | _ => True
                   end).
    { intros Hc Hm. destruct (link_of m1); auto.
      - pose proof (in_session_snoc _ _ _ e IH Hc) as Hs. rewrite Hm in Hs. exact Hs.
      - pose proof (in_session_snoc _ _ _ e IH Hc) as Hs. rewrite Hm in Hs. exact Hs. }
    destruct e; cbn in He.
    + injection He as <-. apply Keep; reflexivity.
    + injection He as <-. apply Keep; reflexivity.
    + destruct (link_of m1) eqn:El; try discriminate. injection He as <-.
      destruct (fd <? 0); cbn; rewrite ?El; exact I.
    + destruct (link_of m1) as [| fd' | |] eqn:El; try discriminate.
      destruct (Z.eqb_spec fd fd'); [| discriminate]. subst fd'.
      injection He as <-.
      destruct (Z.eqb_spec rc 0) as [-> | Hrc]; cbn.
      * exists tr, ip, port, []. repeat split.
      * rewrite El. exact I.
    + destruct (link_of m1) as [| | fd' |] eqn:El; try discriminate.
      destruct (Z.eqb_spec fd fd'); [| discriminate]. subst fd'.
      injection He as <-.
      pose proof (in_session_snoc _ _ _ (EvSend fd buf rc) IH eq_refl) as Hs.
      cbn [is_marker_send] in Hs.
      destruct (is_marker buf); cbn [link_of set_link]; [exact Hs |].
      rewrite El. exact Hs.
    + destruct (link_of m1) as [| | | fd'] eqn:El; try discriminate.
      destruct (Z.eqb_spec fd fd'); [| discriminate]. subst fd'.
      injection He as <-. rewrite El.
      apply (in_session_snoc _ _ _ (EvSelect fd rc) IH eq_refl).
    + destruct (link_of m1) as [| | | fd'] eqn:El; try discriminate.
      destruct (Z.eqb_spec fd fd'); [| discriminate]. subst fd'.
      injection He as <-. rewrite El.
      apply (in_session_snoc _ _ _ (EvRecv fd n) IH eq_refl).
    + destruct (link_of m1); try discriminate;
        (destruct (fd =? fd0); [| discriminate]); injection He as <-; exact I.
Qed.

(** A send is accepted only inside a session that has had no marker. *)
Lemma send_needs_open_session tr m pre fd buf rc post :
  observe_all monitor0 tr = Some m ->
  tr = pre ++ EvSend fd buf rc :: post ->
  in_session pre fd 0.
Proof.
  intros H E. subst tr. rewrite observe_all_app in H.
  destruct (observe_all monitor0 pre) as [m1 |] eqn:H1; [| discriminate].
  pose proof (session_shape pre m1 H1) as Hs.
  cbn in H. destruct (link_of m1) as [| | fd' |]; try discriminate.
  destruct (Z.eqb_spec fd fd'); [| discriminate]. subst fd'. exact Hs.
Qed.

(** With no socket, and no new one made, the link stays closed. *)
Lemma stays_closed mid : forall m m',
  link_of m = Closed ->
  count is_socket mid = O ->
  observe_all m mid = Some m' ->
  link_of m' = Closed.
Proof.
  unfold count.
  induction mid as [| e tl IH]; intros m m' Hk Hc H; cbn in H.
  - injection H as <-. exact Hk.
  - destruct (observe m e) as [m1 |] eqn:E; [| discriminate].
    destruct e; cbn in E, Hc; try (rewrite Hk in E; discriminate).
    + injection E as <-. apply (IH m m'); auto.
    + injection E as <-. apply (IH m m'); auto.
    + rewrite Hk in E. injection E as <-.
      destruct (fd <? 0); cbn in Hc; [| discriminate].
      apply (IH m m'); auto.
Qed.

(** Two closes are never accepted without a new socket in between. *)
Lemma closes_need_sockets tr m pre fd mid fd' post :
  observe_all monitor0 tr = Some m ->
  tr = pre ++ EvClose fd :: mid ++ EvClose fd' :: post ->
  (1 <= count is_socket mid)%nat.
Proof.
  intros H E. subst tr. rewrite observe_all_app in H.
  destruct (observe_all monitor0 pre) as [m1 |]; [| discriminate].
  cbn [observe_all] in H.
  destruct (observe m1 (EvClose fd)) as [m2 |] eqn:E2; [| discriminate].
  assert (Hk : link_of m2 = Closed).
  { cbn in E2. destruct (link_of m1); try discriminate;
      (destruct (fd =? fd0); [| discriminate]); injection E2 as <-; reflexivity. }
  rewrite observe_all_app in H.
  destruct (observe_all m2 mid) as [m3 |] eqn:E3; [| discriminate].
  destruct (count is_socket mid) eqn:Hc; [| lia].
  pose proof (stays_closed mid m2 m3 Hk Hc E3) as Hk3.
  cbn in H. rewrite Hk3 in H. discriminate.
Qed.

(** * C10: the socket variable and the state *)

Lemma agrees_sentinel st sk k :
  agrees st sk k -> (sk = -1 <-> st = STATE_IDLE).
Proof.
  destruct st; cbn; intros [H1 H2]; split; intros; try congruence; try lia.
Qed.

Lemma agrees_connected st sk k :
  agrees st sk k -> st <> STATE_IDLE ->
  0 <= sk /\ (k = Open sk \/ k = Marked sk).
Proof.
  destruct st; cbn; intros [H1 H2] Hn; try congruence; auto.
Qed.

(** What a step does with [close], from the step contract. *)
Lemma closing_step st sk m st' sk' m' evs :
  observe_all m evs = Some m' ->
  step_ok st sk m st' sk' m' ->
  (count is_close evs <= 1)%nat
  /\ (count is_close evs = 1%nat -> st' = STATE_IDLE /\ sk' = -1)
  /\ (st <> STATE_IDLE -> st' = STATE_IDLE -> count is_close evs = 1%nat).
Proof.
  intros Ho (Ha & _ & _ & _ & Hc & Hc' & _).
  destruct (observe_counts _ _ _ Ho) as (_ & Hn & _).
  split; [destruct Hc as [Hc | [Hc _]]; lia |].
  split.
  - intros H1. destruct Hc as [Hc | [Hc Hi]]; [lia |].
    split; [exact Hi |]. subst st'. cbn in Ha. apply Ha.
  - intros Hs Hi. specialize (Hc' Hs). rewrite Hi in Hc'. cbn in Hc'. lia.
Qed.

(** C10. After start-up and any number of iterations of the loop: [sock] is
    [-1] exactly when the state is IDLE; out of IDLE, [sock] is a valid
    descriptor of a connection that is up (connected and not closed); the
    trace so far is accepted by the protocol monitor, so any two [close]
    calls have a new [socket] between them. The next iteration calls
    [close] at most once, and if it does it ends in IDLE with [sock = -1];
    it cannot reach IDLE from another state without that one [close].
    Both revisions. *)
Theorem C10_sock_is_sentinel_iff_idle :
  (forall SERVER_IP ipstr n o r,
     Part001.app_main SERVER_IP ipstr n Part001.globals0 o = Some r ->
     (Part001.sock (val r) = -1 <-> Part001.state (val r) = STATE_IDLE)
     /\ (Part001.state (val r) <> STATE_IDLE -> 0 <= Part001.sock (val r))
     /\ (exists m, observe_all monitor0 (out r) = Some m
                   /\ agrees (Part001.state (val r)) (Part001.sock (val r)) (link_of m))
     /\ (forall pre fd mid fd' post,
            out r = pre ++ EvClose fd :: mid ++ EvClose fd' :: post ->
            (1 <= count is_socket mid)%nat)
     /\ (forall o' r',
            Part001.tick (val r) (mem r) o' = Some r' ->
            (count is_close (out r') <= 1)%nat
            /\ (count is_close (out r') = 1%nat ->
                Part001.state (val r') = STATE_IDLE /\ Part001.sock (val r') = -1)
            /\ (Part001.state (val r) <> STATE_IDLE ->
                Part001.state (val r') = STATE_IDLE ->
                count is_close (out r') = 1%nat)))
  /\
  (forall SERVER_IP n o r,
     MainC.app_main SERVER_IP n MainC.globals0 o = Some r ->
     (MainC.sock (val r) = -1 <-> MainC.state (val r) = STATE_IDLE)
     /\ (MainC.state (val r) <> STATE_IDLE -> 0 <= MainC.sock (val r))
     /\ (exists m, observe_all monitor0 (out r) = Some m
                   /\ agrees (MainC.state (val r)) (MainC.sock (val r)) (link_of m))
     /\ (forall pre fd mid fd' post,
            out r = pre ++ EvClose fd :: mid ++ EvClose fd' :: post ->
            (1 <= count is_socket mid)%nat)
     /\ (forall o' r',
            MainC.tick SERVER_IP (val r) (mem r) o' = Some r' ->
            (count is_close (out r') <= 1)%nat
            /\ (count is_close (out r') = 1%nat ->
                MainC.state (val r') = STATE_IDLE /\ MainC.sock (val r') = -1)
            /\ (MainC.state (val r) <> STATE_IDLE ->
                MainC.state (val r') = STATE_IDLE ->
                count is_close (out r') = 1%nat))).
Proof.
  split.
  - intros SERVER_IP ipstr n o r E.
    pose proof (wp_elim _ _ _ _ _ (app_main_ok SERVER_IP ipstr n o) E)
      as (ip & Hg & Hu & m & Ho & Hag).
    split; [apply (agrees_sentinel _ _ _ Hag) |].
    split; [intros Hn; apply (agrees_connected _ _ _ Hag Hn) |].
    split; [eauto |].
    split; [intros pre fd mid fd' post Et; apply (closes_need_sockets _ _ _ _ _ _ _ Ho Et) |].
    intros o' r' E'.
    pose proof (wp_elim _ _ _ _ _ (tick_ok ip _ _ o' m Hag Hg) E')
      as (_ & _ & m' & Ho' & Hstep).
    apply (closing_step _ _ _ _ _ _ _ Ho' Hstep).
  - intros SERVER_IP n o r E.
    pose proof (wp_elim _ _ _ _ _ (app_main_ok_c SERVER_IP n o) E)
      as (Hg & Hu & m & Ho & Hag).
    split; [apply (agrees_sentinel _ _ _ Hag) |].
    split; [intros Hn; apply (agrees_connected _ _ _ Hag Hn) |].
    split; [eauto |].
    split; [intros pre fd mid fd' post Et; apply (closes_need_sockets _ _ _ _ _ _ _ Ho Et) |].
    intros o' r' E'.
    pose proof (wp_elim _ _ _ _ _ (tick_ok_c SERVER_IP _ _ o' m Hag Hg) E')
      as (_ & _ & m' & Ho' & Hstep).
    apply (closing_step _ _ _ _ _ _ _ Ho' Hstep).
Qed.

Lemma C10_witness :
  let r := the (mkRes Part001.locals0 Part001.globals0 no_input [])
               (Part001.app_main demo_server_ip demo_ipstr 6 Part001.globals0
                                 (with_startup resume_scenario)) in
  Part001.state (val r) = STATE_RECORDING
  /\ Part001.sock (val r) = 3
  /\ (Part001.sock (val r) = -1 <-> Part001.state (val r) = STATE_IDLE).
Proof.
  intros r.
  split; [vm_compute; reflexivity |].
  split; [vm_compute; reflexivity |].
  refine (proj1 (proj1 C10_sock_is_sentinel_iff_idle demo_server_ip demo_ipstr 6%nat
                   (with_startup resume_scenario) r _)).
  vm_compute. reflexivity.
Defined.

(** * C6: order of frames and end marker on the wire *)

Lemma abort_all_app p a b :
  abort_all p (a ++ b) =
  match abort_all p a with Some p' => abort_all p' b | None => None end.
Proof.
  revert p. induction a as [| e a IH]; intros p; cbn; [reflexivity |].
  destruct (abort_step p e); [apply IH | reflexivity].
Qed.

Lemma quiet_abort evs : forall p, Forall is_quiet evs -> abort_all p evs = Some p.
Proof.
  induction evs as [| e tl IH]; intros p H; [reflexivity |].
  pose proof (Forall_inv H) as He. cbn.
  destruct e; try contradiction; destruct p; cbn; apply IH; exact (Forall_inv_tail H).
Qed.

(** A pending close is the next thing that happens. *)
Lemma failed_until_close fd post : forall p,
  abort_all (Failed fd) post = Some p -> p = Clear ->
  closed_at_once fd post.
Proof.
  induction post as [| e tl IH]; intros p H Hp; cbn in H.
  - injection H as <-. discriminate Hp.
  - destruct e as [lv msg | pin lv | | | | | | fd0]; try discriminate H.
    + destruct (IH p H Hp) as (logs & post' & -> & Hq).
      exists (EvLog lv msg :: logs), post'. split; [reflexivity |].
      constructor; [exact I | exact Hq].
    + destruct (IH p H Hp) as (logs & post' & -> & Hq).
      exists (EvGpioSet pin lv :: logs), post'. split; [reflexivity |].
      constructor; [exact I | exact Hq].
    + destruct (Z.eqb_spec fd0 fd) as [-> |]; [| discriminate H].
      exists [], tl. split; [reflexivity | constructor].
Qed.

Lemma failed_send_is_closed tr pre fd buf rc post :
  abort_all Clear tr = Some Clear ->
  tr = pre ++ EvSend fd buf rc :: post ->
  is_marker buf = false -> rc < 0 ->
  closed_at_once fd post.
Proof.
  intros H E Hm Hrc. subst tr. rewrite abort_all_app in H.
  destruct (abort_all Clear pre) as [p1 |]; [| discriminate].
  cbn [abort_all] in H.
  assert (Hf : is_failed_frame_send (EvSend fd buf rc) = true).
  { cbn. rewrite Hm. cbn. apply Z.ltb_lt. exact Hrc. }
  destruct p1 as [| fd1]; [| discriminate H].
  cbn [abort_step] in H. rewrite Hf in H.
  apply (failed_until_close fd post Clear H eq_refl).
Qed.

(** ** Every iteration closes the socket on which a frame send failed *)

Lemma tcp_connect_sends_nothing g o :
  wp Part001.tcp_connect
     (fun r => mem r = g /\ abort_all Clear (out r) = Some Clear) g o.
Proof. unfold Part001.tcp_connect. wp_run; cbn; auto. Qed.

Lemma tcp_connect_c_sends_nothing ip g o :
  wp (MainC.tcp_connect ip)
     (fun r => mem r = g /\ abort_all Clear (out r) = Some Clear) g o.
Proof. unfold MainC.tcp_connect. wp_run; cbn; auto. Qed.

Ltac a_step ip :=
  lazymatch goal with
  | |- wp Part001.tcp_connect _ _ _ =>
      let E := fresh "E" in
      eapply wp_mono; [apply tcp_connect_sends_nothing
                      | cbn beta; intros ? [E ?]; rewrite E; clear E]
  | |- wp (MainC.tcp_connect _) _ _ _ =>
      let E := fresh "E" in
      eapply wp_mono; [apply tcp_connect_c_sends_nothing
                      | cbn beta; intros ? [E ?]; rewrite E; clear E]
  | |- wp (MainC.tick _ _) _ _ _ => fail
  | |- wp MainC.button_pressed _ _ _ => c_step
  | |- wp MainC.read_i2s_pcm _ _ _ => c_step
  | |- wp (MainC.wait_release _) _ _ _ => c_step
  | _ => p1_step ip
  end.

Ltac eval_abort :=
  rewrite ?abort_all_app;
  repeat match goal with
  | H : abort_all Clear (out _) = Some Clear |- _ => rewrite H; clear H
  end;
  repeat (cbn [abort_all abort_step is_failed_frame_send app negb andb];
          rewrite ?Z.eqb_refl, ?marker_is_marker;
          try (rewrite frame_is_not_marker
                 by (match goal with
                     | H : ginv _ ?g |- _ = 256%nat => exact (proj1 H)
                     | H : ginv_c ?g |- _ = 256%nat => exact H
                     end));
          repeat match goal with
          | H : (_ <? 0) = _ |- _ => rewrite H
          end).

Ltac abort_leaf :=
  norm_vals; (split; [assumption |]); eval_abort; reflexivity.

Lemma tick_aborts ip l g o :
  ginv ip g ->
  wp (Part001.tick l)
     (fun r => ginv ip (mem r) /\ abort_all Clear (out r) = Some Clear) g o.
Proof.
  intros Hg. unfold Part001.tick.
  destruct (Part001.state l) eqn:Hst.
  - repeat a_step ip.
    all: cbn [after val mem rest out app].
    all: abort_leaf.
  - repeat a_step ip.
    all: cbn [after val mem rest out app].
    all: abort_leaf.
  - repeat a_step ip.
    all: cbn [after val mem rest out app].
    all: abort_leaf.
  - repeat a_step ip.
    all: cbn [after val mem rest out app].
    all: abort_leaf.
Qed.

Lemma tick_aborts_c ip l g o :
  ginv_c g ->
  wp (MainC.tick ip l)
     (fun r => ginv_c (mem r) /\ abort_all Clear (out r) = Some Clear) g o.
Proof.
  intros Hg. unfold MainC.tick.
  destruct (MainC.state l) eqn:Hst.
  - repeat a_step ip.
    all: cbn [after val mem rest out app].
    all: abort_leaf.
  - repeat a_step ip.
    all: cbn [after val mem rest out app].
    all: abort_leaf.
  - repeat a_step ip.
    all: cbn [after val mem rest out app].
    all: abort_leaf.
  - repeat a_step ip.
    all: cbn [after val mem rest out app].
    all: abort_leaf.
Qed.

Lemma run_aborts ip n : forall l g o,
  ginv ip g ->
  wp (Part001.run n l)
     (fun r => ginv ip (mem r) /\ abort_all Clear (out r) = Some Clear) g o.
Proof.
  induction n as [| n IH]; intros l g o Hg; cbn [Part001.run].
  - apply wp_ret. cbn. auto.
  - apply wp_bind. eapply wp_mono; [apply (tick_aborts ip l g o Hg) |].
    cbn beta. intros r1 [Hg1 Ha1].
    eapply wp_mono; [apply (IH (val r1) (mem r1) (rest r1) Hg1) |].
    cbn beta. intros r2 [Hg2 Ha2]. unfold after. cbn [val mem rest out].
    split; [exact Hg2 |]. rewrite abort_all_app, Ha1. exact Ha2.
Qed.

Lemma run_aborts_c ip n : forall l g o,
  ginv_c g ->
  wp (MainC.run ip n l)
     (fun r => ginv_c (mem r) /\ abort_all Clear (out r) = Some Clear) g o.
Proof.
  induction n as [| n IH]; intros l g o Hg; cbn [MainC.run].
  - apply wp_ret. cbn. auto.
  - apply wp_bind. eapply wp_mono; [apply (tick_aborts_c ip l g o Hg) |].
    cbn beta. intros r1 [Hg1 Ha1].
    eapply wp_mono; [apply (IH (val r1) (mem r1) (rest r1) Hg1) |].
    cbn beta. intros r2 [Hg2 Ha2]. unfold after. cbn [val mem rest out].
    split; [exact Hg2 |]. rewrite abort_all_app, Ha1. exact Ha2.
Qed.

Lemma app_main_aborts SERVER_IP ipstr n o :
  wp (Part001.app_main SERVER_IP ipstr n)
     (fun r => abort_all Clear (out r) = Some Clear) Part001.globals0 o.
Proof.
  unfold Part001.app_main. apply wp_bind.
  eapply wp_mono; [apply startup_ok; reflexivity |].
  cbn beta. intros r1 (Hv & Hg & Hq).
  eapply wp_mono; [apply (run_aborts _ n (val r1) _ _ Hg) |].
  cbn beta. intros r2 [_ Ha]. unfold after. cbn [val mem rest out].
  rewrite abort_all_app, (quiet_abort _ _ Hq). exact Ha.
Qed.

Lemma app_main_aborts_c SERVER_IP n o :
  wp (MainC.app_main SERVER_IP n)
     (fun r => abort_all Clear (out r) = Some Clear) MainC.globals0 o.
Proof.
  unfold MainC.app_main, MainC.startup, led_off. wp_run.
  eapply wp_mono; [apply discard_frames_c_wp; reflexivity |].
  cbn beta. intros r1 [Hg1 Ho1]. wp_run.
  eapply wp_mono; [apply (run_aborts_c SERVER_IP n MainC.locals0 _ _ Hg1) |].
  cbn beta. intros r2 [_ Ha]. cbn [after val mem rest out]. rewrite Ho1.
  cbn [app abort_all abort_step]. exact Ha.
Qed.

(** C6 (as the code has it). In every trace the firmware can produce, each
    [send] (audio frame or end marker) comes after a successful [connect]
    on the same descriptor with no [close] and no end marker in between:
    nothing is sent before a Session is open, nothing after its end marker,
    and the marker goes out at most once per Session, after its last frame.
    When the machine is in PROCESSING the current Session has had exactly
    one end marker; in RECORDING and WAIT it has had none. A Session that is
    aborted by a failed frame send gets no end marker at all: none went out
    before the failed [send], and after it the next call on the socket is
    its [close], with only log lines and LED writes in between. Both
    revisions. *)
Theorem C6_sends_stay_inside_the_session :
  (forall SERVER_IP ipstr n o r,
     Part001.app_main SERVER_IP ipstr n Part001.globals0 o = Some r ->
     (forall pre fd buf rc post,
         out r = pre ++ EvSend fd buf rc :: post -> in_session pre fd 0)
     /\ (Part001.state (val r) = STATE_PROCESSING ->
         in_session (out r) (Part001.sock (val r)) 1)
     /\ (Part001.state (val r) = STATE_RECORDING \/ Part001.state (val r) = STATE_WAIT ->
         in_session (out r) (Part001.sock (val r)) 0)
     /\ (forall pre fd buf rc post,
            out r = pre ++ EvSend fd buf rc :: post ->
            is_marker buf = false -> rc < 0 ->
            in_session pre fd 0 /\ closed_at_once fd post))
  /\
  (forall SERVER_IP n o r,
     MainC.app_main SERVER_IP n MainC.globals0 o = Some r ->
     (forall pre fd buf rc post,
         out r = pre ++ EvSend fd buf rc :: post -> in_session pre fd 0)
     /\ (MainC.state (val r) = STATE_PROCESSING ->
         in_session (out r) (MainC.sock (val r)) 1)
     /\ (MainC.state (val r) = STATE_RECORDING \/ MainC.state (val r) = STATE_WAIT ->
         in_session (out r) (MainC.sock (val r)) 0)
     /\ (forall pre fd buf rc post,
            out r = pre ++ EvSend fd buf rc :: post ->
            is_marker buf = false -> rc < 0 ->
            in_session pre fd 0 /\ closed_at_once fd post)).
Proof.
  split.
  - intros SERVER_IP ipstr n o r E.
    pose proof (wp_elim _ _ _ _ _ (app_main_ok SERVER_IP ipstr n o) E)
      as (ip & Hg & Hu & m & Ho & Hag).
    pose proof (wp_elim _ _ _ _ _ (app_main_aborts SERVER_IP ipstr n o) E) as Ha.
    pose proof (session_shape _ _ Ho) as Hs.
    split; [intros pre fd buf rc post Et;
            apply (send_needs_open_session _ _ _ _ _ _ _ Ho Et) |].
    split; [| split].
    + intros Hp. rewrite Hp in Hag. cbn in Hag. destruct Hag as [Hk _].
      rewrite Hk in Hs. exact Hs.
    + intros [Hp | Hp]; rewrite Hp in Hag; cbn in Hag; destruct Hag as [Hk _];
        rewrite Hk in Hs; exact Hs.
    + intros pre fd buf rc post Et Hm Hrc.
      split; [apply (send_needs_open_session _ _ _ _ _ _ _ Ho Et) |].
      apply (failed_send_is_closed _ _ _ _ _ _ Ha Et Hm Hrc).
  - intros SERVER_IP n o r E.
    pose proof (wp_elim _ _ _ _ _ (app_main_ok_c SERVER_IP n o) E)
      as (Hg & Hu & m & Ho & Hag).
    pose proof (wp_elim _ _ _ _ _ (app_main_aborts_c SERVER_IP n o) E) as Ha.
    pose proof (session_shape _ _ Ho) as Hs.
    split; [intros pre fd buf rc post Et;
            apply (send_needs_open_session _ _ _ _ _ _ _ Ho Et) |].
    split; [| split].
    + intros Hp. rewrite Hp in Hag. cbn in Hag. destruct Hag as [Hk _].
      rewrite Hk in Hs. exact Hs.
    + intros [Hp | Hp]; rewrite Hp in Hag; cbn in Hag; destruct Hag as [Hk _];
        rewrite Hk in Hs; exact Hs.
    + intros pre fd buf rc post Et Hm Hrc.
      split; [apply (send_needs_open_session _ _ _ _ _ _ _ Ho Et) |].
      apply (failed_send_is_closed _ _ _ _ _ _ Ha Et Hm Hrc).
Qed.

(** Two runs of [part_001]: the resume scenario ends in RECORDING with three
    frames sent and no marker; in the aborted session the failed [send] is
    the fifteenth event, no marker precedes it and the [close] follows. *)
Lemma C6_witness :
  let r := the (mkRes Part001.locals0 Part001.globals0 no_input [])
               (Part001.app_main demo_server_ip demo_ipstr 6 Part001.globals0
                                 (with_startup resume_scenario)) in
  let a := the (mkRes Part001.locals0 Part001.globals0 no_input [])
               (Part001.app_main demo_server_ip demo_ipstr 3 Part001.globals0
                                 (with_startup aborted_session)) in
  (Part001.state (val r) = STATE_RECORDING
   /\ count is_frame_send (out r) = 3%nat
   /\ in_session (out r) (Part001.sock (val r)) 0)
  /\ (count is_marker_send (out a) = O
      /\ in_session (firstn 14 (out a)) 3 0
      /\ closed_at_once 3 (skipn 15 (out a))).
Proof.
  intros r a. split.
  - assert (Hst : Part001.state (val r) = STATE_RECORDING) by (vm_compute; reflexivity).
    split; [exact Hst |].
    split; [vm_compute; reflexivity |].
    refine (proj1 (proj2 (proj2 (proj1 C6_sends_stay_inside_the_session demo_server_ip
                                   demo_ipstr 6%nat (with_startup resume_scenario) r _)))
                  (or_introl Hst)).
    vm_compute. reflexivity.
  - split; [vm_compute; reflexivity |].
    refine (proj2 (proj2 (proj2 (proj1 C6_sends_stay_inside_the_session demo_server_ip
                                   demo_ipstr 3%nat (with_startup aborted_session) a _)))
                  (firstn 14 (out a)) 3 (frame_bytes (Part001.pcm_frame (mem a))) (-1)
                  (skipn 15 (out a)) _ _ _).
    + vm_compute. reflexivity.
    + vm_compute. reflexivity.
    + vm_compute. reflexivity.
    + lia.
Defined.

(** The claim as first stated asks for exactly one end marker on every
    Session. This run opens one Session and closes it, back in IDLE, and no
    end marker was ever sent. *)
Lemma C6_counterexample :
  let r := the (mkRes Part001.locals0 Part001.globals0 no_input [])
               (Part001.app_main demo_server_ip demo_ipstr 3 Part001.globals0
                                 (with_startup aborted_session)) in
  Part001.app_main demo_server_ip demo_ipstr 3 Part001.globals0
                   (with_startup aborted_session) = Some r
  /\ Part001.state (val r) = STATE_IDLE
  /\ count is_open (out r) = 1%nat
  /\ count is_close (out r) = 1%nat
  /\ count is_frame_send (out r) = 1%nat
  /\ count is_marker_send (out r) = O
  /\ count is_marker_send (out r) <> count is_open (out r).
Proof.
  vm_compute. repeat split; try reflexivity. discriminate.
Qed.

(** * C5: resuming from WAIT opens no connection *)

(** While a connection is up and nothing is closed, the monitor accepts no
    call of [socket] or [connect]. *)
Lemma no_connect_while_up tr : forall m m',
  observe_all m tr = Some m' ->
  (exists fd, link_of m = Open fd \/ link_of m = Marked fd) ->
  closed m' = closed m ->
  count is_connect_call tr = O.
Proof.
  unfold count.
  induction tr as [| e tl IH]; intros m m' H Hup Hc; [reflexivity |].
  cbn in H. destruct (observe m e) as [m1 |] eqn:E; [| discriminate].
  pose proof (observe_counts tl m1 m' H) as (_ & Hc1 & _).
  destruct Hup as [fd0 Hup].
  destruct e; cbn in E |- *.
  - injection E as <-. apply (IH m m' H); eauto.
  - injection E as <-. apply (IH m m' H); eauto.
  - destruct Hup as [Hup | Hup]; rewrite Hup in E; discriminate.
  - destruct Hup as [Hup | Hup]; rewrite Hup in E; discriminate.
  - destruct Hup as [Hup | Hup]; rewrite Hup in E; [| discriminate].
    destruct (fd =? fd0); [| discriminate]. injection E as <-.
    destruct (is_marker buf).
    + apply (IH _ m' H); [cbn; eauto | exact Hc].
    + apply (IH _ m' H); [eauto | exact Hc].
  - destruct Hup as [Hup | Hup]; rewrite Hup in E; [discriminate |].
    destruct (fd =? fd0); [| discriminate]. injection E as <-.
    apply (IH m m' H); eauto.
  - destruct Hup as [Hup | Hup]; rewrite Hup in E; [discriminate |].
    destruct (fd =? fd0); [| discriminate]. injection E as <-.
    apply (IH m m' H); eauto.
  - assert (closed m1 = S (closed m)).
    { destruct Hup as [Hup | Hup]; rewrite Hup in E;
        (destruct (fd =? fd0); [| discriminate]); injection E as <-; reflexivity. }
    lia.
Qed.

Lemma connections_out_of_idle prev sts :
  prev <> STATE_IDLE ->
  Forall (fun s => s <> STATE_IDLE) sts ->
  connections prev sts = O.
Proof.
  revert prev. induction sts as [| s tl IH]; intros prev Hp Hall; cbn; [reflexivity |].
  rewrite (IH s (Forall_inv Hall) (Forall_inv_tail Hall)).
  destruct prev; try congruence; reflexivity.
Qed.

Lemma session_keeps_socket v tl :
  fst v <> STATE_IDLE ->
  Forall (fun w => fst w <> STATE_IDLE) tl ->
  walk v tl ->
  Forall (fun w => snd w = snd v) tl.
Proof.
  revert v. induction tl as [| w tl IH]; intros v Hv Hall Hw; [constructor |].
  cbn in Hw. destruct Hw as (_ & Hs & _ & _ & Hw).
  pose proof (Forall_inv Hall) as Hwn. cbn beta in Hwn.
  constructor; [auto |].
  rewrite <- (Hs Hv Hwn). apply IH; [exact Hwn | apply (Forall_inv_tail Hall) | exact Hw].
Qed.

Lemma one_connection sk idles session :
  Forall (fun v => fst v = STATE_IDLE) idles ->
  session <> [] ->
  Forall (fun v => fst v <> STATE_IDLE) session ->
  walk (STATE_IDLE, sk) (idles ++ session) ->
  connections STATE_IDLE (map fst (idles ++ session)) = 1%nat
  /\ exists s, 0 <= s /\ Forall (fun v => snd v = s) session
               /\ exists tl, session = (STATE_RECORDING, s) :: tl.
Proof.
  revert sk. induction idles as [| i idles IH]; intros sk Hi Hne Hs Hw.
  - destruct session as [| [st s] tl]; [congruence |]. cbn [app] in *.
    cbn in Hw. destruct Hw as (Hf & _ & Hpos & _ & Hw).
    pose proof (Forall_inv Hs) as Hst. cbn in Hst.
    assert (st = STATE_RECORDING) by (destruct st; try contradiction; congruence).
    subst st. cbn [map fst connections state_eqb andb].
    rewrite connections_out_of_idle;
      [| discriminate
       | apply Forall_map; exact (Forall_inv_tail Hs)].
    split; [reflexivity |].
    exists s. split; [apply Hpos; discriminate |].
    split; [| exists tl; reflexivity].
    constructor; [reflexivity |].
    apply (session_keeps_socket (STATE_RECORDING, s) tl);
      [discriminate | exact (Forall_inv_tail Hs) | exact Hw].
  - pose proof (Forall_inv Hi) as Hi0. cbn beta in Hi0.
    destruct i as [st s]. cbn in Hi0. subst st.
    cbn in Hw. destruct Hw as (_ & _ & _ & _ & Hw).
    destruct (IH s (Forall_inv_tail Hi) Hne Hs Hw) as [Hc Hrest].
    split; [| exact Hrest].
    cbn [app map fst connections state_eqb andb]. exact Hc.
Qed.

Lemma resume_step_part001 ip l g o r :
  Part001.state l = STATE_WAIT -> 0 <= Part001.sock l -> ginv ip g ->
  Part001.tick l g o = Some r ->
  Part001.state (val r) = STATE_RECORDING ->
  Part001.sock (val r) = Part001.sock l
  /\ count is_connect_call (out r) = O.
Proof.
  intros Hst Hs Hg E Hr.
  assert (Hag : agrees (Part001.state l) (Part001.sock l)
                       (link_of (mkMonitor (Open (Part001.sock l)) 0 0 0))).
  { rewrite Hst. cbn. auto. }
  pose proof (wp_elim _ _ _ _ _ (tick_ok ip l g o _ Hag Hg) E)
    as (_ & _ & m' & Ho & Hstep).
  destruct Hstep as (_ & _ & _ & _ & _ & Hcl & Hsk).
  rewrite Hst, Hr in *.
  split; [apply Hsk; discriminate |].
  apply (no_connect_while_up _ _ _ Ho); [cbn; eauto |].
  apply Hcl. discriminate.
Qed.

Lemma resume_step_main_c ip l g o r :
  MainC.state l = STATE_WAIT -> 0 <= MainC.sock l -> ginv_c g ->
  MainC.tick ip l g o = Some r ->
  MainC.state (val r) = STATE_RECORDING ->
  MainC.sock (val r) = MainC.sock l
  /\ count is_connect_call (out r) = O.
Proof.
  intros Hst Hs Hg E Hr.
  assert (Hag : agrees (MainC.state l) (MainC.sock l)
                       (link_of (mkMonitor (Open (MainC.sock l)) 0 0 0))).
  { rewrite Hst. cbn. auto. }
  pose proof (wp_elim _ _ _ _ _ (tick_ok_c ip l g o _ Hag Hg) E)
    as (_ & _ & m' & Ho & Hstep).
  destruct Hstep as (_ & _ & _ & _ & _ & Hcl & Hsk).
  rewrite Hst, Hr in *.
  split; [apply Hsk; discriminate |].
  apply (no_connect_while_up _ _ _ Ho); [cbn; eauto |].
  apply Hcl. discriminate.
Qed.

(** C5. Take any run of the loop that starts in IDLE, stays in IDLE for some
    iterations and then stays out of IDLE (press, RECORDING, release, WAIT,
    press again, RECORDING, ...): exactly one [connect] succeeded over the
    whole run, the session starts in RECORDING and [sock] is the same
    descriptor after every iteration of it. The iteration that goes from
    WAIT back to RECORDING keeps [sock] and calls neither [socket] nor
    [connect]. Both revisions. *)
Theorem C5_resume_reuses_the_session :
  (forall ip n l g o r idles session,
     Part001.state l = STATE_IDLE -> Part001.sock l = -1 -> ginv ip g ->
     visited n l g o = Some r ->
     val r = idles ++ session ->
     Forall (fun v => fst v = STATE_IDLE) idles ->
     session <> [] ->
     Forall (fun v => fst v <> STATE_IDLE) session ->
     count is_open (out r) = 1%nat
     /\ exists s, 0 <= s /\ Forall (fun v => snd v = s) session
                  /\ exists tl, session = (STATE_RECORDING, s) :: tl)
  /\ (forall ip l g o r,
        Part001.state l = STATE_WAIT -> 0 <= Part001.sock l -> ginv ip g ->
        Part001.tick l g o = Some r ->
        Part001.state (val r) = STATE_RECORDING ->
        Part001.sock (val r) = Part001.sock l
        /\ count is_connect_call (out r) = O)
  /\ (forall ip n l g o r idles session,
        MainC.state l = STATE_IDLE -> MainC.sock l = -1 -> ginv_c g ->
        visited_c ip n l g o = Some r ->
        val r = idles ++ session ->
        Forall (fun v => fst v = STATE_IDLE) idles ->
        session <> [] ->
        Forall (fun v => fst v <> STATE_IDLE) session ->
        count is_open (out r) = 1%nat
        /\ exists s, 0 <= s /\ Forall (fun v => snd v = s) session
                     /\ exists tl, session = (STATE_RECORDING, s) :: tl)
  /\ (forall ip l g o r,
        MainC.state l = STATE_WAIT -> 0 <= MainC.sock l -> ginv_c g ->
        MainC.tick ip l g o = Some r ->
        MainC.state (val r) = STATE_RECORDING ->
        MainC.sock (val r) = MainC.sock l
        /\ count is_connect_call (out r) = O).
Proof.
  split; [| split; [exact resume_step_part001 | split; [| exact resume_step_main_c]]].
  - intros ip n l g o r idles session Hst Hsk Hg E Hv Hi Hne Hs.
    assert (Hag : agrees (Part001.state l) (Part001.sock l) (link_of monitor0)).
    { rewrite Hst. cbn. auto. }
    pose proof (wp_elim _ _ _ _ _ (visited_ok ip n l g o _ Hag Hg) E)
      as (Hw & m' & Ho & Hc).
    rewrite Hst, Hv in *.
    destruct (one_connection _ idles session Hi Hne Hs Hw) as [H1 H2].
    split; [| exact H2].
    destruct (observe_counts _ _ _ Ho) as (Hop & _ & _).
    rewrite Hc, H1 in Hop. cbn in Hop. lia.
  - intros ip n l g o r idles session Hst Hsk Hg E Hv Hi Hne Hs.
    assert (Hag : agrees (MainC.state l) (MainC.sock l) (link_of monitor0)).
    { rewrite Hst. cbn. auto. }
    pose proof (wp_elim _ _ _ _ _ (visited_ok_c ip n l g o _ Hag Hg) E)
      as (Hw & m' & Ho & Hc).
    rewrite Hst, Hv in *.
    destruct (one_connection _ idles session Hi Hne Hs Hw) as [H1 H2].
    split; [| exact H2].
    destruct (observe_counts _ _ _ Ho) as (Hop & _ & _).
    rewrite Hc, H1 in Hop. cbn in Hop. lia.
Qed.

Lemma C5_witness :
  let r := the (mkRes [] Part001.globals0 no_input [])
               (visited 6 Part001.locals0 Part001.globals0 resume_scenario) in
  val r = [(STATE_IDLE, -1)]
          ++ [(STATE_RECORDING, 3); (STATE_RECORDING, 3); (STATE_WAIT, 3);
              (STATE_WAIT, 3); (STATE_RECORDING, 3)]
  /\ count is_open (out r) = 1%nat.
Proof.
  intros r.
  assert (Hv : val r = [(STATE_IDLE, -1)]
          ++ [(STATE_RECORDING, 3); (STATE_RECORDING, 3); (STATE_WAIT, 3);
              (STATE_WAIT, 3); (STATE_RECORDING, 3)]) by (vm_compute; reflexivity).
  split; [exact Hv |].
  refine (proj1 (proj1 C5_resume_reuses_the_session EmptyString 6%nat
                   Part001.locals0 Part001.globals0 resume_scenario r
                   _ _ eq_refl eq_refl _ _ Hv _ _ _)).
  - split; reflexivity.
  - vm_compute. reflexivity.
  - repeat constructor.
  - discriminate.
  - repeat constructor; discriminate.
Defined.

(** * C7: address resolution *)

Lemma failed_attempts_snoc k :
  EvLog LOG_I "Resolving %s.local (attempt %d/%d)..."
  :: EvLog LOG_W "mDNS query failed: %s, retrying..." :: failed_attempts k
  = failed_attempts (S k).
Proof. reflexivity. Qed.

Lemma resolve_loop_found ipstr fails : forall fuel attempt g o addr tl,
  mdns_queries o = fails ++ (ESP_OK, addr) :: tl ->
  Forall query_failed fails ->
  0 <= attempt ->
  attempt + Z.of_nat (length fails) < Part001.MDNS_RESOLVE_RETRIES ->
  (length fails < fuel)%nat ->
  Part001.resolve_loop ipstr fuel attempt g o =
  Some (mkRes true (Part001.set_resolved_ip g (Part001.fit64 (ipstr addr)))
              (set_mdns_queries o tl)
              (failed_attempts (length fails) ++ successful_attempt)).
Proof.
  unfold Part001.MDNS_RESOLVE_RETRIES.
  induction fails as [| [err a] fails IH]; intros fuel attempt g o addr tl Hq Hf Ha Hlt Hfuel;
    (destruct fuel as [| n]; [cbn in Hfuel; lia |]); cbn [Part001.resolve_loop];
    unfold Part001.MDNS_RESOLVE_RETRIES; cbn [length] in Hlt.
  - destruct (Z.ltb_spec attempt 5); [| lia].
    apply wpt_exact. fwd. rewrite Z.eqb_refl. fwd. fwd_done.
  - destruct (Z.ltb_spec attempt 5); [| lia].
    pose proof (Forall_inv Hf) as He. unfold query_failed in He. cbn [fst] in He.
    apply wpt_exact. fwd.
    destruct (Z.eqb_spec err ESP_OK); [contradiction |]. fwd.
    rewrite int32_small by (unfold in_int32; lia).
    eapply wpt_known.
    + apply (IH n (attempt + 1) g (set_mdns_queries o (fails ++ (ESP_OK, addr) :: tl))
                addr tl eq_refl (Forall_inv_tail Hf)); [lia | lia | cbn in Hfuel; lia].
    + unfold after. cbn [val mem rest out app length failed_attempts]. reflexivity.
Qed.

Lemma resolve_loop_exhausted ipstr fails : forall fuel attempt g o tl,
  mdns_queries o = fails ++ tl ->
  Forall query_failed fails ->
  0 <= attempt ->
  attempt + Z.of_nat (length fails) = Part001.MDNS_RESOLVE_RETRIES ->
  (length fails < fuel)%nat ->
  Part001.resolve_loop ipstr fuel attempt g o =
  Some (mkRes false g (set_mdns_queries o tl) (failed_attempts (length fails))).
Proof.
  unfold Part001.MDNS_RESOLVE_RETRIES.
  induction fails as [| [err a] fails IH]; intros fuel attempt g o tl Hq Hf Ha Hlt Hfuel;
    (destruct fuel as [| n]; [cbn in Hfuel; lia |]); cbn [Part001.resolve_loop];
    unfold Part001.MDNS_RESOLVE_RETRIES; cbn [length] in Hlt.
  - destruct (Z.ltb_spec attempt 5); [lia |].
    cbn in Hq. unfold ret. rewrite <- Hq. destruct o; reflexivity.
  - destruct (Z.ltb_spec attempt 5); [| lia].
    pose proof (Forall_inv Hf) as He. unfold query_failed in He. cbn [fst] in He.
    apply wpt_exact. fwd.
    destruct (Z.eqb_spec err ESP_OK); [contradiction |]. fwd.
    rewrite int32_small by (unfold in_int32; lia).
    eapply wpt_known.
    + apply (IH n (attempt + 1) g (set_mdns_queries o (fails ++ tl))
                tl eq_refl (Forall_inv_tail Hf)); [lia | lia | cbn in Hfuel; lia].
    + unfold after. cbn [val mem rest out app length failed_attempts]. reflexivity.
Qed.

(** Whatever the answers, the loop takes at most as many as attempts are
    left. *)
Lemma resolve_loop_bounded ipstr fuel : forall attempt g o,
  0 <= attempt <= Part001.MDNS_RESOLVE_RETRIES ->
  wp (Part001.resolve_loop ipstr fuel attempt)
     (fun r => exists used,
          mdns_queries o = used ++ mdns_queries (rest r)
          /\ attempt + Z.of_nat (length used) <= Part001.MDNS_RESOLVE_RETRIES) g o.
Proof.
  unfold Part001.MDNS_RESOLVE_RETRIES.
  induction fuel as [| n IH]; intros attempt g o Ha; [exact I |].
  cbn [Part001.resolve_loop]. unfold Part001.MDNS_RESOLVE_RETRIES.
  destruct (Z.ltb_spec attempt 5).
  - wp_run.
    + exists [q]. cbn. rewrite H0. split; [reflexivity | lia].
    + rewrite int32_small by (unfold in_int32; lia).
      eapply wp_mono; [apply IH; lia |].
      cbn beta. intros r (used & Hu & Hl). exists (q :: used).
      cbn [after rest mdns_queries set_mdns_queries] in *.
      rewrite H0, Hu. split; [reflexivity |]. cbn [length]. lia.
  - wp_run. exists []. cbn. split; [reflexivity | lia].
Qed.

(** Every [connect] of a run goes to the address that the resolution block
    left in [resolved_ip]. *)
Lemma app_main_uses_resolved SERVER_IP ipstr n o rs :
  Part001.resolve_server SERVER_IP ipstr Part001.globals0 o = Some rs ->
  wp (Part001.app_main SERVER_IP ipstr n)
     (run_post (Part001.resolved_ip (mem rs)) monitor0) Part001.globals0 o.
Proof.
  intros Ers.
  pose proof (wp_elim _ _ _ _ _
                (resolve_server_wp SERVER_IP ipstr Part001.globals0 o eq_refl) Ers)
    as [Hlen Hq].
  unfold Part001.app_main, Part001.startup, led_off. wp_run.
  eapply wp_known; [exact Ers |]. apply wp_bind.
  eapply wp_mono; [apply (discard_frames_wp (Part001.resolved_ip (mem rs)));
                   split; [exact Hlen | reflexivity] |].
  cbn beta. intros r2 [Hg2 Hq2]. wp_run.
  eapply wp_mono;
    [apply (run_ok (Part001.resolved_ip (mem rs)) n Part001.locals0 _ _ monitor0);
     [cbn; auto | exact Hg2] |].
  cbn beta. intros r3 (Hg3 & Hu3 & m3 & Ho3 & Hag3).
  unfold run_post, after. cbn [val mem rest out app].
  rewrite <- ?app_assoc. cbn [app].
  split; [exact Hg3 |]. split.
  - repeat (apply Forall_cons; [exact I |]).
    apply Forall_app. split; [apply quiet_uses_ip; exact Hq |].
    apply Forall_app. split; [apply quiet_uses_ip; exact Hq2 |].
    apply Forall_cons; [exact I | exact Hu3].
  - exists m3. cbn [observe_all observe].
    rewrite observe_all_app, (quiet_observe _ _ Hq).
    rewrite observe_all_app, (quiet_observe _ _ Hq2).
    cbn [observe_all observe]. auto.
Qed.

Lemma resolve_server_found SERVER_IP ipstr g o il fails addr tl :
  mdns_inits o = ESP_OK :: il ->
  mdns_queries o = fails ++ (ESP_OK, addr) :: tl ->
  Forall query_failed fails ->
  (length fails < 5)%nat ->
  Part001.resolve_server SERVER_IP ipstr g o =
  Some (mkRes tt (Part001.set_resolved_ip g (Part001.fit64 (ipstr addr)))
              (set_mdns_queries (set_mdns_inits o il) tl)
              (failed_attempts (length fails) ++ successful_attempt)).
Proof.
  intros Hi Hq Hf Hl. apply wpt_exact.
  unfold Part001.resolve_server, Part001.resolve_mdns_hostname. fwd.
  cbn [negb Z.eqb ESP_OK].
  eapply wpt_known.
  - apply (resolve_loop_found ipstr fails _ 0 g (set_mdns_inits o il) addr tl);
      [exact Hq | exact Hf | lia | unfold Part001.MDNS_RESOLVE_RETRIES; lia
       | unfold Part001.MDNS_RESOLVE_RETRIES; cbn; lia].
  - cbn [after val mem rest out negb]. fwd.
    unfold after. cbn [val mem rest out app]. rewrite app_nil_r. reflexivity.
Qed.

Lemma resolve_server_exhausted SERVER_IP ipstr g o il fails tl :
  mdns_inits o = ESP_OK :: il ->
  mdns_queries o = fails ++ tl ->
  Forall query_failed fails ->
  length fails = 5%nat ->
  Part001.resolve_server SERVER_IP ipstr g o =
  Some (mkRes tt (Part001.set_resolved_ip g (Part001.fit64 SERVER_IP))
              (set_mdns_queries (set_mdns_inits o il) tl)
              (failed_attempts 5 ++ falling_back)).
Proof.
  intros Hi Hq Hf Hl. apply wpt_exact.
  unfold Part001.resolve_server, Part001.resolve_mdns_hostname. fwd.
  cbn [negb Z.eqb ESP_OK].
  eapply wpt_known.
  - apply (resolve_loop_exhausted ipstr fails _ 0 g (set_mdns_inits o il) tl);
      [exact Hq | exact Hf | lia | unfold Part001.MDNS_RESOLVE_RETRIES; lia
       | unfold Part001.MDNS_RESOLVE_RETRIES; cbn; lia].
  - cbn [after val mem rest out negb]. fwd. rewrite Hl.
    unfold after. cbn [val mem rest out app failed_attempts falling_back]. reflexivity.
Qed.

Lemma resolve_server_no_mdns SERVER_IP ipstr g o err il :
  mdns_inits o = err :: il ->
  err <> ESP_OK ->
  Part001.resolve_server SERVER_IP ipstr g o =
  Some (mkRes tt (Part001.set_resolved_ip g (Part001.fit64 SERVER_IP))
              (set_mdns_inits o il)
              (EvLog LOG_E "mdns_init failed: %s" :: falling_back)).
Proof.
  intros Hi He. apply wpt_exact.
  unfold Part001.resolve_server, Part001.resolve_mdns_hostname. fwd.
  destruct (Z.eqb_spec err ESP_OK); [contradiction |]. cbn [negb]. fwd. fwd_done.
Qed.

Lemma resolve_server_bounded SERVER_IP ipstr g o :
  wp (Part001.resolve_server SERVER_IP ipstr)
     (fun r => exists used,
          mdns_queries o = used ++ mdns_queries (rest r)
          /\ (length used <= 5)%nat) g o.
Proof.
  unfold Part001.resolve_server, Part001.resolve_mdns_hostname. wp_run.
  all: try (cbn in Heqb0; discriminate Heqb0).
  - exists []. cbn. auto with arith.
  - eapply wp_mono;
      [apply (resolve_loop_bounded ipstr _ 0 g (set_mdns_inits o tl));
       unfold Part001.MDNS_RESOLVE_RETRIES; lia |].
    cbn beta. intros r (used & Hu & Hl). unfold Part001.MDNS_RESOLVE_RETRIES in Hl.
    cbn [mdns_queries set_mdns_inits] in Hu.
    destruct (negb (val r)); wp_run; exists used; cbn [after rest]; split; auto; lia.
Qed.

(** C7 (as the code has it). The resolution block asks mDNS at most five
    times. If [mdns_init] succeeds and one of the first five answers is a
    success, the block stops at the first success, having asked no more,
    and [resolved_ip] is that answer's address. If [mdns_init] succeeds and
    five answers in a row are errors, [resolved_ip] is the configured
    [SERVER_IP]. If [mdns_init] itself fails, [resolved_ip] is the
    configured [SERVER_IP] and mDNS was not asked at all. After a
    successful resolution every [connect] of the run goes to the resolved
    address and [SERVER_PORT]: with four errors and a success, to the
    address of the fifth answer. *)
Theorem C7_resolution_retries_then_falls_back (SERVER_IP : string) (ipstr : Z -> string) :
  (forall g o r,
     Part001.resolve_server SERVER_IP ipstr g o = Some r ->
     exists used, mdns_queries o = used ++ mdns_queries (rest r)
                  /\ (length used <= 5)%nat)
  /\ (forall g o il fails addr tl,
        mdns_inits o = ESP_OK :: il ->
        mdns_queries o = fails ++ (ESP_OK, addr) :: tl ->
        Forall query_failed fails ->
        (length fails < 5)%nat ->
        Part001.resolve_server SERVER_IP ipstr g o =
        Some (mkRes tt (Part001.set_resolved_ip g (Part001.fit64 (ipstr addr)))
                    (set_mdns_queries (set_mdns_inits o il) tl)
                    (failed_attempts (length fails) ++ successful_attempt)))
  /\ (forall g o il fails tl,
        mdns_inits o = ESP_OK :: il ->
        mdns_queries o = fails ++ tl ->
        Forall query_failed fails ->
        length fails = 5%nat ->
        Part001.resolve_server SERVER_IP ipstr g o =
        Some (mkRes tt (Part001.set_resolved_ip g (Part001.fit64 SERVER_IP))
                    (set_mdns_queries (set_mdns_inits o il) tl)
                    (failed_attempts 5 ++ falling_back)))
  /\ (forall g o err il,
        mdns_inits o = err :: il ->
        err <> ESP_OK ->
        Part001.resolve_server SERVER_IP ipstr g o =
        Some (mkRes tt (Part001.set_resolved_ip g (Part001.fit64 SERVER_IP))
                    (set_mdns_inits o il)
                    (EvLog LOG_E "mdns_init failed: %s" :: falling_back)))
  /\ (forall n o r il fails addr tl,
        mdns_inits o = ESP_OK :: il ->
        mdns_queries o = fails ++ (ESP_OK, addr) :: tl ->
        Forall query_failed fails ->
        (length fails < 5)%nat ->
        Part001.app_main SERVER_IP ipstr n Part001.globals0 o = Some r ->
        Part001.resolved_ip (mem r) = Part001.fit64 (ipstr addr)
        /\ Forall (uses_ip (Part001.fit64 (ipstr addr))) (out r)).
Proof.
  split; [intros g o r E;
          exact (wp_elim _ _ _ _ _ (resolve_server_bounded SERVER_IP ipstr g o) E) |].
  split; [exact (resolve_server_found SERVER_IP ipstr) |].
  split; [exact (resolve_server_exhausted SERVER_IP ipstr) |].
  split; [exact (resolve_server_no_mdns SERVER_IP ipstr) |].
  intros n o r il fails addr tl Hi Hq Hf Hl E.
  pose proof (resolve_server_found SERVER_IP ipstr Part001.globals0 o il fails addr tl
                Hi Hq Hf Hl) as Ers.
  pose proof (wp_elim _ _ _ _ _ (app_main_uses_resolved SERVER_IP ipstr n o _ Ers) E)
    as ([_ Hip] & Hu & _).
  cbn [mem Part001.resolved_ip Part001.set_resolved_ip] in Hip, Hu. auto.
Qed.

Lemma C7_witness :
  let r := the (mkRes Part001.locals0 Part001.globals0 no_input [])
               (Part001.app_main demo_server_ip demo_ipstr 2 Part001.globals0
                                 fifth_attempt_resolves) in
  Part001.state (val r) = STATE_RECORDING
  /\ In (EvConnect 3 "10.0.0.7" SERVER_PORT 0) (out r)
  /\ Part001.resolved_ip (mem r) = "10.0.0.7"%string
  /\ Forall (uses_ip "10.0.0.7") (out r).
Proof.
  intros r.
  split; [vm_compute; reflexivity |].
  split; [vm_compute; tauto |].
  refine (proj2 (proj2 (proj2 (proj2
           (C7_resolution_retries_then_falls_back demo_server_ip demo_ipstr))))
           2%nat fifth_attempt_resolves r []
           [(-1, 0); (-1, 0); (-1, 0); (-1, 0)] 0x0700000A []
           eq_refl eq_refl _ _ _).
  - repeat constructor; discriminate.
  - cbn. lia.
  - vm_compute. reflexivity.
Defined.

(** The claim as first stated lets the configured address be used only
    after five failed attempts. Here [mdns_init] fails: the configured
    address is used and the one answer mDNS had ready was never asked
    for. *)
Lemma C7_counterexample :
  exists r,
    Part001.resolve_server demo_server_ip demo_ipstr Part001.globals0 mdns_unavailable
    = Some r
    /\ Part001.resolved_ip (mem r) = demo_server_ip
    /\ mdns_queries (rest r) = mdns_queries mdns_unavailable
    /\ (length (mdns_queries mdns_unavailable) - length (mdns_queries (rest r)))%nat
       = O.
Proof.
  eexists. split; [vm_compute; reflexivity |].
  repeat split; reflexivity.
Qed.

(** * C8: the acknowledgment byte *)

(** C8. In PROCESSING, when [select] reports the socket readable, the loop
    body calls [recv] once, logs "Server done" exactly when [recv] returned
    1 and the byte is [0x01] (any other byte, a return of 0 or a negative
    return gets the "Unexpected" warning), then in every case closes the
    socket once, turns the LED off and leaves the loop variables at
    [state = IDLE], [sock = -1]: the iteration always returns, and nothing
    is retried. Both revisions. *)
Theorem C8_ack_byte_ends_the_session :
  (forall l g o rc n b sl rl,
     Part001.state l = STATE_PROCESSING ->
     selects o = (rc, true) :: sl -> 0 < rc ->
     recvs o = (n, b) :: rl ->
     Part001.tick l g o =
       Some (mkRes (Part001.to_idle l) g (set_recvs (set_selects o sl) rl)
                   (ack_events (Part001.sock l) rc n b))
     /\ Part001.state (Part001.to_idle l) = STATE_IDLE
     /\ Part001.sock (Part001.to_idle l) = -1
     /\ count is_close (ack_events (Part001.sock l) rc n b) = 1%nat
     /\ (ack_log n b = EvLog LOG_I "Server done, back to idle"
         <-> n = 1 /\ b mod 256 = 1))
  /\
  (forall ip l g o rc n b sl rl,
     MainC.state l = STATE_PROCESSING ->
     selects o = (rc, true) :: sl -> 0 < rc ->
     recvs o = (n, b) :: rl ->
     MainC.tick ip l g o =
       Some (mkRes (MainC.to_idle l) g (set_recvs (set_selects o sl) rl)
                   (ack_events (MainC.sock l) rc n b))
     /\ MainC.state (MainC.to_idle l) = STATE_IDLE
     /\ MainC.sock (MainC.to_idle l) = -1).
Proof.
  split.
  - intros l g o rc n b sl rl Hst Hsel Hrc Hrecv.
    split; [| split; [reflexivity | split; [reflexivity | split]]].
    + apply wpt_exact. unfold Part001.tick. rewrite Hst. fwd.
      destruct (Z.gtb_spec rc 0); [| lia]. cbn [andb]. fwd.
      unfold ack_events, ack_log.
      destruct ((n =? 1) && (b mod 256 =? 1)); fwd; reflexivity.
    + unfold ack_events, ack_log.
      destruct ((n =? 1) && (b mod 256 =? 1)); reflexivity.
    + unfold ack_log. split.
      * destruct (Z.eqb_spec n 1); destruct (Z.eqb_spec (b mod 256) 1); cbn;
          intros H; try discriminate H; auto.
      * intros [-> ->]. reflexivity.
  - intros ip l g o rc n b sl rl Hst Hsel Hrc Hrecv.
    split; [| split; reflexivity].
    apply wpt_exact. unfold MainC.tick. rewrite Hst. fwd.
    destruct (Z.gtb_spec rc 0); [| lia]. cbn [andb]. fwd.
    unfold ack_events, ack_log.
    destruct ((n =? 1) && (b mod 256 =? 1)); fwd; reflexivity.
Qed.

Lemma C8_witness :
  Part001.tick (Part001.mkLocals STATE_PROCESSING 3 0 0 false 0) Part001.globals0
               (set_recvs (set_selects no_input [(1, true)]) [(1, 0x02)]) =
  Some (mkRes (Part001.mkLocals STATE_IDLE (-1) 0 0 false 0) Part001.globals0
              no_input
              ([EvSelect 3 1; EvRecv 3 1;
                EvLog LOG_W "Unexpected recv result (n=%d), returning to idle";
                EvClose 3] ++ leds_off)).
Proof.
  refine (proj1 (proj1 C8_ack_byte_ends_the_session
                   (Part001.mkLocals STATE_PROCESSING 3 0 0 false 0) Part001.globals0
                   (set_recvs (set_selects no_input [(1, true)]) [(1, 0x02)])
                   1 1 0x02 [] [] eq_refl eq_refl _ eq_refl)).
  lia.
Defined.

(** * C2: a failed send of the end marker *)

Lemma blink_step {S} (l : Part001.locals) now (Q : res S Part001.locals -> Prop) s o :
  Q (mkRes (blinked l now) s o
           (blink_events (Part001.led_on l) (Part001.last_blink l) now)) ->
  wpt (if sub64 now (Part001.last_blink l) >? 333 * 1000
       then (let on := negb (Part001.led_on l) in
             gpio_set_level PIN_LED_B (if on then 1 else 0) ;;;
             ret (Part001.set_blink l on now))%m
       else ret l) Q s o.
Proof.
  unfold blinked, blink_events.
  destruct (sub64 now (Part001.last_blink l) >? 333 * 1000); intros H; fwd; exact H.
Qed.

Lemma blink_step_c {S} (l : MainC.locals) now (Q : res S MainC.locals -> Prop) s o :
  Q (mkRes (blinked_c l now) s o
           (blink_events (MainC.led_on l) (MainC.last_blink l) now)) ->
  wpt (if sub64 now (MainC.last_blink l) >? 333 * 1000
       then (let on := negb (MainC.led_on l) in
             gpio_set_level PIN_LED_B (if on then 1 else 0) ;;;
             ret (MainC.set_blink l on now))%m
       else ret l) Q s o.
Proof.
  unfold blinked_c, blink_events.
  destruct (sub64 now (MainC.last_blink l) >? 333 * 1000); intros H; fwd; exact H.
Qed.

Lemma blinked_keeps l now :
  Part001.state (blinked l now) = Part001.state l
  /\ Part001.sock (blinked l now) = Part001.sock l
  /\ Part001.wait_start (blinked l now) = Part001.wait_start l
  /\ Part001.process_start (blinked l now) = Part001.process_start l.
Proof. unfold blinked. destruct (_ >? _); cbn; auto. Qed.

Lemma blinked_c_keeps l now :
  MainC.state (blinked_c l now) = MainC.state l
  /\ MainC.sock (blinked_c l now) = MainC.sock l
  /\ MainC.wait_start (blinked_c l now) = MainC.wait_start l.
Proof. unfold blinked_c. destruct (_ >? _); cbn; auto. Qed.

(** In [part_001], when the grace period is over and the end marker cannot
    be sent, the iteration sends nothing else, closes the socket, flashes
    red and ends in IDLE: the marker is tried once and PROCESSING is not
    entered. *)
Lemma part001_marker_failure l g o now tb lvl gl rc sl start mids fend cl :
  Part001.state l = STATE_WAIT ->
  clock o = now :: tb :: start :: mids ++ fend :: cl ->
  gpio_in o = lvl :: gl ->
  Part001.debounced_state (Part001.debounce (lvl =? 0) (int64_t tb) g) = false ->
  WAIT_TIMEOUT_US < sub64 (int64_t now) (Part001.wait_start l) ->
  sends o = rc :: sl -> rc < 0 ->
  flash_clock start mids fend ->
  Part001.tick l g o =
  Some (mkRes (Part001.to_idle (blinked l (int64_t now)))
              (Part001.debounce (lvl =? 0) (int64_t tb) g)
              (set_clock (set_sends (set_gpio_in o gl) sl) cl)
              (blink_events (Part001.led_on l) (Part001.last_blink l) (int64_t now)
               ++ [EvLog LOG_I "Grace period expired, processing...";
                   EvSend (Part001.sock l) END_MARKER rc;
                   EvLog LOG_E "send() end marker failed";
                   EvClose (Part001.sock l)]
               ++ red_flash)).
Proof.
  intros Hst Hc Hg Hb Hw Hs Hrc Hf.
  apply wpt_exact. unfold Part001.tick. rewrite Hst. fwd.
  apply blink_step. cbn [after val mem rest out]. fwd.
  eapply wpt_known; [apply (button_pressed_eq g _ lvl tb gl (start :: mids ++ fend :: cl));
                     oracle_field |].
  cbn [after val mem rest out]. rewrite Hb.
  destruct (blinked_keeps l (int64_t now)) as (_ & Esk & Ews & _).
  rewrite Ews, Esk.
  destruct (Z.gtb_spec (sub64 (int64_t now) (Part001.wait_start l)) WAIT_TIMEOUT_US);
    [| lia].
  fwd. destruct (Z.ltb_spec rc 0); [| lia]. fwd.
  eapply wpt_known; [apply (led_flash_red_eq _ _ start mids fend cl);
                     [oracle_field | exact Hf] |].
  cbn [after val mem rest out]. fwd.
  unfold after. cbn [val mem rest out app]. reflexivity.
Qed.

(** In [main.c] the return value of that [send] is not looked at: whatever
    it is, the iteration turns the LED green and enters PROCESSING with the
    socket still open. *)
Lemma main_c_marker_result_ignored ip l g o now lvl gl rc sl cl :
  MainC.state l = STATE_WAIT ->
  clock o = now :: cl ->
  gpio_in o = lvl :: gl ->
  (lvl =? 0) = false ->
  WAIT_TIMEOUT_US < sub64 (int64_t now) (MainC.wait_start l) ->
  sends o = rc :: sl ->
  MainC.tick ip l g o =
  Some (mkRes (MainC.set_state (blinked_c l (int64_t now)) STATE_PROCESSING)
              g
              (set_sends (set_gpio_in (set_clock o cl) gl) sl)
              (blink_events (MainC.led_on l) (MainC.last_blink l) (int64_t now)
               ++ [EvLog LOG_I "Grace period expired, processing...";
                   EvSend (MainC.sock l) END_MARKER rc]
               ++ leds_green)).
Proof.
  intros Hst Hc Hg Hb Hw Hs.
  apply wpt_exact. unfold MainC.tick. rewrite Hst. fwd.
  apply blink_step_c. cbn [after val mem rest out].
  unfold MainC.button_pressed. fwd. rewrite Hb.
  destruct (blinked_c_keeps l (int64_t now)) as (_ & Esk & Ews).
  rewrite Ews, Esk.
  destruct (Z.gtb_spec (sub64 (int64_t now) (MainC.wait_start l)) WAIT_TIMEOUT_US);
    [| lia].
  fwd. unfold after. cbn [val mem rest out app]. reflexivity.
Qed.

(** C2. On [src/firmware/main/main.c] the [send] of the end marker returns
    [-1] and the loop does not look at it: it closes nothing and is in
    PROCESSING, socket open, after that iteration. On the same timeline
    [src/unnamed/part_001] tries the marker once, closes the socket once
    and is in IDLE with [sock = -1] after that iteration, without a second
    [send]. *)
Theorem C2_main_c_failed_marker_enters_processing :
  let run_c n := MainC.app_main demo_server_ip n MainC.globals0
                                (with_startup (release_then_silence (-1))) in
  let run n := Part001.app_main demo_server_ip demo_ipstr n Part001.globals0
                                (with_startup marker_fails_debounced) in
  (exists r, run_c 2%nat = Some r /\ MainC.state (val r) = STATE_WAIT)
  /\ (exists r, run_c 3%nat = Some r
                /\ MainC.state (val r) = STATE_PROCESSING
                /\ MainC.sock (val r) = 3
                /\ filter is_marker_send (out r) = [EvSend 3 END_MARKER (-1)]
                /\ count is_close (out r) = O)
  /\ (exists r, run 4%nat = Some r /\ Part001.state (val r) = STATE_WAIT)
  /\ (exists r, run 5%nat = Some r
                /\ Part001.state (val r) = STATE_IDLE
                /\ Part001.sock (val r) = -1
                /\ filter is_marker_send (out r) = [EvSend 3 END_MARKER (-1)]
                /\ count is_close (out r) = 1%nat
                /\ sends (rest r) = []).
Proof.
  cbv zeta. repeat split; eexists; (split; [vm_compute; reflexivity |]);
    repeat split; vm_compute; reflexivity.
Qed.

(** * C1: the overall deadline of PROCESSING *)

(** [part_001] enters PROCESSING with [process_start] set to the clock
    reading taken right after the end marker went out. *)
Lemma part001_enters_processing l g o now tb tp lvl gl rc sl cl :
  Part001.state l = STATE_WAIT ->
  clock o = now :: tb :: tp :: cl ->
  gpio_in o = lvl :: gl ->
  Part001.debounced_state (Part001.debounce (lvl =? 0) (int64_t tb) g) = false ->
  WAIT_TIMEOUT_US < sub64 (int64_t now) (Part001.wait_start l) ->
  sends o = rc :: sl -> 0 <= rc ->
  Part001.tick l g o =
  Some (mkRes (Part001.set_state
                 (Part001.set_process_start (blinked l (int64_t now)) (int64_t tp))
                 STATE_PROCESSING)
              (Part001.debounce (lvl =? 0) (int64_t tb) g)
              (set_clock (set_sends (set_gpio_in o gl) sl) cl)
              (blink_events (Part001.led_on l) (Part001.last_blink l) (int64_t now)
               ++ [EvLog LOG_I "Grace period expired, processing...";
                   EvSend (Part001.sock l) END_MARKER rc]
               ++ leds_green)).
Proof.
  intros Hst Hc Hg Hb Hw Hs Hrc.
  apply wpt_exact. unfold Part001.tick. rewrite Hst. fwd.
  apply blink_step. cbn [after val mem rest out]. fwd.
  eapply wpt_known; [apply (button_pressed_eq g _ lvl tb gl (tp :: cl)); oracle_field |].
  cbn [after val mem rest out]. rewrite Hb.
  destruct (blinked_keeps l (int64_t now)) as (_ & Esk & Ews & _).
  rewrite Ews, Esk.
  destruct (Z.gtb_spec (sub64 (int64_t now) (Part001.wait_start l)) WAIT_TIMEOUT_US);
    [| lia].
  fwd. destruct (Z.ltb_spec rc 0); [lia |]. fwd. fwd_done.
Qed.

(** No byte and the deadline not passed: the iteration changes nothing. *)
Lemma part001_processing_waits l g o rc isset sl now cl :
  Part001.state l = STATE_PROCESSING ->
  selects o = (rc, isset) :: sl ->
  (rc >? 0) && isset = false -> (rc <? 0) = false ->
  clock o = now :: cl ->
  sub64 (int64_t now) (Part001.process_start l) <= RECV_DEADLINE_US ->
  Part001.tick l g o =
  Some (mkRes l g (set_clock (set_selects o sl) cl) [EvSelect (Part001.sock l) rc]).
Proof.
  intros Hst Hsel Hno Hok Hc Hd.
  apply wpt_exact. unfold Part001.tick. rewrite Hst. fwd.
  rewrite Hno, Hok. fwd.
  destruct (Z.gtb_spec (sub64 (int64_t now) (Part001.process_start l))
                       (RECV_TIMEOUT_S * 1000 * 1000));
    [unfold RECV_DEADLINE_US in Hd; lia |].
  fwd. fwd_done.
Qed.

(** No byte and the deadline passed: one close, red flash, IDLE. *)
Lemma part001_processing_times_out l g o rc isset sl now start mids fend cl :
  Part001.state l = STATE_PROCESSING ->
  selects o = (rc, isset) :: sl ->
  (rc >? 0) && isset = false -> (rc <? 0) = false ->
  clock o = now :: start :: mids ++ fend :: cl ->
  RECV_DEADLINE_US < sub64 (int64_t now) (Part001.process_start l) ->
  flash_clock start mids fend ->
  Part001.tick l g o =
  Some (mkRes (Part001.to_idle l) g (set_clock (set_selects o sl) cl)
              ([EvSelect (Part001.sock l) rc;
                EvLog LOG_W "Processing timeout (%ds), returning to idle";
                EvClose (Part001.sock l)] ++ red_flash)).
Proof.
  intros Hst Hsel Hno Hok Hc Hd Hf.
  apply wpt_exact. unfold Part001.tick. rewrite Hst. fwd.
  rewrite Hno, Hok. fwd.
  destruct (Z.gtb_spec (sub64 (int64_t now) (Part001.process_start l))
                       (RECV_TIMEOUT_S * 1000 * 1000));
    [| unfold RECV_DEADLINE_US in Hd; lia].
  fwd.
  eapply wpt_known; [apply (led_flash_red_eq _ _ start mids fend cl);
                     [oracle_field | exact Hf] |].
  cbn [after val mem rest out]. fwd. fwd_done.
Qed.

(** [main.c] has no [process_start]: its deadline runs from [wait_start],
    the time the button was released. *)
Lemma main_c_processing_times_out ip l g o rc isset sl now cl :
  MainC.state l = STATE_PROCESSING ->
  selects o = (rc, isset) :: sl ->
  (rc >? 0) && isset = false -> (rc <? 0) = false ->
  clock o = now :: cl ->
  RECV_DEADLINE_US < sub64 (int64_t now) (MainC.wait_start l) ->
  MainC.tick ip l g o =
  Some (mkRes (MainC.to_idle l) g (set_clock (set_selects o sl) cl)
              ([EvSelect (MainC.sock l) rc;
                EvLog LOG_W "Processing timeout (%ds), returning to idle";
                EvClose (MainC.sock l)] ++ leds_off)).
Proof.
  intros Hst Hsel Hno Hok Hc Hd.
  apply wpt_exact. unfold MainC.tick. rewrite Hst. fwd.
  rewrite Hno, Hok. fwd.
  destruct (Z.gtb_spec (sub64 (int64_t now) (MainC.wait_start l))
                       (RECV_TIMEOUT_S * 1000 * 1000));
    [| unfold RECV_DEADLINE_US in Hd; lia].
  fwd. fwd_done.
Qed.

Lemma main_c_processing_waits ip l g o rc isset sl now cl :
  MainC.state l = STATE_PROCESSING ->
  selects o = (rc, isset) :: sl ->
  (rc >? 0) && isset = false -> (rc <? 0) = false ->
  clock o = now :: cl ->
  sub64 (int64_t now) (MainC.wait_start l) <= RECV_DEADLINE_US ->
  MainC.tick ip l g o =
  Some (mkRes l g (set_clock (set_selects o sl) cl) [EvSelect (MainC.sock l) rc]).
Proof.
  intros Hst Hsel Hno Hok Hc Hd.
  apply wpt_exact. unfold MainC.tick. rewrite Hst. fwd.
  rewrite Hno, Hok. fwd.
  destruct (Z.gtb_spec (sub64 (int64_t now) (MainC.wait_start l))
                       (RECV_TIMEOUT_S * 1000 * 1000));
    [unfold RECV_DEADLINE_US in Hd; lia |].
  fwd. fwd_done.
Qed.

Lemma run_S_known n (l : Part001.locals) g o
      (r1 r2 : res Part001.globals Part001.locals) :
  Part001.tick l g o = Some r1 ->
  Part001.run n (val r1) (mem r1) (rest r1) = Some r2 ->
  Part001.run (S n) l g o = Some (after r1 r2).
Proof.
  intros H1 H2. cbn [Part001.run]. unfold bind. rewrite H1, H2. reflexivity.
Qed.

Lemma run_snoc n : forall (l : Part001.locals) g o r1 r2,
  Part001.run n l g o = Some r1 ->
  Part001.tick (val r1) (mem r1) (rest r1) = Some r2 ->
  Part001.run (S n) l g o = Some (after r1 r2).
Proof.
  induction n as [| n IHn]; intros l g o r1 r2 H1 H2.
  - cbn in H1. injection H1 as <-. cbn in H2 |- *. unfold bind. rewrite H2.
    cbn. unfold after. cbn. rewrite app_nil_r. destruct r2; reflexivity.
  - cbn [Part001.run] in H1. unfold bind in H1.
    destruct (Part001.tick l g o) as [r0 |] eqn:E0; [| discriminate].
    destruct (Part001.run n (val r0) (mem r0) (rest r0)) as [r' |] eqn:E';
      [| discriminate].
    injection H1 as <-. cbn [val mem rest] in H2.
    rewrite (run_S_known _ l g o r0 _ E0 (IHn _ _ _ _ _ E' H2)).
    unfold after. cbn. rewrite app_assoc. reflexivity.
Qed.

(** While [select] keeps timing out and the clock stays within the
    deadline counted from [process_start], nothing happens. *)
Lemma part001_still_waiting ts : forall l g o sl cl,
  Part001.state l = STATE_PROCESSING ->
  0 <= Part001.process_start l ->
  Part001.process_start l + RECV_DEADLINE_US < 2 ^ 63 ->
  selects o = repeat (0, false) (length ts) ++ sl ->
  clock o = ts ++ cl ->
  Forall (fun t => Part001.process_start l <= t
                   <= Part001.process_start l + RECV_DEADLINE_US) ts ->
  Part001.run (length ts) l g o =
  Some (mkRes l g (set_clock (set_selects o sl) cl)
              (repeat (EvSelect (Part001.sock l) 0) (length ts))).
Proof.
  induction ts as [| t ts IH]; intros l g o sl cl Hst Hp Hmax Hsel Hc Hall.
  - cbn in *. unfold ret. rewrite <- Hsel, <- Hc. destruct o; reflexivity.
  - pose proof (Forall_inv Hall) as Ht. cbn beta in Ht.
    cbn [length repeat app] in *.
    assert (Hd : sub64 (int64_t t) (Part001.process_start l) <= RECV_DEADLINE_US).
    { rewrite int64_small, sub64_small;
        unfold in_int64, RECV_DEADLINE_US, RECV_TIMEOUT_S in *; lia. }
    pose proof (part001_processing_waits l g o 0 false _ t (ts ++ cl)
                  Hst Hsel eq_refl eq_refl Hc Hd) as H1.
    pose proof (IH l g (set_clock (set_selects o (repeat (0, false) (length ts) ++ sl))
                                  (ts ++ cl))
                   sl cl Hst Hp Hmax eq_refl eq_refl (Forall_inv_tail Hall)) as H2.
    rewrite (run_S_known _ l g o _ _ H1 H2). reflexivity.
Qed.

(** The timeout law of [part_001]: with no byte arriving, the iterations
    before the deadline (counted from [process_start]) leave the machine in
    PROCESSING without a close, and the first iteration past the deadline
    closes the socket, once, and leaves the machine in IDLE. *)
Lemma part001_timeout_law ts l g o sl tlate start mids fend cl :
  Part001.state l = STATE_PROCESSING ->
  0 <= Part001.process_start l ->
  selects o = repeat (0, false) (length ts) ++ (0, false) :: sl ->
  clock o = ts ++ tlate :: start :: mids ++ fend :: cl ->
  Forall (fun t => Part001.process_start l <= t
                   <= Part001.process_start l + RECV_DEADLINE_US) ts ->
  Part001.process_start l + RECV_DEADLINE_US < tlate < 2 ^ 63 ->
  flash_clock start mids fend ->
  (exists r, Part001.run (length ts) l g o = Some r
             /\ val r = l /\ count is_close (out r) = O)
  /\ exists r, Part001.run (S (length ts)) l g o = Some r
               /\ Part001.state (val r) = STATE_IDLE
               /\ Part001.sock (val r) = -1
               /\ filter is_close (out r) = [EvClose (Part001.sock l)]
               /\ rest r = set_clock (set_selects o sl) cl.
Proof.
  intros Hst Hp Hsel Hc Hall Hlate Hf.
  assert (Hmax : Part001.process_start l + RECV_DEADLINE_US < 2 ^ 63) by lia.
  pose proof (part001_still_waiting ts l g o _ _ Hst Hp Hmax Hsel Hc Hall) as Hw.
  split.
  - eexists. split; [exact Hw |]. cbn [val out]. split; [reflexivity |].
    unfold count. clear. induction (length ts); cbn; auto.
  - assert (Hd : RECV_DEADLINE_US < sub64 (int64_t tlate) (Part001.process_start l)).
    { rewrite int64_small, sub64_small;
        unfold in_int64, RECV_DEADLINE_US, RECV_TIMEOUT_S in *; lia. }
    pose proof (part001_processing_times_out l g
                  (set_clock (set_selects o ((0, false) :: sl))
                             (tlate :: start :: mids ++ fend :: cl))
                  0 false sl tlate start mids fend cl
                  Hst eq_refl eq_refl eq_refl eq_refl Hd Hf) as H2.
    eexists. split; [apply (run_snoc _ _ _ _ _ _ Hw H2) |].
    unfold after. cbn [val mem rest out].
    split; [reflexivity |]. split; [reflexivity |].
    split; [| reflexivity].
    rewrite filter_app.
    replace (filter is_close (repeat (EvSelect (Part001.sock l) 0) (length ts)))
      with (@nil event) by (clear; induction (length ts); cbn; auto).
    reflexivity.
Qed.

(** C1. On [src/firmware/main/main.c] the deadline is not counted from the
    entry into PROCESSING: the button is released at 1.000000 s, the grace
    period is seen over at 4.000001 s and PROCESSING is entered in that
    iteration; [select] then times out every 100 ms. After 1169 such
    iterations the machine is still in PROCESSING; in the next one the
    clock reads 121.000001 s, 117 s after PROCESSING was entered, and the
    loop closes the socket and returns to IDLE, because it compares with
    [wait_start]. On the same timeline [src/unnamed/part_001] records
    [process_start = 4.000003 s], is still in PROCESSING after the reading
    121.000003 s and after 1200 timeouts (124.000003 s), and closes the
    socket, once, at the reading 124.100003 s, the first that is more than
    120 s after [process_start]. *)
Theorem C1_main_c_deadline_counts_from_release :
  let run_c n := MainC.app_main demo_server_ip n MainC.globals0
                                (with_startup (release_then_silence 4)) in
  let run n := Part001.app_main demo_server_ip demo_ipstr n Part001.globals0
                                (with_startup release_then_silence_debounced) in
  (exists r, run_c 3%nat = Some r
             /\ MainC.state (val r) = STATE_PROCESSING
             /\ MainC.wait_start (val r) = 1000000
             /\ count is_close (out r) = O)
  /\ (exists r, run_c 1172%nat = Some r
                /\ MainC.state (val r) = STATE_PROCESSING
                /\ count is_close (out r) = O
                /\ clock (rest r) = [121000001])
  /\ (exists r, run_c 1173%nat = Some r
                /\ MainC.state (val r) = STATE_IDLE
                /\ MainC.sock (val r) = -1
                /\ count is_close (out r) = 1%nat)
  /\ 121000001 - 4000001 < RECV_DEADLINE_US
  /\ RECV_DEADLINE_US < 121000001 - 1000000
  /\ (exists r, run 5%nat = Some r
                /\ Part001.state (val r) = STATE_PROCESSING
                /\ Part001.process_start (val r) = 4000003)
  /\ (exists r, run 1175%nat = Some r
                /\ Part001.state (val r) = STATE_PROCESSING
                /\ count is_close (out r) = O
                /\ hd 0 (clock (rest r)) = 121100003)
  /\ (exists r, run 1205%nat = Some r
                /\ Part001.state (val r) = STATE_PROCESSING
                /\ count is_close (out r) = O
                /\ hd 0 (clock (rest r)) = 124100003)
  /\ (exists r, run 1206%nat = Some r
                /\ Part001.state (val r) = STATE_IDLE
                /\ Part001.sock (val r) = -1
                /\ count is_close (out r) = 1%nat).
Proof.
  cbv zeta. repeat split; try (vm_compute; reflexivity);
    eexists; (split; [vm_compute; reflexivity |]);
    repeat split; vm_compute; reflexivity.
Qed.

(** * Further properties of the code *)

(** A computation that meets some postcondition in the total sense returns. *)
Lemma wpt_returns {S A} (c : M S A) s o :
  wpt c (fun _ => True) s o -> exists r, c s o = Some r.
Proof. unfold wpt. destruct (c s o) as [r |]; [eauto | contradiction]. Qed.

(** Two postconditions of the same computation hold together. *)
Lemma wp_elim_both {S A} (c : M S A) (Q1 Q2 : res S A -> Prop) s o :
  wp c Q1 s o -> wp c Q2 s o -> wp c (fun r => Q1 r /\ Q2 r) s o.
Proof. unfold wp. destruct (c s o); auto. Qed.

(** ** [tcp_connect] *)

Lemma tcp_connect_trace g o :
  wp Part001.tcp_connect
     (fun r => mem r = g /\ connect_trace (Part001.resolved_ip g) (val r) (out r)) g o.
Proof.
  unfold Part001.tcp_connect. wp_run; cbn; (split; [reflexivity |]).
  - left. exists (int32_t fd). repeat split. apply Z.ltb_lt. exact Heqb.
  - right. left. exists (int32_t fd), rc. repeat split.
    + apply Z.ltb_ge. exact Heqb.
    + apply Z.eqb_neq. apply negb_true_iff. exact Heqb0.
  - right. right. apply negb_false_iff in Heqb0. apply Z.eqb_eq in Heqb0. subst rc.
    split; [apply Z.ltb_ge; exact Heqb | reflexivity].
Qed.

Lemma tcp_connect_c_trace ip g o :
  wp (MainC.tcp_connect ip)
     (fun r => mem r = g /\ connect_trace ip (val r) (out r)) g o.
Proof.
  unfold MainC.tcp_connect. wp_run; cbn; (split; [reflexivity |]).
  - left. exists (int32_t fd). repeat split. apply Z.ltb_lt. exact Heqb.
  - right. left. exists (int32_t fd), rc. repeat split.
    + apply Z.ltb_ge. exact Heqb.
    + apply Z.eqb_neq. apply negb_true_iff. exact Heqb0.
  - right. right. apply negb_false_iff in Heqb0. apply Z.eqb_eq in Heqb0. subst rc.
    split; [apply Z.ltb_ge; exact Heqb | reflexivity].
Qed.

Lemma connect_trace_held ip s evs :
  connect_trace ip s evs ->
  descriptors_held evs = (if s <? 0 then 0 else 1).
Proof.
  unfold descriptors_held, count.
  intros [(fd & Hfd & -> & ->) | [(fd & rc & Hfd & Hrc & -> & ->) | (Hs & ->)]];
    cbn [filter is_socket is_close].
  - destruct (Z.ltb_spec fd 0); [reflexivity | lia].
  - destruct (Z.ltb_spec fd 0); [lia | reflexivity].
  - destruct (Z.ltb_spec s 0); [lia | reflexivity].
Qed.

(** X1. [tcp_connect] ends in one of three ways and never leaks a
    descriptor: if [socket()] fails it returns -1 without calling
    [connect()]; if [connect()] fails it closes the descriptor it made and
    returns -1; otherwise it returns the connected descriptor, not negative.
    So the descriptors made and not closed are none when it returns -1 and
    one, the value returned, otherwise. It changes no variable. The address
    is [resolved_ip] in [part_001] and [SERVER_IP] in [main.c], the port
    always [SERVER_PORT]. It returns whenever the environment answers. *)
Theorem X1_tcp_connect_never_leaks :
  (forall g o r,
     Part001.tcp_connect g o = Some r ->
     mem r = g
     /\ connect_trace (Part001.resolved_ip g) (val r) (out r)
     /\ descriptors_held (out r) = (if val r <? 0 then 0 else 1))
  /\ (forall ip g o r,
        MainC.tcp_connect ip g o = Some r ->
        mem r = g
        /\ connect_trace ip (val r) (out r)
        /\ descriptors_held (out r) = (if val r <? 0 then 0 else 1))
  /\ (forall g o fd tl,
        sockets o = fd :: tl -> int32_t fd < 0 \/ connects o <> [] ->
        exists r, Part001.tcp_connect g o = Some r)
  /\ (forall ip g o fd tl,
        sockets o = fd :: tl -> int32_t fd < 0 \/ connects o <> [] ->
        exists r, MainC.tcp_connect ip g o = Some r).
Proof.
  split; [| split; [| split]].
  - intros g o r Hr.
    destruct (wp_elim _ _ _ _ _ (tcp_connect_trace g o) Hr) as [Hm Ht].
    split; [exact Hm |]. split; [exact Ht |].
    exact (connect_trace_held _ _ _ Ht).
  - intros ip g o r Hr.
    destruct (wp_elim _ _ _ _ _ (tcp_connect_c_trace ip g o) Hr) as [Hm Ht].
    split; [exact Hm |]. split; [exact Ht |].
    exact (connect_trace_held _ _ _ Ht).
  - intros g o fd tl Hs Hc. apply wpt_returns. unfold Part001.tcp_connect. fwd.
    destruct (int32_t fd <? 0) eqn:Hfd; [fwd; exact I |].
    destruct Hc as [Hc | Hc]; [apply Z.ltb_ge in Hfd; lia |].
    destruct (connects o) as [| rc cl] eqn:Hco; [congruence |].
    fwd. destruct (negb (rc =? 0)); fwd; exact I.
  - intros ip g o fd tl Hs Hc. apply wpt_returns. unfold MainC.tcp_connect. fwd.
    destruct (int32_t fd <? 0) eqn:Hfd; [fwd; exact I |].
    destruct Hc as [Hc | Hc]; [apply Z.ltb_ge in Hfd; lia |].
    destruct (connects o) as [| rc cl] eqn:Hco; [congruence |].
    fwd. destruct (negb (rc =? 0)); fwd; exact I.
Qed.

(** [connect()] is refused: the descriptor 3 is closed again. *)
Lemma X1_witness :
  let o := set_connects (set_sockets no_input [3]) [-1] in
  let r := the (mkRes 0 Part001.globals0 no_input []) (Part001.tcp_connect Part001.globals0 o) in
  out r = [EvSocket 3; EvConnect 3 EmptyString SERVER_PORT (-1);
           EvLog LOG_E "TCP connect to %s:%d failed"; EvClose 3]
  /\ mem r = Part001.globals0
  /\ connect_trace (Part001.resolved_ip Part001.globals0) (val r) (out r)
  /\ descriptors_held (out r) = (if val r <? 0 then 0 else 1).
Proof.
  cbv zeta. split; [vm_compute; reflexivity |].
  apply (proj1 X1_tcp_connect_never_leaks Part001.globals0
           (set_connects (set_sockets no_input [3]) [-1])).
  vm_compute. reflexivity.
Defined.

(** ** The red flash *)

Lemma flash_loop_sound {S} fuel start : forall (s : S) o,
  wp (Part001.flash_loop fuel start)
     (fun r => mem r = s /\ out r = []
               /\ rest r = set_clock o (clock (rest r))
               /\ exists mids fend,
                    clock o = mids ++ fend :: clock (rest r)
                    /\ Forall (fun t => sub64 (int64_t t) start < Part001.ERROR_FLASH_US) mids
                    /\ Part001.ERROR_FLASH_US <= sub64 (int64_t fend) start) s o.
Proof.
  induction fuel as [| n IH]; intros s o; [exact I |].
  cbn [Part001.flash_loop]. wp_run.
  - eapply wp_mono; [apply IH |]. cbn beta.
    intros r (Hm & Ho & Hrest & mids & fend & Hcl & Hmids & Hend).
    cbn [after val mem rest out app clock set_clock] in *.
    split; [exact Hm |]. split; [exact Ho |].
    split; [rewrite Hrest at 1; destruct o; reflexivity |].
    exists (t :: mids), fend. rewrite H, Hcl. repeat split; auto.
    constructor; [apply Z.ltb_lt; exact Heqb | exact Hmids].
  - cbn [clock set_clock]. repeat split. exists [], t.
    repeat split; [exact H | constructor | apply Z.ltb_ge; exact Heqb].
Qed.

Lemma led_flash_red_sound {S} (s : S) o :
  wp Part001.led_flash_red
     (fun r => mem r = s /\ out r = red_flash
               /\ rest r = set_clock o (clock (rest r))
               /\ exists start mids fend,
                    clock o = start :: mids ++ fend :: clock (rest r)
                    /\ flash_clock start mids fend) s o.
Proof.
  unfold Part001.led_flash_red, Part001.led_solid_red, led_off. wp_run.
  eapply wp_mono; [apply (flash_loop_sound n (int64_t t) s) |]. cbn beta.
  intros r (Hm & Ho & Hrest & mids & fend & Hcl & Hmids & Hend).
  rewrite Hm. wp_run. cbn [clock set_clock] in *. rewrite Ho.
  split; [reflexivity |]. split; [reflexivity |].
  split; [rewrite Hrest at 1; destruct o; reflexivity |].
  exists t, mids, fend. rewrite H, Hcl. split; [reflexivity |]. split; assumption.
Qed.

(** X2. [led_flash_red] switches the LED to red, polls the clock until the
    first reading that is at least [ERROR_FLASH_US] (500 ms) after the
    reading taken at its start, then switches all three LEDs off. It
    changes no variable and takes nothing else from the environment.
    Conversely it returns as soon as the clock shows such a reading. *)
Theorem X2_red_flash_lasts_half_a_second :
  (forall (s : Part001.globals) o r,
     Part001.led_flash_red s o = Some r ->
     mem r = s /\ out r = red_flash
     /\ rest r = set_clock o (clock (rest r))
     /\ exists start mids fend,
          clock o = start :: mids ++ fend :: clock (rest r)
          /\ flash_clock start mids fend)
  /\ (forall (s : Part001.globals) o start mids fend cl,
        clock o = start :: mids ++ fend :: cl ->
        flash_clock start mids fend ->
        Part001.led_flash_red s o = Some (mkRes tt s (set_clock o cl) red_flash)).
Proof.
  split.
  - intros s o r Hr. exact (wp_elim _ _ _ _ _ (led_flash_red_sound s o) Hr).
  - intros s o start mids fend cl Hc Hf. exact (led_flash_red_eq s o start mids fend cl Hc Hf).
Qed.

(** The flash starts at 1.000 s, is polled at 1.050 s and 1.499999 s and
    ends with the reading 1.500 s. *)
Lemma X2_witness :
  Part001.led_flash_red Part001.globals0
    (set_clock no_input [1000000; 1050000; 1499999; 1500000; 1500001]) =
  Some (mkRes tt Part001.globals0 (set_clock no_input [1500001]) red_flash).
Proof.
  apply (proj2 X2_red_flash_lasts_half_a_second Part001.globals0
           (set_clock no_input [1000000; 1050000; 1499999; 1500000; 1500001])
           1000000 [1050000; 1499999] 1500000 [1500001] eq_refl).
  split; [repeat constructor | vm_compute; discriminate].
Defined.

(** ** The debouncer limits the rate of changes *)

Lemma combine_stable_cons g raw t polls :
  observed g ((raw, t) :: polls) =
  (Part001.debounced_state (Part001.debounce raw (int64_t t) g), t)
  :: observed (Part001.debounce raw (int64_t t) g) polls.
Proof. reflexivity. Qed.

(** The invariant behind the rate limit: a pending change was first seen
    no earlier than the last change of level and no later than now. *)
Lemma changes_spaced polls : forall g last tprev,
  rising tprev (map snd polls) ->
  0 <= tprev ->
  Part001.last_button_change g = 0
    \/ (match last with Some c => c <= Part001.last_button_change g | None => True end
        /\ 0 <= Part001.last_button_change g <= tprev) ->
  match last with Some c => c <= tprev | None => True end ->
  spaced last (change_times (Part001.debounced_state g) (observed g polls)).
Proof.
  induction polls as [| [raw t] polls IH]; intros g last tprev Hr H0 Hinv Hlast;
    [exact I |].
  cbn [map snd rising] in Hr. destruct Hr as [[Ht1 Ht2] Hr].
  rewrite combine_stable_cons. cbn [change_times].
  assert (E64 : int64_t t = t) by (apply int64_small; unfold in_int64; lia).
  rewrite E64.
  unfold Part001.debounce.
  destruct (Bool.eqb raw (Part001.debounced_state g)) eqn:Eraw; cbn [negb].
  - (* raw agrees with the stable level: nothing pending any more *)
    cbn [Part001.set_button Part001.debounced_state]. rewrite eqb_reflx. cbn [app].
    apply (IH (Part001.set_button g 0 (Part001.debounced_state g)) last t Hr);
      [lia | left; reflexivity |].
    destruct last; [lia | exact I].
  - destruct (Z.eqb_spec (Part001.last_button_change g) 0) as [E0 | N0].
    + (* a change is first seen: it becomes pending *)
      cbn [Part001.set_button Part001.debounced_state]. rewrite eqb_reflx. cbn [app].
      apply (IH (Part001.set_button g t (Part001.debounced_state g)) last t Hr); [lia | |].
      * cbn [Part001.last_button_change Part001.set_button].
        destruct (Z.eq_dec t 0) as [-> | Nt]; [left; reflexivity |].
        right. split; [destruct last; [lia | exact I] | lia].
      * destruct last; [lia | exact I].
    + destruct Hinv as [Hinv | [Hl Hp]]; [contradiction |].
      rewrite sub64_small by lia.
      destruct (Z.gtb_spec (t - Part001.last_button_change g) Part001.DEBOUNCE_US)
        as [Hgt | Hle].
      * (* the pending change is accepted: the level changes now *)
        cbn [Part001.set_button Part001.debounced_state].
        assert (Ene : Bool.eqb (Part001.debounced_state g) raw = false).
        { destruct raw, (Part001.debounced_state g); cbn in *; congruence. }
        rewrite Ene. cbn [app spaced]. split.
        -- destruct last as [c |]; [lia | exact I].
        -- apply (IH (Part001.set_button g 0 raw) (Some t) t Hr);
             [lia | left; reflexivity | lia].
      * rewrite eqb_reflx. cbn [app].
        apply (IH g last t Hr); [lia | right; split; [exact Hl | lia] |].
        destruct last; [lia | exact I].
Qed.

(** X3. The debounced button changes level at most once per debounce
    interval: for every run of calls of [button_pressed] whose clock
    readings never go back, starting with no change pending, the calls
    return the levels of the debouncer, and any two successive changes of
    the returned level are more than [DEBOUNCE_US] (30 ms) apart, whatever
    the raw levels do. *)
Theorem X3_debounced_changes_are_spaced (g : Part001.globals) (polls : list (bool * Z)) :
  rising 0 (map snd polls) ->
  Part001.last_button_change g = 0 ->
  exists r,
    poll_buttons (length polls) g (button_oracle polls) = Some r
    /\ combine (val r) (map snd polls) = observed g polls
    /\ spaced None (change_times (Part001.debounced_state g)
                                 (combine (val r) (map snd polls))).
Proof.
  intros Hr H0. eexists. split; [apply poll_buttons_eq |].
  cbn [val]. split; [reflexivity |].
  apply (changes_spaced polls g None 0 Hr); [lia | left; exact H0 | exact I].
Qed.

(** The raw level chatters and is then held: pressed from 21 ms, accepted
    at 61 ms; released from 91 ms, accepted at 131 ms. *)
Lemma X3_witness :
  let polls := [(true, 1000); (false, 11000); (true, 21000); (true, 41000);
                (true, 61000); (false, 71000); (true, 81000); (false, 91000);
                (false, 111000); (false, 131000)] in
  let r := the (mkRes [] Part001.globals0 no_input [])
               (poll_buttons (length polls) Part001.globals0 (button_oracle polls)) in
  spaced None (change_times false (combine (val r) (map snd polls)))
  /\ change_times false (combine (val r) (map snd polls)) = [61000; 131000].
Proof.
  cbv zeta.
  destruct (X3_debounced_changes_are_spaced Part001.globals0
              [(true, 1000); (false, 11000); (true, 21000); (true, 41000);
               (true, 61000); (false, 71000); (true, 81000); (false, 91000);
               (false, 111000); (false, 131000)])
    as (r & E & _ & Hs).
  - cbn. repeat split; lia.
  - reflexivity.
  - split; [rewrite E; exact Hs | vm_compute; reflexivity].
Defined.

(** ** What a frame is made of *)

Lemma store_bytes_length buf off data :
  (off + length data <= length buf)%nat ->
  length (store_bytes buf off data) = length buf.
Proof.
  intros H. unfold store_bytes.
  rewrite !length_app, length_firstn, length_skipn. lia.
Qed.

Lemma firstn_store buf off data :
  (off + length data <= length buf)%nat ->
  firstn (off + length data) (store_bytes buf off data) = firstn off buf ++ data.
Proof.
  intros H. unfold store_bytes. rewrite app_assoc.
  rewrite firstn_app.
  assert (E : length (firstn off buf ++ data) = (off + length data)%nat).
  { rewrite length_app, length_firstn. lia. }
  rewrite E, Nat.sub_diag. cbn [firstn]. rewrite app_nil_r.
  rewrite <- E at 1. apply firstn_all.
Qed.

Lemma skipn_store buf off data k :
  (off + length data <= length buf)%nat ->
  skipn (off + length data + k) (store_bytes buf off data) =
  skipn (off + length data + k) buf.
Proof.
  intros H. unfold store_bytes. rewrite app_assoc.
  assert (E : length (firstn off buf ++ data) = (off + length data)%nat).
  { rewrite length_app, length_firstn. lia. }
  rewrite skipn_app, E.
  rewrite (skipn_all2 (firstn off buf ++ data)) by lia.
  cbn [app]. replace (off + length data + k - (off + length data))%nat with k by lia.
  rewrite skipn_skipn. f_equal. lia.
Qed.

Lemma whole_samples_in rd :
  whole_samples rd ->
  Z.of_nat (length (snd rd)) = 4 * samples_in rd /\ 1 <= samples_in rd.
Proof.
  intros [Hm Hne]. unfold samples_in.
  assert (E : Z.of_nat (length (snd rd)) mod 4 = 0).
  { change 4 with (Z.of_nat 4). rewrite <- Nat2Z.inj_mod, Hm. reflexivity. }
  assert (0 < Z.of_nat (length (snd rd))).
  { destruct (snd rd); [congruence | cbn [length]; lia]. }
  pose proof (Z.div_mod (Z.of_nat (length (snd rd))) 4 ltac:(lia)) as D.
  lia.
Qed.

Lemma samples_of_app p q : samples_of (p ++ q) = samples_of p + samples_of q.
Proof. induction p as [| x p IH]; cbn [app samples_of]; lia. Qed.

Lemma samples_of_whole reads :
  Forall whole_samples reads ->
  Z.of_nat (length (stream_of reads)) = 4 * samples_of reads
  /\ (reads <> [] -> 1 <= samples_of reads).
Proof.
  induction 1 as [| rd reads Hrd _ [IH1 IH2]]; [split; [reflexivity | congruence] |].
  unfold stream_of in *. cbn [map concat samples_of].
  destruct (whole_samples_in rd Hrd) as [E1 E2].
  rewrite length_app, Nat2Z.inj_add, E1, IH1. split; [lia |]. intros _.
  destruct reads as [| rd' reads]; [cbn [samples_of]; lia |].
  assert (1 <= samples_of (rd' :: reads)) by (apply IH2; discriminate). lia.
Qed.

(** Whole-sample reads that add up to a frame are within what the loop asks
    for, and none of them is asked for in vain. *)
Lemma whole_reads_fit reads : forall sg,
  0 <= sg ->
  Forall whole_samples reads ->
  sg + samples_of reads = PCM_FRAME_LEN ->
  in_contract sg reads /\ short_before_last sg reads.
Proof.
  induction reads as [| rd reads IH]; intros sg H0 Hw Hsum.
  - split; [exact I | apply short_before_last_nil].
  - pose proof (Forall_inv Hw) as Hrd. pose proof (Forall_inv_tail Hw) as Hw'.
    destruct (whole_samples_in rd Hrd) as [E1 E2].
    destruct (samples_of_whole reads Hw') as [E3 _].
    cbn [samples_of] in Hsum.
    destruct (IH (sg + samples_in rd)) as [Hc Hs]; [lia | exact Hw' | lia |].
    split.
    + cbn [in_contract]. split; [lia | exact Hc].
    + apply short_before_last_cons; [lia | exact Hs].
Qed.

(** Whole-sample reads land one after the other. *)
Lemma gather_whole reads : forall buf sg,
  0 <= sg ->
  Forall whole_samples reads ->
  (Z.to_nat (4 * sg) + length (stream_of reads) <= length buf)%nat ->
  gather buf sg reads =
  firstn (Z.to_nat (4 * sg)) buf ++ stream_of reads
  ++ skipn (Z.to_nat (4 * sg) + length (stream_of reads)) buf.
Proof.
  induction reads as [| rd reads IH]; intros buf sg H0 Hw Hlen.
  - unfold stream_of. cbn [gather map concat length app].
    rewrite Nat.add_0_r. symmetry. apply firstn_skipn.
  - pose proof (Forall_inv Hw) as Hrd. pose proof (Forall_inv_tail Hw) as Hw'.
    destruct (whole_samples_in rd Hrd) as [E1 E2].
    unfold stream_of in *. cbn [gather map concat] in *.
    rewrite length_app in Hlen.
    set (off := Z.to_nat (4 * sg)) in *.
    assert (Eoff : Z.to_nat (4 * (sg + samples_in rd)) = (off + length (snd rd))%nat).
    { unfold off. lia. }
    rewrite IH; [| lia | exact Hw' |].
    + rewrite Eoff, firstn_store by lia.
      rewrite skipn_store by lia.
      rewrite length_app, <- !app_assoc. f_equal. f_equal. f_equal. f_equal. lia.
    + rewrite Eoff, store_bytes_length by lia. lia.
Qed.

Lemma gather_whole_frame reads buf :
  Forall whole_samples reads ->
  length buf = 1024%nat ->
  length (stream_of reads) = 1024%nat ->
  gather buf 0 reads = stream_of reads.
Proof.
  intros Hw Hb Hl. rewrite gather_whole; [| lia | exact Hw | cbn; lia].
  cbn [Z.to_nat Z.mul firstn app Nat.add]. rewrite Hl, <- Hb, skipn_all.
  apply app_nil_r.
Qed.

(** [read_i2s_pcm] of [main.c] does return when the driver delivers. *)
Lemma read_loop_c_complete reads : forall sg g o tl fuel,
  0 <= sg ->
  i2s_in o = reads ++ tl ->
  in_contract sg reads ->
  sg + samples_of reads = PCM_FRAME_LEN ->
  short_before_last sg reads ->
  (length reads < fuel)%nat ->
  MainC.read_loop fuel sg g o =
  Some (mkRes tt
          (MainC.set_pcm_frame
             (MainC.set_i2s_raw g (gather (MainC.i2s_raw g) sg reads))
             (convert_frame (gather (MainC.i2s_raw g) sg reads)))
          (set_i2s_in o tl) []).
Proof.
  induction reads as [| [err data] reads IH]; intros sg g o tl fuel H0 Hi Hc Hsum Hs Hf;
    (destruct fuel as [| n]; [cbn in Hf; lia |]); cbn [MainC.read_loop].
  - cbn in Hsum. replace sg with PCM_FRAME_LEN by lia.
    cbn. cbn in Hi. rewrite <- Hi. destruct o; reflexivity.
  - assert (Hlt : sg < PCM_FRAME_LEN).
    { assert (Hne : (err, data) :: reads <> []) by discriminate.
      pose proof (Hs [] ((err, data) :: reads) eq_refl Hne) as Hs0.
      cbn [samples_of] in Hs0. lia. }
    unfold PCM_FRAME_LEN in *.
    destruct (Z.ltb_spec sg 256); [| lia].
    rewrite (int32_small (256 - sg)) by (unfold in_int32; lia).
    destruct Hc as [Hc1 Hc2]. cbn [snd] in Hc1. unfold PCM_FRAME_LEN in Hc1.
    pose proof (samples_in_bounds err data (256 - sg) Hc1) as Hb.
    unfold bind at 1. unfold i2s_channel_read. rewrite Hi. cbn [app].
    destruct (Z.leb_spec (Z.of_nat (length data)) ((256 - sg) * 4)); [| lia].
    cbn [val mem rest out fst snd]. unfold bind at 1. unfold get at 1.
    cbn [val mem rest out]. unfold bind at 1. unfold put at 1.
    cbn [val mem rest out].
    change (Z.of_nat (length data) / 4) with (samples_in (err, data)).
    rewrite int32_small by (unfold in_int32; lia).
    rewrite (IH (sg + samples_in (err, data)) _ (set_i2s_in o (reads ++ tl)) tl n);
      try assumption; try reflexivity.
    + lia.
    + cbn [samples_of] in Hsum. lia.
    + intros p q E Hq.
      specialize (Hs ((err, data) :: p) q). cbn [app samples_of] in Hs.
      rewrite E in Hs. specialize (Hs eq_refl Hq). lia.
    + cbn in Hf. lia.
Qed.

Lemma read_i2s_pcm_c_complete reads g o tl :
  i2s_in o = reads ++ tl ->
  in_contract 0 reads ->
  samples_of reads = PCM_FRAME_LEN ->
  short_before_last 0 reads ->
  MainC.read_i2s_pcm g o =
  Some (mkRes tt
          (MainC.set_pcm_frame
             (MainC.set_i2s_raw g (gather (MainC.i2s_raw g) 0 reads))
             (convert_frame (gather (MainC.i2s_raw g) 0 reads)))
          (set_i2s_in o tl) []).
Proof.
  intros Hi Hc Hsum Hs. unfold MainC.read_i2s_pcm, with_fuel.
  apply read_loop_c_complete; try assumption; try lia.
  pose proof (answers_cover_i2s o) as Ha. rewrite Hi, length_app in Ha. lia.
Qed.

(** X4. When the driver delivers whole samples, [read_i2s_pcm] returns the
    frame of exactly the bytes delivered: over any run of reads of whole
    samples (at least one each) that add up to 1024 bytes, it consumes
    these reads and no more, [i2s_raw] ends up holding their bytes in
    order, and [pcm_frame] is the conversion of that buffer. In [part_001]
    the reads must be free of errors and the result is [true]; [main.c]
    does not look at the error code. *)
Theorem X4_frame_holds_the_bytes_delivered (reads : list (Z * list Z)) :
  Forall whole_samples reads ->
  length (stream_of reads) = 1024%nat ->
  (forall g o tl,
     i2s_in o = reads ++ tl ->
     length (Part001.i2s_raw g) = 1024%nat ->
     Forall (fun rd => fst rd = ESP_OK) reads ->
     Part001.read_i2s_pcm g o =
     Some (mkRes true
             (Part001.set_pcm_frame (Part001.set_i2s_raw g (stream_of reads))
                                    (convert_frame (stream_of reads)))
             (set_i2s_in o tl) []))
  /\ (forall g o tl,
        i2s_in o = reads ++ tl ->
        length (MainC.i2s_raw g) = 1024%nat ->
        MainC.read_i2s_pcm g o =
        Some (mkRes tt
                (MainC.set_pcm_frame (MainC.set_i2s_raw g (stream_of reads))
                                     (convert_frame (stream_of reads)))
                (set_i2s_in o tl) [])).
Proof.
  intros Hw Hl.
  destruct (samples_of_whole reads Hw) as [E _].
  assert (Hsum : samples_of reads = PCM_FRAME_LEN) by (unfold PCM_FRAME_LEN; lia).
  destruct (whole_reads_fit reads 0 ltac:(lia) Hw ltac:(lia)) as [Hc Hs].
  split.
  - intros g o tl Hi Hb Hok.
    rewrite (read_i2s_pcm_complete reads g o tl Hi Hc Hok Hsum Hs).
    rewrite (gather_whole_frame reads _ Hw Hb Hl). reflexivity.
  - intros g o tl Hi Hb.
    rewrite (read_i2s_pcm_c_complete reads g o tl Hi Hc Hsum Hs).
    rewrite (gather_whole_frame reads _ Hw Hb Hl). reflexivity.
Qed.

(** The driver delivers 600 bytes and then 424. *)
Lemma X4_witness :
  let reads := [(0, repeat 7 600); (0, repeat 9 424)] in
  Part001.read_i2s_pcm Part001.globals0 (i2s_oracle (reads ++ [silent_read])) =
  Some (mkRes true
          (Part001.set_pcm_frame
             (Part001.set_i2s_raw Part001.globals0 (repeat 7 600 ++ repeat 9 424))
             (convert_frame (repeat 7 600 ++ repeat 9 424)))
          (i2s_oracle [silent_read]) []).
Proof.
  cbv zeta.
  assert (Hw : Forall whole_samples [(0, repeat 7 600); (0, repeat 9 424)]).
  { repeat constructor; cbn [snd]; try discriminate; rewrite repeat_length; reflexivity. }
  exact (proj1 (X4_frame_holds_the_bytes_delivered _ Hw eq_refl)
               Part001.globals0
               (i2s_oracle ([(0, repeat 7 600); (0, repeat 9 424)] ++ [silent_read]))
               [silent_read] eq_refl eq_refl
               ltac:(repeat constructor)).
Defined.

Lemma samples_in_stray (e : Z) (d stray : list Z) :
  (length d mod 4 = 0)%nat -> (length stray < 4)%nat ->
  4 * samples_in (e, d ++ stray) = Z.of_nat (length d).
Proof.
  intros Hm Hj. unfold samples_in. cbn [snd]. rewrite length_app, Nat2Z.inj_add.
  assert (E : Z.of_nat (length d) mod 4 = 0).
  { change 4 with (Z.of_nat 4). rewrite <- Nat2Z.inj_mod, Hm. reflexivity. }
  pose proof (Z.div_mod (Z.of_nat (length d)) 4 ltac:(lia)) as D1.
  pose proof (Z.div_mod (Z.of_nat (length d) + Z.of_nat (length stray)) 4 ltac:(lia)) as D2.
  pose proof (Z.mod_pos_bound (Z.of_nat (length d) + Z.of_nat (length stray)) 4 ltac:(lia)).
  lia.
Qed.

(** The buffer after a read that ends in a part of a sample and a second
    read that fills the frame. *)
Lemma gather_stray buf e1 d1 stray e2 d2 :
  (length d1 mod 4 = 0)%nat -> (length stray < 4)%nat ->
  (length d1 + length d2 = 1024)%nat -> d2 <> [] ->
  length buf = 1024%nat ->
  gather buf 0 [(e1, d1 ++ stray); (e2, d2)] = d1 ++ d2.
Proof.
  intros Hm Hj Hl Hne Hb.
  pose proof (samples_in_stray e1 d1 stray Hm Hj) as Es.
  assert (Hd2 : (4 <= length d2)%nat).
  { assert (length d2 <> 0)%nat by (destruct d2; [congruence | discriminate]).
    assert (E : (length d2 mod 4 = 0)%nat).
    { replace (length d2) with (1024 - length d1)%nat by lia.
      pose proof (Nat.div_mod_eq (length d1) 4) as D. rewrite Hm in D.
      replace (1024 - length d1)%nat with ((256 - length d1 / 4) * 4)%nat by lia.
      apply Nat.Div0.mod_mul. }
    pose proof (Nat.div_mod_eq (length d2) 4). lia. }
  cbn [gather snd]. rewrite Z.add_0_l.
  replace (Z.to_nat (4 * 0)) with 0%nat by reflexivity.
  replace (Z.to_nat (4 * samples_in (e1, d1 ++ stray))) with (length d1) by lia.
  unfold store_bytes at 2. cbn [firstn app Nat.add].
  unfold store_bytes.
  rewrite <- app_assoc, firstn_app, firstn_all, Nat.sub_diag. cbn [firstn].
  rewrite app_nil_r.
  rewrite skipn_all2; [rewrite app_nil_r; reflexivity |].
  rewrite !length_app, length_skipn. lia.
Qed.

(** X5. [read_i2s_pcm] counts whole samples only ([bytes_read / 4]) and
    stores the next read right after them: when a read ends in one to three
    bytes of an unfinished sample and the next read fills the frame, those
    bytes are overwritten and the frame is made of the whole samples of the
    first read followed by the second read. *)
Theorem X5_part_of_a_sample_is_overwritten (d1 stray d2 : list Z) :
  (length d1 mod 4 = 0)%nat ->
  (0 < length stray < 4)%nat ->
  (length d1 + length d2 = 1024)%nat ->
  d2 <> [] ->
  (forall g o tl,
     i2s_in o = (ESP_OK, d1 ++ stray) :: (ESP_OK, d2) :: tl ->
     length (Part001.i2s_raw g) = 1024%nat ->
     Part001.read_i2s_pcm g o =
     Some (mkRes true
             (Part001.set_pcm_frame (Part001.set_i2s_raw g (d1 ++ d2))
                                    (convert_frame (d1 ++ d2)))
             (set_i2s_in o tl) []))
  /\ (forall e1 e2 g o tl,
        i2s_in o = (e1, d1 ++ stray) :: (e2, d2) :: tl ->
        length (MainC.i2s_raw g) = 1024%nat ->
        MainC.read_i2s_pcm g o =
        Some (mkRes tt
                (MainC.set_pcm_frame (MainC.set_i2s_raw g (d1 ++ d2))
                                     (convert_frame (d1 ++ d2)))
                (set_i2s_in o tl) [])).
Proof.
  intros Hm [Hj0 Hj] Hl Hne.
  assert (Hd2 : (4 <= length d2)%nat).
  { assert (length d2 <> 0)%nat by (destruct d2; [congruence | discriminate]).
    assert (E : (length d2 mod 4 = 0)%nat).
    { replace (length d2) with (1024 - length d1)%nat by lia.
      pose proof (Nat.div_mod_eq (length d1) 4) as D. rewrite Hm in D.
      replace (1024 - length d1)%nat with ((256 - length d1 / 4) * 4)%nat by lia.
      apply Nat.Div0.mod_mul. }
    pose proof (Nat.div_mod_eq (length d2) 4). lia. }
  assert (Hfit : forall e1 e2,
             in_contract 0 [(e1, d1 ++ stray); (e2, d2)]
             /\ samples_of [(e1, d1 ++ stray); (e2, d2)] = PCM_FRAME_LEN
             /\ short_before_last 0 [(e1, d1 ++ stray); (e2, d2)]).
  { intros e1 e2.
    pose proof (samples_in_stray e1 d1 stray Hm Hj) as Es.
    pose proof (samples_in_stray e2 d2 [] ) as Es2.
    rewrite app_nil_r in Es2.
    assert (E2 : (length d2 mod 4 = 0)%nat).
    { replace (length d2) with (1024 - length d1)%nat by lia.
      pose proof (Nat.div_mod_eq (length d1) 4) as D. rewrite Hm in D.
      replace (1024 - length d1)%nat with ((256 - length d1 / 4) * 4)%nat by lia.
      apply Nat.Div0.mod_mul. }
    specialize (Es2 E2 ltac:(cbn; lia)).
    unfold PCM_FRAME_LEN. cbn [in_contract samples_of snd].
    rewrite length_app. unfold PCM_FRAME_LEN.
    split; [split; [lia | split; [lia | exact I]] |]. split; [lia |].
    apply short_before_last_cons; [unfold PCM_FRAME_LEN; lia |].
    apply short_before_last_cons; [unfold PCM_FRAME_LEN; lia |].
    apply short_before_last_nil. }
  split.
  - intros g o tl Hi Hb. destruct (Hfit ESP_OK ESP_OK) as (Hc & Hsum & Hs).
    rewrite (read_i2s_pcm_complete [(ESP_OK, d1 ++ stray); (ESP_OK, d2)] g o tl Hi Hc
               ltac:(repeat constructor) Hsum Hs).
    rewrite (gather_stray _ ESP_OK d1 stray ESP_OK d2 Hm Hj Hl Hne Hb). reflexivity.
  - intros e1 e2 g o tl Hi Hb. destruct (Hfit e1 e2) as (Hc & Hsum & Hs).
    rewrite (read_i2s_pcm_c_complete [(e1, d1 ++ stray); (e2, d2)] g o tl Hi Hc Hsum Hs).
    rewrite (gather_stray _ e1 d1 stray e2 d2 Hm Hj Hl Hne Hb). reflexivity.
Qed.

(** The first read delivers 600 bytes and two more; they are gone. *)
Lemma X5_witness :
  MainC.read_i2s_pcm MainC.globals0
    (i2s_oracle [(0, repeat 7 600 ++ [1; 2]); (0, repeat 9 424)]) =
  Some (mkRes tt
          (MainC.set_pcm_frame
             (MainC.set_i2s_raw MainC.globals0 (repeat 7 600 ++ repeat 9 424))
             (convert_frame (repeat 7 600 ++ repeat 9 424)))
          no_input []).
Proof.
  assert (H1 : (length (repeat 7 600) mod 4 = 0)%nat) by (rewrite repeat_length; reflexivity).
  assert (H2 : (0 < length [1; 2] < 4)%nat) by (cbn; lia).
  assert (H3 : (length (repeat 7 600) + length (repeat 9 424) = 1024)%nat)
    by (rewrite !repeat_length; reflexivity).
  assert (H4 : repeat 9 424 <> []) by discriminate.
  exact (proj2 (X5_part_of_a_sample_is_overwritten (repeat 7 600) [1; 2] (repeat 9 424)
                  H1 H2 H3 H4)
               0 0 MainC.globals0
               (i2s_oracle [(0, repeat 7 600 ++ [1; 2]); (0, repeat 9 424)])
               [] eq_refl eq_refl).
Defined.

(** ** One iteration of the loop: frames, LED, button *)

Lemma button_pressed_released ip g o :
  ginv ip g ->
  wp Part001.button_pressed
     (fun r => ginv ip (mem r) /\ out r = []
               /\ val r = Part001.debounced_state (mem r)) g o.
Proof.
  intros [Hf Hi]. unfold Part001.button_pressed. wp_run.
  destruct (debounce_keeps (v =? 0) (int64_t t) g) as (E1 & E2 & _).
  unfold ginv. rewrite E1, E2. auto.
Qed.

Lemma wait_release_released ip fuel : forall g o,
  ginv ip g ->
  wp (Part001.wait_release fuel)
     (fun r => ginv ip (mem r) /\ out r = []
               /\ Part001.debounced_state (mem r) = false) g o.
Proof.
  induction fuel as [| n IH]; intros g o Hg; [exact I |].
  cbn [Part001.wait_release]. apply wp_bind.
  eapply wp_mono; [apply (button_pressed_released ip); exact Hg |].
  cbn beta. intros r1 (Hg1 & Ho1 & Hv1). destruct (val r1) eqn:Ev.
  - wp_run. eapply wp_mono; [apply IH; exact Hg1 |].
    cbn. intros r (Hg2 & Ho2 & Hr2). rewrite Ho1, Ho2. auto.
  - wp_run. cbn. rewrite Ho1. auto.
Qed.

Lemma leds_after_app c a b : leds_after c (a ++ b) = leds_after (leds_after c a) b.
Proof. apply fold_left_app. Qed.

Lemma leds_after_logs evs : forall c, Forall is_log evs -> leds_after c evs = c.
Proof.
  induction evs as [| e tl IH]; intros c H; [reflexivity |].
  pose proof (Forall_inv H) as He. destruct e; try contradiction.
  cbn. apply IH. exact (Forall_inv_tail H).
Qed.

Lemma logs_are_whole_units evs : Forall is_log evs -> Forall is_whole_unit evs.
Proof.
  intros H. eapply Forall_impl; [| exact H].
  intros e He. destruct e; try contradiction; exact I.
Qed.

Lemma frame_is_whole_unit fd pcm rc :
  length pcm = 256%nat -> is_whole_unit (EvSend fd (frame_bytes pcm) rc).
Proof. intros H. right. rewrite frame_bytes_length, H. reflexivity. Qed.

(** [tcp_connect] sends nothing and leaves the LED alone. *)
Lemma connect_trace_quiet ip s evs :
  connect_trace ip s evs ->
  Forall is_whole_unit evs /\ forall c, leds_after c evs = c.
Proof.
  intros [(fd & _ & _ & ->) | [(fd & rc & _ & _ & _ & ->) | (_ & ->)]];
    split; try reflexivity; repeat constructor.
Qed.

Ltac p2_step ip :=
  lazymatch goal with
  | |- wp Part001.button_pressed _ _ _ =>
      eapply wp_mono; [apply (button_pressed_released ip); assumption
                      | cbn beta; intros ? (? & ? & ?)]
  | |- wp Part001.read_i2s_pcm _ _ _ =>
      eapply wp_mono; [apply (read_i2s_pcm_wp ip); assumption | cbn beta; intros ? [? ?]]
  | |- wp Part001.led_flash_red _ _ _ =>
      let E := fresh "E" in
      eapply wp_mono; [apply led_flash_red_wp | cbn beta; intros ? [E ?]; rewrite E; clear E]
  | |- wp (Part001.wait_release _) _ _ _ =>
      eapply wp_mono; [apply (wait_release_released ip); assumption
                      | cbn beta; intros ? (? & ? & ?)]
  | |- wp Part001.tcp_connect _ _ _ =>
      let E := fresh "E" in
      eapply wp_mono; [apply tcp_connect_trace | cbn beta; intros ? [E ?]; rewrite E; clear E]
  | |- wp led_off _ _ _ => unfold led_off
  | |- wp led_solid_blue _ _ _ => unfold led_solid_blue
  | |- wp led_solid_green _ _ _ => unfold led_solid_green
  | _ => wp_step
  end.

Ltac eval_leds :=
  unfold leds_after;
  cbn [fold_left led_write app red_flash leds_off led_r led_g led_b
       PIN_LED_R PIN_LED_G PIN_LED_B Z.eqb Pos.eqb];
  cbn [Part001.state Part001.led_on Part001.set_state Part001.set_sock
       Part001.to_idle Part001.enter_wait Part001.set_process_start Part001.set_blink
       MainC.state MainC.led_on MainC.set_state MainC.set_sock
       MainC.to_idle MainC.enter_wait MainC.set_blink shows].

Ltac whole_units :=
  rewrite ?Forall_app; repeat split;
  repeat first
    [ assumption
    | apply Forall_nil
    | apply Forall_cons
    | exact I
    | apply frame_is_whole_unit;
      match goal with
      | H : ginv _ ?g |- _ = 256%nat => exact (proj1 H)
      | H : ginv_c ?g |- _ = 256%nat => exact H
      end
    | left; reflexivity ].

Ltac leaf2 :=
  repeat match goal with
  | H : connect_trace _ _ (out ?r) |- _ =>
      let Hw := fresh "Hw" in
      let Hl := fresh "Hl" in
      destruct (connect_trace_quiet _ _ _ H) as [Hw Hl]; clear H
  end;
  (split; [assumption |]);
  (split; [whole_units |]);
  rewrite ?leds_after_app;
  repeat match goal with
  | Hl : forall c, leds_after c (out ?r) = c |- _ => rewrite Hl; clear Hl
  end;
  eval_leds;
  repeat match goal with
  | E : Part001.state _ = _ |- _ => rewrite E
  | E : MainC.state _ = _ |- _ => rewrite E
  end;
  cbn [shows];
  repeat split;
  try reflexivity;
  try (intros; congruence);
  try match goal with
  | |- context [if ?b then _ else _] => destruct b; reflexivity
  end.

Lemma tick_more_ok ip l g o c :
  ginv ip g ->
  shows (Part001.state l) (Part001.led_on l) c ->
  wp (Part001.tick l) (tick_more ip l c) g o.
Proof.
  intros Hg Hc. unfold Part001.tick, tick_more.
  destruct (Part001.state l) eqn:Hst; cbn [shows] in Hc; subst c.
  - repeat p2_step ip.
    all: cbn [after val mem rest out app]; norm_vals.
    all: leaf2.
  - repeat p2_step ip.
    all: cbn [after val mem rest out app]; norm_vals.
    all: leaf2.
  - repeat p2_step ip.
    all: cbn [after val mem rest out app]; norm_vals.
    all: leaf2.
  - repeat p2_step ip.
    all: cbn [after val mem rest out app]; norm_vals.
    all: leaf2.
Qed.

Ltac c2_step :=
  lazymatch goal with
  | |- wp (MainC.tcp_connect _) _ _ _ =>
      let E := fresh "E" in
      eapply wp_mono; [apply tcp_connect_c_trace | cbn beta; intros ? [E ?]; rewrite E; clear E]
  | _ => c_step
  end.

Lemma tick_more_c_ok ip l g o c :
  ginv_c g ->
  shows (MainC.state l) (MainC.led_on l) c ->
  wp (MainC.tick ip l) (tick_more_c l c) g o.
Proof.
  intros Hg Hc. unfold MainC.tick, tick_more_c.
  destruct (MainC.state l) eqn:Hst; cbn [shows] in Hc; subst c.
  - repeat c2_step.
    all: cbn [after val mem rest out app]; norm_vals.
    all: leaf2.
  - repeat c2_step.
    all: cbn [after val mem rest out app]; norm_vals.
    all: leaf2.
  - repeat c2_step.
    all: cbn [after val mem rest out app]; norm_vals.
    all: leaf2.
  - repeat c2_step.
    all: cbn [after val mem rest out app]; norm_vals.
    all: leaf2.
Qed.

(** ** Runs of the loop: frames and LED *)

Lemma run_more_ok ip n : forall l g o c,
  ginv ip g ->
  shows (Part001.state l) (Part001.led_on l) c ->
  wp (Part001.run n l)
     (fun r => ginv ip (mem r)
               /\ Forall is_whole_unit (out r)
               /\ shows (Part001.state (val r)) (Part001.led_on (val r))
                        (leds_after c (out r))) g o.
Proof.
  induction n as [| n IH]; intros l g o c Hg Hc; cbn [Part001.run].
  - apply wp_ret. cbn. auto.
  - apply wp_bind. eapply wp_mono; [apply (tick_more_ok ip l g o c Hg Hc) |].
    cbn beta. intros r1 (Hg1 & Hw1 & Hc1 & _).
    eapply wp_mono; [apply (IH (val r1) (mem r1) (rest r1) _ Hg1 Hc1) |].
    cbn beta. intros r2 (Hg2 & Hw2 & Hc2).
    cbn [after val mem rest out]. rewrite leds_after_app.
    split; [exact Hg2 |]. split; [apply Forall_app; auto | exact Hc2].
Qed.

Lemma run_more_c_ok ip n : forall l g o c,
  ginv_c g ->
  shows (MainC.state l) (MainC.led_on l) c ->
  wp (MainC.run ip n l)
     (fun r => ginv_c (mem r)
               /\ Forall is_whole_unit (out r)
               /\ shows (MainC.state (val r)) (MainC.led_on (val r))
                        (leds_after c (out r))) g o.
Proof.
  induction n as [| n IH]; intros l g o c Hg Hc; cbn [MainC.run].
  - apply wp_ret. cbn. auto.
  - apply wp_bind. eapply wp_mono; [apply (tick_more_c_ok ip l g o c Hg Hc) |].
    cbn beta. intros r1 (Hg1 & Hw1 & Hc1).
    eapply wp_mono; [apply (IH (val r1) (mem r1) (rest r1) _ Hg1 Hc1) |].
    cbn beta. intros r2 (Hg2 & Hw2 & Hc2).
    cbn [after val mem rest out]. rewrite leds_after_app.
    split; [exact Hg2 |]. split; [apply Forall_app; auto | exact Hc2].
Qed.

(** ** Start-up: the LED is switched off and only log lines follow *)

Lemma resolve_loop_logs ipstr fuel : forall attempt g o,
  wp (Part001.resolve_loop ipstr fuel attempt) (fun r => Forall is_log (out r)) g o.
Proof.
  induction fuel as [| n IH]; intros attempt g o; [exact I |].
  cbn [Part001.resolve_loop]. wp_run.
  - cbn. repeat constructor.
  - eapply wp_mono; [apply IH |]. cbn. intros r Hr. repeat constructor. exact Hr.
  - constructor.
Qed.

Lemma resolve_server_logs SERVER_IP ipstr g o :
  wp (Part001.resolve_server SERVER_IP ipstr) (fun r => Forall is_log (out r)) g o.
Proof.
  unfold Part001.resolve_server, Part001.resolve_mdns_hostname. wp_run.
  all: try (cbn in Heqb0; discriminate Heqb0).
  - cbn. repeat constructor.
  - eapply wp_mono; [apply (resolve_loop_logs ipstr) |].
    cbn beta. intros r Hr.
    destruct (negb (val r)) eqn:Hv; wp_run; cbn.
    + apply Forall_app. split; [exact Hr | repeat constructor].
    + apply Forall_app. split; [exact Hr | constructor].
Qed.

Lemma discard_frames_logs ip k : forall g o,
  ginv ip g ->
  wp (Part001.discard_frames k) (fun r => Forall is_log (out r)) g o.
Proof.
  induction k as [| k IH]; intros g o Hg; cbn [Part001.discard_frames].
  - apply wp_ret. constructor.
  - apply wp_bind. eapply wp_mono; [apply (read_i2s_pcm_wp ip _ _ Hg) |].
    cbn beta. intros r1 [Hg1 Ho1].
    eapply wp_mono; [apply (IH _ _ Hg1) |].
    cbn. intros r2 Ho2. apply Forall_app. split; [| exact Ho2].
    rewrite Ho1. destruct (val r1); repeat constructor.
Qed.

(** What [app_main] of [part_001] has done when it enters its loop. *)
Lemma startup_shape SERVER_IP ipstr g o :
  length (Part001.pcm_frame g) = 256%nat ->
  wp (Part001.startup SERVER_IP ipstr)
     (fun r => val r = Part001.locals0
               /\ ginv (Part001.resolved_ip (mem r)) (mem r)
               /\ exists logs, out r = leds_off ++ logs /\ Forall is_log logs) g o.
Proof.
  intros Hg. unfold Part001.startup, led_off. wp_run.
  eapply wp_mono; [apply (wp_elim_both _ _ _ _ _
                            (resolve_server_wp SERVER_IP ipstr g o Hg)
                            (resolve_server_logs SERVER_IP ipstr g o)) |].
  cbn beta. intros r [[H1 _] H2].
  assert (Hgi : ginv (Part001.resolved_ip (mem r)) (mem r)) by (split; [exact H1 | reflexivity]).
  apply wp_bind.
  eapply wp_mono; [apply (wp_elim_both _ _ _ _ _
                            (discard_frames_wp _ 8 _ _ Hgi)
                            (discard_frames_logs _ 8 _ _ Hgi)) |].
  cbn beta. intros r2 [[H4 _] H6]. wp_run. cbn [app].
  split; [reflexivity |]. split; [split; [apply H4 | reflexivity] |].
  eexists. split; [reflexivity |].
  constructor; [exact I |]. apply Forall_app. split; [exact H2 |].
  apply Forall_app. split; [exact H6 | repeat constructor].
Qed.

Lemma app_main_more SERVER_IP ipstr n o c :
  wp (Part001.app_main SERVER_IP ipstr n)
     (fun r => Forall is_whole_unit (out r)
               /\ shows (Part001.state (val r)) (Part001.led_on (val r))
                        (leds_after c (out r)))
     Part001.globals0 o.
Proof.
  unfold Part001.app_main. apply wp_bind.
  eapply wp_mono; [apply startup_shape; reflexivity |].
  cbn beta. intros r1 (Hv & Hg & logs & Ho & Hl). rewrite Hv.
  eapply wp_mono;
    [apply (run_more_ok (Part001.resolved_ip (mem r1)) n Part001.locals0 _ _
                        (mkLeds 0 0 0) Hg); reflexivity |].
  cbn beta. intros r2 (_ & Hw & Hc).
  cbn [after val mem rest out]. rewrite Ho. split.
  - apply Forall_app. split; [| exact Hw].
    apply Forall_app. split; [repeat constructor | apply logs_are_whole_units; exact Hl].
  - rewrite !leds_after_app, (leds_after_logs logs _ Hl).
    replace (leds_after c leds_off) with (mkLeds 0 0 0) by reflexivity.
    exact Hc.
Qed.

Lemma app_main_more_c SERVER_IP n o c :
  wp (MainC.app_main SERVER_IP n)
     (fun r => Forall is_whole_unit (out r)
               /\ shows (MainC.state (val r)) (MainC.led_on (val r))
                        (leds_after c (out r)))
     MainC.globals0 o.
Proof.
  unfold MainC.app_main, MainC.startup, led_off. wp_run.
  eapply wp_mono; [apply discard_frames_c_wp; reflexivity |].
  cbn beta. intros r1 [Hg1 Ho1]. wp_run.
  eapply wp_mono;
    [apply (run_more_c_ok SERVER_IP n MainC.locals0 _ _ (mkLeds 0 0 0) Hg1); reflexivity |].
  cbn beta. intros r2 (_ & Hw & Hc).
  cbn [after val mem rest out]. rewrite Ho1. cbn [app]. split.
  - repeat constructor. exact Hw.
  - change (leds_after c (EvGpioSet PIN_LED_R 0 :: EvGpioSet PIN_LED_G 0
                          :: EvGpioSet PIN_LED_B 0
                          :: EvLog LOG_I "Waiting for WiFi..."
                          :: EvLog LOG_I "Ready — press button to talk" :: out r2))
      with (leds_after (mkLeds 0 0 0) (out r2)).
    exact Hc.
Qed.

(** X6. The firmware never asks for part of a frame to be sent: in every
    run of [app_main], whatever the environment does, the buffer handed to
    each call of [send] is either the 4-byte end marker or one whole frame
    of exactly 512 bytes ([PCM_FRAME_LEN] samples of two bytes). This is
    about what [send] is given, not about the number of bytes it reports
    as written. Both revisions. *)
Theorem X6_sends_are_frames_or_the_marker :
  (forall SERVER_IP ipstr n o r,
     Part001.app_main SERVER_IP ipstr n Part001.globals0 o = Some r ->
     Forall is_whole_unit (out r))
  /\ (forall SERVER_IP n o r,
        MainC.app_main SERVER_IP n MainC.globals0 o = Some r ->
        Forall is_whole_unit (out r)).
Proof.
  split.
  - intros SERVER_IP ipstr n o r Hr.
    exact (proj1 (wp_elim _ _ _ _ _
                    (app_main_more SERVER_IP ipstr n o (mkLeds 0 0 0)) Hr)).
  - intros SERVER_IP n o r Hr.
    exact (proj1 (wp_elim _ _ _ _ _ (app_main_more_c SERVER_IP n o (mkLeds 0 0 0)) Hr)).
Qed.

(** Press, record, release, press again: three frames went out. *)
Lemma X6_witness :
  let r := the (mkRes Part001.locals0 Part001.globals0 no_input [])
               (Part001.app_main demo_server_ip demo_ipstr 6 Part001.globals0
                                 (with_startup resume_scenario)) in
  count is_frame_send (out r) = 3%nat /\ Forall is_whole_unit (out r).
Proof.
  cbv zeta. split; [vm_compute; reflexivity |].
  apply (proj1 X6_sends_are_frames_or_the_marker demo_server_ip demo_ipstr 6%nat
           (with_startup resume_scenario)).
  vm_compute. reflexivity.
Defined.

(** X7. The LED shows the state. At every turn of the loop of [app_main],
    whatever the LED pins held before start-up, the levels last written to
    them are: all low in IDLE; blue alone in RECORDING; red and green low
    and blue as [led_on] says in WAIT; green alone in PROCESSING. In
    particular the red of an error flash never stays on. Both revisions. *)
Theorem X7_led_shows_the_state :
  (forall SERVER_IP ipstr n o r c,
     Part001.app_main SERVER_IP ipstr n Part001.globals0 o = Some r ->
     shows (Part001.state (val r)) (Part001.led_on (val r)) (leds_after c (out r)))
  /\ (forall SERVER_IP n o r c,
        MainC.app_main SERVER_IP n MainC.globals0 o = Some r ->
        shows (MainC.state (val r)) (MainC.led_on (val r)) (leds_after c (out r))).
Proof.
  split.
  - intros SERVER_IP ipstr n o r c Hr.
    exact (proj2 (wp_elim _ _ _ _ _ (app_main_more SERVER_IP ipstr n o c) Hr)).
  - intros SERVER_IP n o r c Hr.
    exact (proj2 (wp_elim _ _ _ _ _ (app_main_more_c SERVER_IP n o c) Hr)).
Qed.

(** After the first frame could not be sent and the red flash is over, the
    machine is in IDLE and the LED is dark, whatever it showed at boot. *)
Lemma X7_witness :
  let r := the (mkRes Part001.locals0 Part001.globals0 no_input [])
               (Part001.app_main demo_server_ip demo_ipstr 3 Part001.globals0
                                 (with_startup aborted_session)) in
  Part001.state (val r) = STATE_IDLE
  /\ In (EvGpioSet PIN_LED_R 1) (out r)
  /\ shows (Part001.state (val r)) (Part001.led_on (val r))
           (leds_after (mkLeds 1 1 1) (out r)).
Proof.
  cbv zeta. split; [vm_compute; reflexivity |]. split; [vm_compute; auto 40 |].
  apply (proj1 X7_led_shows_the_state demo_server_ip demo_ipstr 3%nat
           (with_startup aborted_session)).
  vm_compute. reflexivity.
Defined.

(** ** Descriptors *)

Lemma observe_balanced m e m' :
  observe m e = Some m' -> balanced m -> balanced m'.
Proof.
  unfold balanced. destruct m as [k ns no nc]. cbn [link_of sockets_made closed].
  destruct e; cbn [observe link_of sockets_made opened closed].
  - intros [= <-]. auto.
  - intros [= <-]. auto.
  - destruct k; try discriminate. destruct (fd <? 0); intros [= <-]; cbn; lia.
  - destruct k; try discriminate. destruct (fd =? fd0); [| discriminate].
    destruct (rc =? 0); intros [= <-]; cbn; lia.
  - destruct k; try discriminate. destruct (fd =? fd0); [| discriminate].
    destruct (is_marker buf); intros [= <-]; cbn; lia.
  - destruct k; try discriminate. destruct (fd =? fd0); [| discriminate].
    intros [= <-]. auto.
  - destruct k; try discriminate. destruct (fd =? fd0); [| discriminate].
    intros [= <-]. auto.
  - destruct k; try discriminate; (destruct (fd =? fd0); [| discriminate]);
      intros [= <-]; cbn; lia.
Qed.

Lemma observe_all_balanced tr : forall m m',
  observe_all m tr = Some m' -> balanced m -> balanced m'.
Proof.
  induction tr as [| e tl IH]; intros m m' H Hb; cbn [observe_all] in H.
  - injection H as <-. exact Hb.
  - destruct (observe m e) as [m1 |] eqn:E; [| discriminate].
    exact (IH _ _ H (observe_balanced _ _ _ E Hb)).
Qed.

Lemma held_by_state st sk tr m :
  observe_all monitor0 tr = Some m ->
  agrees st sk (link_of m) ->
  descriptors_held tr = (if state_eqb st STATE_IDLE then 0 else 1).
Proof.
  intros Ho Ha.
  pose proof (observe_all_balanced _ _ _ Ho eq_refl) as Hb.
  destruct (observe_counts _ _ _ Ho) as (_ & Hc & Hs).
  cbn [monitor0 closed sockets_made Nat.add] in Hc, Hs.
  unfold descriptors_held, balanced in *. rewrite <- Hc, <- Hs, Hb.
  destruct st; cbn [agrees state_eqb] in *; destruct Ha as [-> _]; lia.
Qed.

(** X8. Descriptors are accounted for: at every turn of the loop of
    [app_main], the number of descriptors [socket()] has handed out less
    the number of [close()] calls is 0 when the machine is in IDLE and 1
    otherwise. Both revisions, every environment. *)
Theorem X8_one_descriptor_per_session :
  (forall SERVER_IP ipstr n o r,
     Part001.app_main SERVER_IP ipstr n Part001.globals0 o = Some r ->
     descriptors_held (out r) =
     (if state_eqb (Part001.state (val r)) STATE_IDLE then 0 else 1))
  /\ (forall SERVER_IP n o r,
        MainC.app_main SERVER_IP n MainC.globals0 o = Some r ->
        descriptors_held (out r) =
        (if state_eqb (MainC.state (val r)) STATE_IDLE then 0 else 1)).
Proof.
  split.
  - intros SERVER_IP ipstr n o r Hr.
    destruct (wp_elim _ _ _ _ _ (app_main_ok SERVER_IP ipstr n o) Hr)
      as (ip & _ & _ & m & Ho & Ha).
    exact (held_by_state _ _ _ _ Ho Ha).
  - intros SERVER_IP n o r Hr.
    destruct (wp_elim _ _ _ _ _ (app_main_ok_c SERVER_IP n o) Hr)
      as (_ & _ & m & Ho & Ha).
    exact (held_by_state _ _ _ _ Ho Ha).
Qed.

(** A session that was aborted: one descriptor made, one closed. *)
Lemma X8_witness :
  let r := the (mkRes Part001.locals0 Part001.globals0 no_input [])
               (Part001.app_main demo_server_ip demo_ipstr 3 Part001.globals0
                                 (with_startup aborted_session)) in
  count is_socket (out r) = 1%nat
  /\ descriptors_held (out r) =
     (if state_eqb (Part001.state (val r)) STATE_IDLE then 0 else 1).
Proof.
  cbv zeta. split; [vm_compute; reflexivity |].
  apply (proj1 X8_one_descriptor_per_session demo_server_ip demo_ipstr 3%nat
           (with_startup aborted_session)).
  vm_compute. reflexivity.
Defined.

(** ** Where the connections go *)

Lemma app_main_resolves SERVER_IP ipstr n o r :
  Part001.app_main SERVER_IP ipstr n Part001.globals0 o = Some r ->
  exists rs, Part001.resolve_server SERVER_IP ipstr Part001.globals0 o = Some rs.
Proof.
  intros Hr.
  destruct (Part001.resolve_server SERVER_IP ipstr Part001.globals0 o) as [rs |] eqn:E;
    [eauto |].
  exfalso. revert Hr.
  unfold Part001.app_main, Part001.startup, led_off.
  unfold bind at 1 2 3 4 5 6. unfold gpio_set_level, ESP_LOGI, emit.
  cbn [val mem rest out]. rewrite E. discriminate.
Qed.

(** X9. All connections of a run go to one address and to port 12345. In
    [main.c] the address is [SERVER_IP]. In [part_001] it is the content of
    [resolved_ip] as [resolve_server] left it at start-up, which no later
    code changes: the state machine neither resolves again nor falls back
    later. *)
Theorem X9_one_destination_per_run :
  (forall SERVER_IP n o r,
     MainC.app_main SERVER_IP n MainC.globals0 o = Some r ->
     Forall (uses_ip SERVER_IP) (out r))
  /\ (forall SERVER_IP ipstr n o r,
        Part001.app_main SERVER_IP ipstr n Part001.globals0 o = Some r ->
        exists rs,
          Part001.resolve_server SERVER_IP ipstr Part001.globals0 o = Some rs
          /\ Part001.resolved_ip (mem r) = Part001.resolved_ip (mem rs)
          /\ Forall (uses_ip (Part001.resolved_ip (mem rs))) (out r)).
Proof.
  split.
  - intros SERVER_IP n o r Hr.
    exact (proj1 (proj2 (wp_elim _ _ _ _ _ (app_main_ok_c SERVER_IP n o) Hr))).
  - intros SERVER_IP ipstr n o r Hr.
    destruct (app_main_resolves _ _ _ _ _ Hr) as [rs Hrs]. exists rs.
    split; [exact Hrs |].
    destruct (wp_elim _ _ _ _ _ (app_main_uses_resolved SERVER_IP ipstr n o rs Hrs) Hr)
      as ([_ Hip] & Hu & _).
    split; [exact Hip | exact Hu].
Qed.

(** [main.c] connects to the configured address. *)
Lemma X9_witness :
  let r := the (mkRes MainC.locals0 MainC.globals0 no_input [])
               (MainC.app_main demo_server_ip 3 MainC.globals0
                               (with_startup (release_then_silence 4))) in
  In (EvConnect 3 demo_server_ip SERVER_PORT 0) (out r)
  /\ Forall (uses_ip demo_server_ip) (out r).
Proof.
  cbv zeta. split; [vm_compute; auto 20 |].
  apply (proj1 X9_one_destination_per_run demo_server_ip 3%nat
           (with_startup (release_then_silence 4))).
  vm_compute. reflexivity.
Defined.

(** ** The arrows of the state machine *)

(** X10. The loop takes only the arrows of the state machine: from IDLE to
    IDLE or RECORDING; from RECORDING to RECORDING, WAIT or IDLE; from WAIT
    anywhere; from PROCESSING to PROCESSING or IDLE. So PROCESSING is
    entered from WAIT only and left for IDLE only, and recording never
    starts from PROCESSING. Along the way the descriptor stays the same
    while the machine is out of IDLE. Both revisions, from the start of
    the loop, whatever the environment does. *)
Theorem X10_only_the_arrows_of_the_machine :
  (forall ip n g o r,
     ginv ip g ->
     visited n Part001.locals0 g o = Some r ->
     walk (STATE_IDLE, -1) (val r))
  /\ (forall ip n g o r,
        ginv_c g ->
        visited_c ip n MainC.locals0 g o = Some r ->
        walk (STATE_IDLE, -1) (val r)).
Proof.
  split.
  - intros ip n g o r Hg Hr.
    exact (proj1 (wp_elim _ _ _ _ _
                    (visited_ok ip n Part001.locals0 g o monitor0
                                (conj eq_refl eq_refl) Hg) Hr)).
  - intros ip n g o r Hg Hr.
    exact (proj1 (wp_elim _ _ _ _ _
                    (visited_ok_c ip n MainC.locals0 g o monitor0
                                  (conj eq_refl eq_refl) Hg) Hr)).
Qed.

Lemma X10_witness :
  let r := the (mkRes [] Part001.globals0 no_input [])
               (visited 6 Part001.locals0 Part001.globals0 resume_scenario) in
  map fst (val r) = [STATE_IDLE; STATE_RECORDING; STATE_RECORDING; STATE_WAIT;
                     STATE_WAIT; STATE_RECORDING]
  /\ walk (STATE_IDLE, -1) (val r).
Proof.
  cbv zeta. split; [vm_compute; reflexivity |].
  apply (proj1 X10_only_the_arrows_of_the_machine EmptyString 6%nat
           Part001.globals0 resume_scenario).
  - split; reflexivity.
  - vm_compute. reflexivity.
Defined.

(** ** Start-up *)

Lemma read_i2s_pcm_c_reads g o :
  wp MainC.read_i2s_pcm
     (fun r => exists reads, frame_read_unchecked 0 g o r reads) g o.
Proof.
  unfold MainC.read_i2s_pcm. apply wp_with_fuel. intros n.
  apply read_loop_unchecked_sound. unfold PCM_FRAME_LEN. lia.
Qed.

Lemma discard_frames_c_reads k : forall g o,
  wp (MainC.discard_frames k)
     (fun r => out r = []
               /\ rest r = set_i2s_in o (i2s_in (rest r))
               /\ exists reads, i2s_in o = reads ++ i2s_in (rest r)
                                /\ samples_of reads = Z.of_nat k * PCM_FRAME_LEN) g o.
Proof.
  induction k as [| k IH]; intros g o; cbn [MainC.discard_frames].
  - apply wp_ret. cbn [out rest]. split; [reflexivity |].
    split; [destruct o; reflexivity |]. exists []. split; reflexivity.
  - apply wp_bind. eapply wp_mono; [apply read_i2s_pcm_c_reads |].
    cbn beta. intros r1 (reads1 & Hi1 & Hr1 & _ & _ & Hs1 & _ & _ & Ho1).
    eapply wp_mono; [apply IH |].
    cbn beta. intros r2 (Ho2 & Hr2 & reads2 & Hi2 & Hs2).
    cbn [after val mem rest out]. rewrite Ho1, Ho2.
    split; [reflexivity |].
    split; [rewrite Hr2 at 1; rewrite Hr1; reflexivity |].
    exists (reads1 ++ reads2). rewrite <- app_assoc, <- Hi2, <- Hi1.
    split; [reflexivity |]. rewrite samples_of_app, Hs2. lia.
Qed.

Lemma read_i2s_pcm_reads g o :
  wp Part001.read_i2s_pcm (fun r => exists reads, frame_read 0 g o r reads) g o.
Proof.
  unfold Part001.read_i2s_pcm. apply wp_with_fuel. intros n.
  apply read_loop_sound. unfold PCM_FRAME_LEN. lia.
Qed.

Lemma discard_frames_reads k : forall g o,
  wp (Part001.discard_frames k)
     (fun r => rest r = set_i2s_in o (i2s_in (rest r))
               /\ exists reads,
                    i2s_in o = reads ++ i2s_in (rest r)
                    /\ (Forall (fun rd => fst rd = ESP_OK) reads ->
                        samples_of reads = Z.of_nat k * PCM_FRAME_LEN)) g o.
Proof.
  induction k as [| k IH]; intros g o; cbn [Part001.discard_frames].
  - apply wp_ret. cbn [out rest].
    split; [destruct o; reflexivity |]. exists []. split; reflexivity.
  - apply wp_bind. eapply wp_mono; [apply read_i2s_pcm_reads |].
    cbn beta. intros r1 (reads1 & Hi1 & Hr1 & _ & _ & Hv1).
    eapply wp_mono; [apply IH |].
    cbn beta. intros r2 (Hr2 & reads2 & Hi2 & Hs2).
    cbn [after val mem rest out].
    split; [rewrite Hr2 at 1; rewrite Hr1; reflexivity |].
    exists (reads1 ++ reads2). rewrite <- app_assoc, <- Hi2, <- Hi1.
    split; [reflexivity |]. intros Hok. apply Forall_app in Hok. destruct Hok as [Ok1 Ok2].
    rewrite samples_of_app, (Hs2 Ok2).
    destruct (val r1).
    + destruct Hv1 as (_ & Hsum & _). lia.
    + destruct Hv1 as (_ & (p & last & -> & Hne & _) & _).
      apply Forall_app in Ok1. destruct Ok1 as [_ Ok1].
      exfalso. exact (Hne (Forall_inv Ok1)).
Qed.

Lemma resolve_loop_keeps_i2s ipstr fuel : forall attempt g o,
  wp (Part001.resolve_loop ipstr fuel attempt)
     (fun r => i2s_in (rest r) = i2s_in o) g o.
Proof.
  induction fuel as [| n IH]; intros attempt g o; [exact I |].
  cbn [Part001.resolve_loop]. wp_run; try reflexivity.
  eapply wp_mono; [apply IH |]. cbn. auto.
Qed.

Lemma resolve_server_keeps_i2s SERVER_IP ipstr g o :
  wp (Part001.resolve_server SERVER_IP ipstr)
     (fun r => i2s_in (rest r) = i2s_in o) g o.
Proof.
  unfold Part001.resolve_server, Part001.resolve_mdns_hostname. wp_run.
  all: try (cbn in Heqb0; discriminate Heqb0).
  - reflexivity.
  - eapply wp_mono; [apply (resolve_loop_keeps_i2s ipstr) |].
    cbn beta. intros r Hr. destruct (negb (val r)); wp_run; exact Hr.
Qed.

(** X11. Start-up throws away eight frames of the microphone before the
    loop begins. From [led_off()] to the loop, [app_main] of [main.c] takes
    from the I2S driver reads that hold exactly 8 * 256 = 2048 whole
    samples, takes no other input (no button level, no clock reading, no
    answer of a socket call), and enters the loop with the initial loop
    variables: IDLE, [sock = -1]. In [part_001] the reads taken hold 2048
    samples whenever none of them reported an error. *)
Theorem X11_startup_discards_eight_frames :
  (forall g o r,
     MainC.startup g o = Some r ->
     val r = MainC.locals0
     /\ rest r = set_i2s_in o (i2s_in (rest r))
     /\ exists reads, i2s_in o = reads ++ i2s_in (rest r)
                      /\ samples_of reads = 8 * PCM_FRAME_LEN)
  /\ (forall SERVER_IP ipstr g o r,
        Part001.startup SERVER_IP ipstr g o = Some r ->
        exists reads, i2s_in o = reads ++ i2s_in (rest r)
                      /\ (Forall (fun rd => fst rd = ESP_OK) reads ->
                          samples_of reads = 8 * PCM_FRAME_LEN)).
Proof.
  split.
  - intros g o r Hr.
    assert (W : wp MainC.startup
                  (fun r => val r = MainC.locals0
                            /\ rest r = set_i2s_in o (i2s_in (rest r))
                            /\ exists reads, i2s_in o = reads ++ i2s_in (rest r)
                                             /\ samples_of reads = 8 * PCM_FRAME_LEN) g o).
    { unfold MainC.startup, led_off. wp_run.
      eapply wp_mono; [apply discard_frames_c_reads |].
      cbn beta. intros r1 (Ho1 & Hr1 & reads & Hi & Hs). wp_run.
      split; [reflexivity |].
      split; [exact Hr1 |]. exists reads. split; [exact Hi | exact Hs]. }
    exact (wp_elim _ _ _ _ _ W Hr).
  - intros SERVER_IP ipstr g o r Hr.
    assert (W : wp (Part001.startup SERVER_IP ipstr)
                  (fun r => exists reads,
                       i2s_in o = reads ++ i2s_in (rest r)
                       /\ (Forall (fun rd => fst rd = ESP_OK) reads ->
                           samples_of reads = 8 * PCM_FRAME_LEN)) g o).
    { unfold Part001.startup, led_off. wp_run.
      eapply wp_mono; [apply resolve_server_keeps_i2s |].
      cbn beta. intros r1 Hi1. apply wp_bind.
      eapply wp_mono; [apply (discard_frames_reads 8) |].
      cbn beta. intros r2 (_ & reads & Hi2 & Hs). wp_run.
      exists reads. rewrite <- Hi1. split; [exact Hi2 | exact Hs]. }
    exact (wp_elim _ _ _ _ _ W Hr).
Qed.

(** The driver delivers eight full reads and a ninth, which is left. *)
Lemma X11_witness :
  let o := i2s_oracle (repeat silent_read 9) in
  let r := the (mkRes MainC.locals0 MainC.globals0 no_input []) (MainC.startup MainC.globals0 o) in
  i2s_in (rest r) = [silent_read]
  /\ exists reads, i2s_in o = reads ++ i2s_in (rest r)
                   /\ samples_of reads = 8 * PCM_FRAME_LEN.
Proof.
  cbv zeta. split; [vm_compute; reflexivity |].
  apply (proj1 X11_startup_discards_eight_frames MainC.globals0
           (i2s_oracle (repeat silent_read 9))).
  vm_compute. reflexivity.
Defined.

(** ** The resolved address fits its buffer *)

Lemma substring_length n : forall s, (String.length (substring 0 n s) <= n)%nat.
Proof.
  induction n as [| n IH]; intros s; destruct s as [| a s]; cbn; try lia.
  specialize (IH s). lia.
Qed.

Lemma substring_whole n : forall s, (String.length s <= n)%nat -> substring 0 n s = s.
Proof.
  induction n as [| n IH]; intros s H; destruct s as [| a s]; cbn in *; try reflexivity;
    try lia.
  rewrite IH by lia. reflexivity.
Qed.

Lemma resolve_loop_stores ipstr fuel : forall attempt g o,
  wp (Part001.resolve_loop ipstr fuel attempt)
     (fun r => val r = true ->
               exists addr, Part001.resolved_ip (mem r) = Part001.fit64 (ipstr addr)) g o.
Proof.
  induction fuel as [| n IH]; intros attempt g o; [exact I |].
  cbn [Part001.resolve_loop]. wp_run.
  - intros _. exists (snd q). reflexivity.
  - eapply wp_mono; [apply IH |]. cbn. auto.
  - discriminate.
Qed.

Lemma resolve_server_stores SERVER_IP ipstr g o :
  wp (Part001.resolve_server SERVER_IP ipstr)
     (fun r => (exists addr, Part001.resolved_ip (mem r) = Part001.fit64 (ipstr addr))
               \/ Part001.resolved_ip (mem r) = Part001.fit64 SERVER_IP) g o.
Proof.
  unfold Part001.resolve_server, Part001.resolve_mdns_hostname. wp_run.
  all: try (cbn in Heqb0; discriminate Heqb0).
  - right. reflexivity.
  - eapply wp_mono; [apply (resolve_loop_stores ipstr) |].
    cbn beta. intros r Hr. destruct (val r) eqn:Ev; cbn [negb]; wp_run.
    + left. apply Hr. reflexivity.
    + right. reflexivity.
Qed.

(** X12. The address used for connecting always fits the 64-byte buffer
    [resolved_ip]: after start-up it is either an address that mDNS
    resolved or the configured [SERVER_IP], cut to at most 63 characters
    (and left whole when it has no more than 63), and every connection of
    the run goes to it. *)
Theorem X12_resolved_address_fits_its_buffer :
  (forall s, (String.length (Part001.fit64 s) <= 63)%nat
             /\ ((String.length s <= 63)%nat -> Part001.fit64 s = s))
  /\ (forall SERVER_IP ipstr n o r,
        Part001.app_main SERVER_IP ipstr n Part001.globals0 o = Some r ->
        (String.length (Part001.resolved_ip (mem r)) <= 63)%nat
        /\ ((exists addr, Part001.resolved_ip (mem r) = Part001.fit64 (ipstr addr))
            \/ Part001.resolved_ip (mem r) = Part001.fit64 SERVER_IP)
        /\ Forall (uses_ip (Part001.resolved_ip (mem r))) (out r)).
Proof.
  split.
  - intros s. unfold Part001.fit64. split; [apply substring_length | apply substring_whole].
  - intros SERVER_IP ipstr n o r Hr.
    destruct (app_main_resolves _ _ _ _ _ Hr) as [rs Hrs].
    destruct (wp_elim _ _ _ _ _ (app_main_uses_resolved SERVER_IP ipstr n o rs Hrs) Hr)
      as ([_ Hip] & Hu & _).
    pose proof (wp_elim _ _ _ _ _ (resolve_server_stores SERVER_IP ipstr _ o) Hrs) as Hst.
    rewrite Hip. split; [| split; [exact Hst | exact Hu]].
    destruct Hst as [[addr ->] | ->]; unfold Part001.fit64; apply substring_length.
Qed.

(** mDNS is not available: the configured address is used, whole. *)
Lemma X12_witness :
  let o := set_i2s_in mdns_unavailable (repeat silent_read 8) in
  let r := the (mkRes Part001.locals0 Part001.globals0 no_input [])
               (Part001.app_main demo_server_ip demo_ipstr 0 Part001.globals0 o) in
  Part001.resolved_ip (mem r) = demo_server_ip
  /\ (String.length (Part001.resolved_ip (mem r)) <= 63)%nat.
Proof.
  cbv zeta. split; [vm_compute; reflexivity |].
  apply (proj2 X12_resolved_address_fits_its_buffer demo_server_ip demo_ipstr 0%nat
           (set_i2s_in mdns_unavailable (repeat silent_read 8))).
  vm_compute. reflexivity.
Defined.

(** ** A press in IDLE *)

Lemma connect_trace_failed ip s evs :
  connect_trace ip s evs -> (s <? 0) = true -> s = -1 /\ connect_trace ip (-1) evs.
Proof.
  intros H Hs. pose proof H as H'.
  destruct H as [(fd & _ & -> & _) | [(fd & rc & _ & _ & -> & _) | (H0 & _)]];
    [auto | auto | apply Z.ltb_lt in Hs; lia].
Qed.

Lemma connect_trace_made ip s evs :
  connect_trace ip s evs -> (s <? 0) = false ->
  0 <= s /\ evs = [EvSocket s; EvConnect s ip SERVER_PORT 0;
                   EvLog LOG_I "Connected to server"].
Proof.
  intros [(fd & _ & -> & _) | [(fd & rc & _ & _ & -> & _) | (H0 & ->)]] Hs;
    [discriminate Hs | discriminate Hs | auto].
Qed.

Lemma idle_tick_part001 ip l g o :
  ginv ip g ->
  Part001.state l = STATE_IDLE ->
  wp (Part001.tick l)
     (fun r => exists pressed,
          idle_outcome ip red_flash (Part001.state (val r)) (Part001.sock (val r))
                       pressed (out r)
          /\ (Part001.state (val r) = STATE_IDLE -> Part001.debounced_state (mem r) = false)
          /\ (Part001.state (val r) = STATE_RECORDING ->
              Part001.debounced_state (mem r) = true)) g o.
Proof.
  intros Hg Hst. unfold Part001.tick.
  destruct (Part001.state l) eqn:Est; try discriminate Hst.
  repeat p2_step ip.
  all: cbn [after val mem rest out app]; norm_vals.
  all: cbn [Part001.state Part001.sock Part001.set_sock Part001.set_state].
  all: try rewrite Est.
  - replace (Part001.resolved_ip (mem r)) with ip in H2 by (symmetry; apply H).
    destruct (connect_trace_failed _ _ _ H2 Heqb0) as [Ev Ht].
    exists true. split; [| split; [auto | discriminate]].
    right. left. rewrite app_nil_r. repeat split; try assumption.
    exists (out r0). auto.
  - replace (Part001.resolved_ip (mem r)) with ip in H2 by (symmetry; apply H).
    destruct (connect_trace_made _ _ _ H2 Heqb0) as [Ev ->].
    exists true. split; [| split; [discriminate | auto]].
    right. right. repeat split. exact Ev.
  - exists false. split; [| split; [auto | discriminate]].
    left. auto.
Qed.

Lemma wait_release_c_polls fuel : forall g o,
  wp (MainC.wait_release fuel)
     (fun r => mem r = g /\ out r = []
               /\ rest r = set_gpio_in o (gpio_in (rest r))
               /\ exists held, polls_taken o (rest r) held true) g o.
Proof.
  induction fuel as [| n IH]; intros g o; [exact I |].
  cbn [MainC.wait_release]. unfold MainC.button_pressed. wp_run.
  - eapply wp_mono; [apply IH |]. cbn beta.
    intros r (Hm & Ho & Hr & held & lvl & Hl & Hg).
    cbn [after val mem rest out app gpio_in set_gpio_in] in *.
    split; [exact Hm |]. split; [exact Ho |].
    split; [rewrite Hr at 1; destruct o; reflexivity |].
    exists (S held), lvl. split; [exact Hl |].
    apply Z.eqb_eq in Heqb. subst v. rewrite H, Hg. reflexivity.
  - cbn [gpio_in set_gpio_in]. repeat split.
    exists O, v. split; [apply Z.eqb_neq; exact Heqb | exact H].
Qed.

Lemma tcp_connect_c_keeps_gpio ip g o :
  wp (MainC.tcp_connect ip)
     (fun r => gpio_in (rest r) = gpio_in o
               /\ rest r = set_connects (set_sockets o (sockets (rest r)))
                                        (connects (rest r))) g o.
Proof.
  unfold MainC.tcp_connect. wp_run; cbn; split; try reflexivity; destruct o; reflexivity.
Qed.

Lemma idle_tick_main_c ip l g o :
  MainC.state l = STATE_IDLE ->
  wp (MainC.tick ip l)
     (fun r => mem r = g
               /\ exists pressed held,
                    idle_outcome ip [] (MainC.state (val r)) (MainC.sock (val r))
                                 pressed (out r)
                    /\ polls_taken o (rest r) held
                                   (state_eqb (MainC.state (val r)) STATE_IDLE)
                    /\ (pressed = true -> (1 <= held)%nat)
                    /\ (pressed = false -> held = O)) g o.
Proof.
  intros Hst. unfold MainC.tick.
  destruct (MainC.state l) eqn:Est; try discriminate Hst.
  unfold MainC.button_pressed. wp_run.
  - apply Z.eqb_eq in Heqb. subst v.
    eapply wp_mono; [apply (wp_elim_both _ _ _ _ _ (tcp_connect_c_trace ip g _)
                                         (tcp_connect_c_keeps_gpio ip g _)) |].
    cbn beta. intros r1 [[Hm1 Ht1] [Hg1 _]]. rewrite Hm1.
    destruct (val r1 <? 0) eqn:Hv; unfold led_solid_blue; wp_run.
    + eapply wp_mono; [apply wait_release_c_polls |]. cbn beta.
      intros r2 (Hm2 & Ho2 & _ & held & lvl & Hl & Hp). wp_run.
      cbn [MainC.state MainC.sock MainC.set_sock MainC.set_state]. rewrite Est.
      cbn [state_eqb polls_taken gpio_in set_gpio_in] in *.
      destruct (connect_trace_failed _ _ _ Ht1 Hv) as [Ev Ht].
      split; [exact Hm2 |]. exists true, (S held).
      split; [| split; [| split; [intros _; lia | discriminate]]].
      * right. left. rewrite Ho2, !app_nil_r. repeat split; try assumption.
        exists (out r1). rewrite app_nil_r. auto.
      * exists lvl. split; [exact Hl |]. cbn [repeat app].
        rewrite H, <- Hp, Hg1. reflexivity.
    + cbn [MainC.state MainC.sock MainC.set_sock MainC.set_state].
      cbn [state_eqb polls_taken gpio_in set_gpio_in] in *.
      destruct (connect_trace_made _ _ _ Ht1 Hv) as [Ev ->].
      split; [reflexivity |]. exists true, 1%nat.
      split; [| split; [| split; [intros _; lia | discriminate]]].
      * right. right. repeat split. exact Ev.
      * rewrite H, Hg1. reflexivity.
  - rewrite Est. cbn [state_eqb polls_taken gpio_in set_gpio_in].
    split; [reflexivity |]. exists false, O.
    split; [| split; [| split; [discriminate | reflexivity]]].
    + left. auto.
    + exists v. split; [apply Z.eqb_neq; exact Heqb | exact H].
Qed.

(** X13. A press in IDLE leads to exactly one connection attempt, and a
    failed attempt is not repeated while the button stays down. An
    iteration that starts in IDLE does nothing when the button is not
    pressed. When it is pressed, [tcp_connect] runs once. If that fails the
    iteration (after the red flash, in [part_001]) keeps polling the button
    and ends, in IDLE with [sock = -1], only when the button reads
    released: in [part_001] the debounced level is released at the end; in
    [main.c] the levels it took from the pin read pressed [held] times and
    then released. If the connection is made the LED turns blue and the
    iteration ends in RECORDING with the descriptor in [sock]. *)
Theorem X13_failed_connect_waits_for_release :
  (forall ip l g o r,
     ginv ip g ->
     Part001.state l = STATE_IDLE ->
     Part001.tick l g o = Some r ->
     exists pressed,
       idle_outcome ip red_flash (Part001.state (val r)) (Part001.sock (val r))
                    pressed (out r)
       /\ (Part001.state (val r) = STATE_IDLE -> Part001.debounced_state (mem r) = false)
       /\ (Part001.state (val r) = STATE_RECORDING ->
           Part001.debounced_state (mem r) = true))
  /\ (forall ip l g o r,
        MainC.state l = STATE_IDLE ->
        MainC.tick ip l g o = Some r ->
        mem r = g
        /\ exists pressed held,
             idle_outcome ip [] (MainC.state (val r)) (MainC.sock (val r)) pressed (out r)
             /\ polls_taken o (rest r) held (state_eqb (MainC.state (val r)) STATE_IDLE)
             /\ (pressed = true -> (1 <= held)%nat)
             /\ (pressed = false -> held = O)).
Proof.
  split.
  - intros ip l g o r Hg Hst Hr.
    exact (wp_elim _ _ _ _ _ (idle_tick_part001 ip l g o Hg Hst) Hr).
  - intros ip l g o r Hst Hr.
    exact (wp_elim _ _ _ _ _ (idle_tick_main_c ip l g o Hst) Hr).
Qed.

Lemma X13_witness :
  let r := the (mkRes Part001.locals0 Part001.globals0 no_input [])
               (Part001.tick Part001.locals0 globals_pressed held_through_failure) in
  (Part001.state (val r) = STATE_IDLE /\ gpio_in (rest r) = []
   /\ count is_connect_call (out r) = 1%nat)
  /\ exists pressed,
       idle_outcome EmptyString red_flash (Part001.state (val r)) (Part001.sock (val r))
                    pressed (out r)
       /\ (Part001.state (val r) = STATE_IDLE -> Part001.debounced_state (mem r) = false)
       /\ (Part001.state (val r) = STATE_RECORDING ->
           Part001.debounced_state (mem r) = true).
Proof.
  cbv zeta. split; [vm_compute; auto |].
  apply (proj1 X13_failed_connect_waits_for_release EmptyString Part001.locals0
           globals_pressed held_through_failure).
  - split; reflexivity.
  - reflexivity.
  - vm_compute. reflexivity.
Defined.

(** ** Errors while a session is up *)

Lemma read_i2s_pcm_failed g o rr :
  Part001.read_i2s_pcm g o = Some rr -> val rr = false ->
  out rr = [EvLog LOG_W "i2s_channel_read error: %s"]
  /\ Part001.pcm_frame (mem rr) = Part001.pcm_frame g
  /\ rest rr = set_i2s_in o (i2s_in (rest rr))
  /\ exists p last, i2s_in o = p ++ last :: i2s_in (rest rr)
                    /\ fst last <> ESP_OK
                    /\ Forall (fun rd => fst rd = ESP_OK) p.
Proof.
  intros Hr Hv.
  destruct (wp_elim _ _ _ _ _ (read_i2s_pcm_reads g o) Hr)
    as (reads & Hi & Hrest & _ & _ & Hcase).
  rewrite Hv in Hcase. destruct Hcase as (Hp & (p & last & -> & Hne & Hok) & Ho).
  split; [exact Ho |]. split; [exact Hp |]. split; [exact Hrest |].
  exists p, last. rewrite <- app_assoc in Hi. auto.
Qed.

Lemma read_i2s_pcm_good g o rr :
  Part001.read_i2s_pcm g o = Some rr -> val rr = true -> out rr = [].
Proof.
  intros Hr Hv.
  destruct (wp_elim _ _ _ _ _ (read_i2s_pcm_reads g o) Hr)
    as (reads & _ & _ & _ & _ & Hcase).
  rewrite Hv in Hcase. apply Hcase.
Qed.

Lemma read_i2s_pcm_c_silent g o rr :
  MainC.read_i2s_pcm g o = Some rr -> out rr = [].
Proof.
  intros Hr.
  destruct (wp_elim _ _ _ _ _ (read_i2s_pcm_c_reads g o) Hr)
    as (reads & _ & _ & _ & _ & _ & _ & _ & Ho).
  exact Ho.
Qed.

(** X14. In [part_001] an I2S read error during RECORDING costs nothing but
    the frame: the iteration sends nothing, closes nothing, does not poll
    the button and leaves the state, the socket and [pcm_frame] as they
    were; it takes from the environment only the I2S reads up to the one
    that failed and logs two lines. (So a release of the button is noticed
    only after the next good frame.) *)
Theorem X14_i2s_error_keeps_the_session l g o rr :
  Part001.state l = STATE_RECORDING ->
  Part001.read_i2s_pcm g o = Some rr ->
  val rr = false ->
  Part001.tick l g o =
    Some (mkRes l (mem rr) (rest rr)
                [EvLog LOG_W "i2s_channel_read error: %s";
                 EvLog LOG_W "I2S read error, retrying..."])
  /\ Part001.pcm_frame (mem rr) = Part001.pcm_frame g
  /\ rest rr = set_i2s_in o (i2s_in (rest rr))
  /\ exists p last, i2s_in o = p ++ last :: i2s_in (rest rr)
                    /\ fst last <> ESP_OK
                    /\ Forall (fun rd => fst rd = ESP_OK) p.
Proof.
  intros Hst Hr Hv.
  destruct (read_i2s_pcm_failed g o rr Hr Hv) as (Ho & Hp & Hrest & Hreads).
  split; [| auto].
  apply wpt_exact. unfold Part001.tick. rewrite Hst.
  apply wpt_bind. eapply wpt_known; [exact Hr |].
  rewrite Hv. cbn [negb]. fwd.
  unfold after. cbn [val mem rest out]. rewrite Ho. reflexivity.
Qed.

(** The second read of a frame reports an error. *)
Lemma X14_witness :
  let l := Part001.mkLocals STATE_RECORDING 3 0 0 false 0 in
  let o := set_sends (i2s_oracle [(0, repeat 7 600); (-1, [])]) [512] in
  let rr := the (mkRes true Part001.globals0 no_input [])
                (Part001.read_i2s_pcm Part001.globals0 o) in
  Part001.tick l Part001.globals0 o =
    Some (mkRes l (mem rr) (rest rr)
                [EvLog LOG_W "i2s_channel_read error: %s";
                 EvLog LOG_W "I2S read error, retrying..."])
  /\ rest rr = set_sends no_input [512].
Proof.
  cbv zeta. split; [| vm_compute; reflexivity].
  apply (X14_i2s_error_keeps_the_session
           (Part001.mkLocals STATE_RECORDING 3 0 0 false 0) Part001.globals0
           (set_sends (i2s_oracle [(0, repeat 7 600); (-1, [])]) [512])).
  - reflexivity.
  - vm_compute. reflexivity.
  - vm_compute. reflexivity.
Defined.

Lemma wait_streams l g o now tb cl lvl gl rr rc sl :
  Part001.state l = STATE_WAIT ->
  clock o = now :: tb :: cl ->
  gpio_in o = lvl :: gl ->
  Part001.debounced_state (Part001.debounce (lvl =? 0) (int64_t tb) g) = false ->
  sub64 (int64_t now) (Part001.wait_start l) <= WAIT_TIMEOUT_US ->
  Part001.read_i2s_pcm (Part001.debounce (lvl =? 0) (int64_t tb) g)
                       (set_clock (set_gpio_in o gl) cl) = Some rr ->
  val rr = true ->
  sends (rest rr) = rc :: sl -> 0 <= rc ->
  Part001.tick l g o =
  Some (mkRes (blinked l (int64_t now)) (mem rr) (set_sends (rest rr) sl)
              (blink_events (Part001.led_on l) (Part001.last_blink l) (int64_t now)
               ++ [EvSend (Part001.sock l)
                          (frame_bytes (Part001.pcm_frame (mem rr))) rc])).
Proof.
  intros Hst Hc Hg Hb Hw Hr Hv Hs Hrc.
  apply wpt_exact. unfold Part001.tick. rewrite Hst. fwd.
  apply blink_step. cbn [after val mem rest out]. fwd.
  eapply wpt_known; [apply (button_pressed_eq g _ lvl tb gl cl); oracle_field |].
  cbn [after val mem rest out]. rewrite Hb.
  destruct (blinked_keeps l (int64_t now)) as (_ & Esk & Ews & _).
  rewrite Ews, Esk.
  destruct (Z.gtb_spec (sub64 (int64_t now) (Part001.wait_start l)) WAIT_TIMEOUT_US);
    [lia |].
  apply wpt_bind. eapply wpt_known; [exact Hr |].
  rewrite Hv. cbn [negb]. fwd. destruct (Z.ltb_spec rc 0); [lia |]. fwd.
  unfold after. cbn [val mem rest out app].
  rewrite (read_i2s_pcm_good _ _ _ Hr Hv). rewrite ?app_nil_r. reflexivity.
Qed.

Lemma wait_streams_c ip l g o now cl lvl gl rr rc sl :
  MainC.state l = STATE_WAIT ->
  clock o = now :: cl ->
  gpio_in o = lvl :: gl ->
  (lvl =? 0) = false ->
  sub64 (int64_t now) (MainC.wait_start l) <= WAIT_TIMEOUT_US ->
  MainC.read_i2s_pcm g (set_gpio_in (set_clock o cl) gl) = Some rr ->
  sends (rest rr) = rc :: sl -> 0 <= rc ->
  MainC.tick ip l g o =
  Some (mkRes (blinked_c l (int64_t now)) (mem rr) (set_sends (rest rr) sl)
              (blink_events (MainC.led_on l) (MainC.last_blink l) (int64_t now)
               ++ [EvSend (MainC.sock l)
                          (frame_bytes (MainC.pcm_frame (mem rr))) rc])).
Proof.
  intros Hst Hc Hg Hb Hw Hr Hs Hrc.
  apply wpt_exact. unfold MainC.tick. rewrite Hst. fwd.
  apply blink_step_c. cbn [after val mem rest out].
  unfold MainC.button_pressed. fwd. rewrite Hb.
  destruct (blinked_c_keeps l (int64_t now)) as (_ & Esk & Ews).
  rewrite Ews, Esk.
  destruct (Z.gtb_spec (sub64 (int64_t now) (MainC.wait_start l)) WAIT_TIMEOUT_US);
    [lia |].
  apply wpt_bind. eapply wpt_known; [exact Hr |]. fwd.
  destruct (Z.ltb_spec rc 0); [lia |]. fwd.
  unfold after. cbn [val mem rest out app].
  rewrite (read_i2s_pcm_c_silent _ _ _ Hr). rewrite ?app_nil_r. reflexivity.
Qed.

(** X15. The grace period is inclusive: while the button stays released and
    the clock reading of the iteration is no more than [WAIT_TIMEOUT_US]
    (3 s, the bound included) after [wait_start], an iteration in WAIT
    reads one more frame and sends it on the same socket, stays in WAIT and
    sends no end marker. Both revisions. *)
Theorem X15_wait_streams_until_the_grace_period_is_over :
  (forall l g o now tb cl lvl gl rr rc sl,
     Part001.state l = STATE_WAIT ->
     clock o = now :: tb :: cl ->
     gpio_in o = lvl :: gl ->
     Part001.debounced_state (Part001.debounce (lvl =? 0) (int64_t tb) g) = false ->
     sub64 (int64_t now) (Part001.wait_start l) <= WAIT_TIMEOUT_US ->
     Part001.read_i2s_pcm (Part001.debounce (lvl =? 0) (int64_t tb) g)
                          (set_clock (set_gpio_in o gl) cl) = Some rr ->
     val rr = true ->
     sends (rest rr) = rc :: sl -> 0 <= rc ->
     Part001.tick l g o =
     Some (mkRes (blinked l (int64_t now)) (mem rr) (set_sends (rest rr) sl)
                 (blink_events (Part001.led_on l) (Part001.last_blink l) (int64_t now)
                  ++ [EvSend (Part001.sock l)
                             (frame_bytes (Part001.pcm_frame (mem rr))) rc])))
  /\ (forall ip l g o now cl lvl gl rr rc sl,
        MainC.state l = STATE_WAIT ->
        clock o = now :: cl ->
        gpio_in o = lvl :: gl ->
        (lvl =? 0) = false ->
        sub64 (int64_t now) (MainC.wait_start l) <= WAIT_TIMEOUT_US ->
        MainC.read_i2s_pcm g (set_gpio_in (set_clock o cl) gl) = Some rr ->
        sends (rest rr) = rc :: sl -> 0 <= rc ->
        MainC.tick ip l g o =
        Some (mkRes (blinked_c l (int64_t now)) (mem rr) (set_sends (rest rr) sl)
                    (blink_events (MainC.led_on l) (MainC.last_blink l) (int64_t now)
                     ++ [EvSend (MainC.sock l)
                                (frame_bytes (MainC.pcm_frame (mem rr))) rc]))).
Proof.
  split.
  - intros l g o now tb cl lvl gl rr rc sl. apply wait_streams.
  - intros ip l g o now cl lvl gl rr rc sl. apply wait_streams_c.
Qed.

(** [main.c], released at 1.000000 s: at exactly 4.000000 s one more frame
    is sent and the state is still WAIT. *)
Lemma X15_witness :
  let l := MainC.mkLocals STATE_WAIT 3 1000000 true 4000000 in
  let o := mkOracle [1] [4000000] [] [] [silent_read] [512] [] [] [] [] in
  exists r, MainC.tick demo_server_ip l MainC.globals0 o = Some r
            /\ MainC.state (val r) = STATE_WAIT
            /\ out r = [EvSend 3 (frame_bytes (zeros 256)) 512].
Proof.
  cbv zeta. eexists. split.
  - apply (proj2 X15_wait_streams_until_the_grace_period_is_over demo_server_ip
             (MainC.mkLocals STATE_WAIT 3 1000000 true 4000000) MainC.globals0
             (mkOracle [1] [4000000] [] [] [silent_read] [512] [] [] [] [])
             4000000 [] 1 []
             (the (mkRes tt MainC.globals0 no_input [])
                  (MainC.read_i2s_pcm MainC.globals0
                     (mkOracle [] [] [] [] [silent_read] [512] [] [] [] [])))
             512 []);
      first [ vm_compute; reflexivity | vm_compute; discriminate ].
  - split; vm_compute; reflexivity.
Defined.

(** X16. A frame that cannot be sent ends the session at once. In
    RECORDING, when [send] of the frame just read returns a negative value,
    the iteration closes the socket, gives the error signal of the revision
    (the red flash in [part_001], LED off in [main.c]) and ends in IDLE
    with [sock = -1]; it does not poll the button, sends no end marker and
    does not try the frame again. *)
Theorem X16_failed_frame_send_ends_the_session :
  (forall l g o rr rc sl start mids fend cl,
     Part001.state l = STATE_RECORDING ->
     Part001.read_i2s_pcm g o = Some rr ->
     val rr = true ->
     sends (rest rr) = rc :: sl -> rc < 0 ->
     clock (rest rr) = start :: mids ++ fend :: cl ->
     flash_clock start mids fend ->
     Part001.tick l g o =
     Some (mkRes (Part001.to_idle l) (mem rr)
                 (set_clock (set_sends (rest rr) sl) cl)
                 ([EvSend (Part001.sock l) (frame_bytes (Part001.pcm_frame (mem rr))) rc;
                   EvLog LOG_E "send() failed, aborting";
                   EvClose (Part001.sock l)] ++ red_flash)))
  /\ (forall ip l g o rr rc sl,
        MainC.state l = STATE_RECORDING ->
        MainC.read_i2s_pcm g o = Some rr ->
        sends (rest rr) = rc :: sl -> rc < 0 ->
        MainC.tick ip l g o =
        Some (mkRes (MainC.to_idle l) (mem rr) (set_sends (rest rr) sl)
                    ([EvSend (MainC.sock l) (frame_bytes (MainC.pcm_frame (mem rr))) rc;
                      EvLog LOG_E "send() failed, aborting";
                      EvClose (MainC.sock l)] ++ leds_off))).
Proof.
  split.
  - intros l g o rr rc sl start mids fend cl Hst Hr Hv Hs Hrc Hc Hf.
    apply wpt_exact. unfold Part001.tick. rewrite Hst.
    apply wpt_bind. eapply wpt_known; [exact Hr |].
    rewrite Hv. cbn [negb]. fwd. destruct (Z.ltb_spec rc 0); [| lia]. fwd.
    eapply wpt_known; [apply (led_flash_red_eq _ _ start mids fend cl);
                       [oracle_field | exact Hf] |].
    cbn [after val mem rest out]. fwd.
    unfold after. cbn [val mem rest out app].
    rewrite (read_i2s_pcm_good _ _ _ Hr Hv). reflexivity.
  - intros ip l g o rr rc sl Hst Hr Hs Hrc.
    apply wpt_exact. unfold MainC.tick. rewrite Hst.
    apply wpt_bind. eapply wpt_known; [exact Hr |]. fwd.
    destruct (Z.ltb_spec rc 0); [| lia]. fwd.
    unfold after. cbn [val mem rest out app].
    rewrite (read_i2s_pcm_c_silent _ _ _ Hr). reflexivity.
Qed.

Lemma X16_witness :
  let l := MainC.mkLocals STATE_RECORDING 3 0 false 0 in
  let o := mkOracle [0] [] [] [] [silent_read] [-1] [] [] [] [] in
  exists r, MainC.tick demo_server_ip l MainC.globals0 o = Some r
            /\ MainC.state (val r) = STATE_IDLE /\ MainC.sock (val r) = -1
            /\ gpio_in (rest r) = [0]
            /\ count is_close (out r) = 1%nat.
Proof.
  cbv zeta. eexists. split.
  - apply (proj2 X16_failed_frame_send_ends_the_session demo_server_ip
             (MainC.mkLocals STATE_RECORDING 3 0 false 0) MainC.globals0
             (mkOracle [0] [] [] [] [silent_read] [-1] [] [] [] [])
             (the (mkRes tt MainC.globals0 no_input [])
                  (MainC.read_i2s_pcm MainC.globals0
                     (mkOracle [0] [] [] [] [silent_read] [-1] [] [] [] [])))
             (-1) []);
      first [ vm_compute; reflexivity | vm_compute; discriminate ].
  - repeat split; vm_compute; reflexivity.
Defined.

(** X17. An error of [select()] in PROCESSING ends the session: the
    iteration does not call [recv] and does not check the deadline, closes
    the socket, gives the error signal of the revision and ends in IDLE
    with [sock = -1]. *)
Theorem X17_select_error_ends_the_session :
  (forall l g o rc isset sl start mids fend cl,
     Part001.state l = STATE_PROCESSING ->
     selects o = (rc, isset) :: sl -> rc < 0 ->
     clock o = start :: mids ++ fend :: cl ->
     flash_clock start mids fend ->
     Part001.tick l g o =
     Some (mkRes (Part001.to_idle l) g (set_clock (set_selects o sl) cl)
                 ([EvSelect (Part001.sock l) rc;
                   EvLog LOG_E "select() error, returning to idle";
                   EvClose (Part001.sock l)] ++ red_flash)))
  /\ (forall ip l g o rc isset sl,
        MainC.state l = STATE_PROCESSING ->
        selects o = (rc, isset) :: sl -> rc < 0 ->
        MainC.tick ip l g o =
        Some (mkRes (MainC.to_idle l) g (set_selects o sl)
                    ([EvSelect (MainC.sock l) rc;
                      EvLog LOG_E "select() error, returning to idle";
                      EvClose (MainC.sock l)] ++ leds_off))).
Proof.
  split.
  - intros l g o rc isset sl start mids fend cl Hst Hs Hrc Hc Hf.
    apply wpt_exact. unfold Part001.tick. rewrite Hst. fwd.
    destruct (Z.gtb_spec rc 0); [lia |]. cbn [andb].
    destruct (Z.ltb_spec rc 0); [| lia]. fwd.
    eapply wpt_known; [apply (led_flash_red_eq _ _ start mids fend cl);
                       [oracle_field | exact Hf] |].
    cbn [after val mem rest out]. fwd.
    unfold after. cbn [val mem rest out app]. reflexivity.
  - intros ip l g o rc isset sl Hst Hs Hrc.
    apply wpt_exact. unfold MainC.tick. rewrite Hst. fwd.
    destruct (Z.gtb_spec rc 0); [lia |]. cbn [andb].
    destruct (Z.ltb_spec rc 0); [| lia]. fwd.
    unfold after. cbn [val mem rest out app]. reflexivity.
Qed.

Lemma X17_witness :
  Part001.tick (Part001.mkLocals STATE_PROCESSING 3 0 0 false 0) Part001.globals0
               (set_clock (set_recvs (set_selects no_input [(-1, true)]) [(1, 1)])
                          [1000; 501000]) =
  Some (mkRes (Part001.mkLocals STATE_IDLE (-1) 0 0 false 0) Part001.globals0
              (set_recvs no_input [(1, 1)])
              ([EvSelect 3 (-1); EvLog LOG_E "select() error, returning to idle";
                EvClose 3] ++ red_flash)).
Proof.
  apply (proj1 X17_select_error_ends_the_session
           (Part001.mkLocals STATE_PROCESSING 3 0 0 false 0) Part001.globals0
           (set_clock (set_recvs (set_selects no_input [(-1, true)]) [(1, 1)])
                      [1000; 501000])
           (-1) true [] 1000 [] 501000 []); try reflexivity.
  split; [constructor | vm_compute; discriminate].
Defined.

(** ** From the microphone to the wire *)

Lemma read_one_frame_c e d g o tl :
  length d = 1024%nat ->
  length (MainC.i2s_raw g) = 1024%nat ->
  i2s_in o = (e, d) :: tl ->
  MainC.read_i2s_pcm g o =
  Some (mkRes tt (MainC.set_pcm_frame (MainC.set_i2s_raw g d) (convert_frame d))
              (set_i2s_in o tl) []).
Proof.
  intros Hd Hb Hi.
  assert (Hw : Forall whole_samples [(e, d)]).
  { constructor; [| constructor]. split; cbn [snd]; [rewrite Hd; reflexivity |].
    destruct d; [discriminate Hd | discriminate]. }
  assert (Hl : length (stream_of [(e, d)]) = 1024%nat).
  { unfold stream_of. cbn [map concat snd]. rewrite app_nil_r. exact Hd. }
  destruct (samples_of_whole _ Hw) as [E _].
  assert (Hsum : samples_of [(e, d)] = PCM_FRAME_LEN) by (unfold PCM_FRAME_LEN; lia).
  destruct (whole_reads_fit [(e, d)] 0 ltac:(lia) Hw ltac:(lia)) as [Hc Hs].
  rewrite (read_i2s_pcm_c_complete [(e, d)] g o tl Hi Hc Hsum Hs).
  rewrite (gather_whole_frame _ _ Hw Hb Hl).
  unfold stream_of. cbn [map concat snd]. rewrite app_nil_r. reflexivity.
Qed.

Lemma read_one_frame d g o tl :
  length d = 1024%nat ->
  length (Part001.i2s_raw g) = 1024%nat ->
  i2s_in o = (ESP_OK, d) :: tl ->
  Part001.read_i2s_pcm g o =
  Some (mkRes true (Part001.set_pcm_frame (Part001.set_i2s_raw g d) (convert_frame d))
              (set_i2s_in o tl) []).
Proof.
  intros Hd Hb Hi.
  assert (Hw : Forall whole_samples [(ESP_OK, d)]).
  { constructor; [| constructor]. split; cbn [snd]; [rewrite Hd; reflexivity |].
    destruct d; [discriminate Hd | discriminate]. }
  assert (Hl : length (stream_of [(ESP_OK, d)]) = 1024%nat).
  { unfold stream_of. cbn [map concat snd]. rewrite app_nil_r. exact Hd. }
  destruct (samples_of_whole _ Hw) as [E _].
  assert (Hsum : samples_of [(ESP_OK, d)] = PCM_FRAME_LEN) by (unfold PCM_FRAME_LEN; lia).
  destruct (whole_reads_fit [(ESP_OK, d)] 0 ltac:(lia) Hw ltac:(lia)) as [Hc Hs].
  rewrite (read_i2s_pcm_complete [(ESP_OK, d)] g o tl Hi Hc ltac:(repeat constructor)
             Hsum Hs).
  rewrite (gather_whole_frame _ _ Hw Hb Hl).
  unfold stream_of. cbn [map concat snd]. rewrite app_nil_r. reflexivity.
Qed.

Lemma recording_streams_c ip frames : forall l g o gl il sl,
  MainC.state l = STATE_RECORDING ->
  Forall frame_goes_out frames ->
  length (MainC.i2s_raw g) = 1024%nat ->
  gpio_in o = repeat 0 (length frames) ++ gl ->
  i2s_in o = full_reads frames ++ il ->
  sends o = map snd frames ++ sl ->
  exists g',
    MainC.run ip (length frames) l g o =
    Some (mkRes l g' (set_sends (set_i2s_in (set_gpio_in o gl) il) sl)
                (streamed (MainC.sock l) frames))
    /\ length (MainC.i2s_raw g') = 1024%nat.
Proof.
  induction frames as [| [d rc] frames IH]; intros l g o gl il sl Hst Hf Hb Hg Hi Hs.
  - exists g. cbn in *. split; [| exact Hb].
    unfold ret. rewrite <- Hg, <- Hi, <- Hs. destruct o; reflexivity.
  - pose proof (Forall_inv Hf) as [Hd Hrc]. cbn [fst snd] in Hd, Hrc.
    cbn [length repeat app full_reads map fst snd] in Hg, Hi, Hs.
    set (g1 := MainC.set_pcm_frame (MainC.set_i2s_raw g d) (convert_frame d)).
    set (o1 := set_gpio_in (set_sends (set_i2s_in o (full_reads frames ++ il))
                                      (map snd frames ++ sl))
                           (repeat 0 (length frames) ++ gl)).
    destruct (IH l g1 o1 gl il sl Hst (Forall_inv_tail Hf)) as (g' & Hrun & Hb');
      try reflexivity.
    { unfold g1. cbn [MainC.i2s_raw MainC.set_pcm_frame MainC.set_i2s_raw].
      rewrite Hd. reflexivity. }
    exists g'. split; [| exact Hb'].
    apply wpt_exact. cbn [length MainC.run]. apply wpt_bind.
    unfold MainC.tick. rewrite Hst.
    apply wpt_bind. eapply wpt_known; [apply (read_one_frame_c ESP_OK d g o _ Hd Hb Hi) |].
    cbn [after val mem rest out]. fwd.
    destruct (Z.ltb_spec rc 0); [lia |].
    unfold MainC.button_pressed. fwd. cbn [Z.eqb negb]. fwd.
    eapply wpt_known; [exact Hrun |].
    unfold after, streamed, o1, g1.
    cbn [val mem rest out app map fst snd MainC.pcm_frame MainC.set_pcm_frame
         MainC.set_i2s_raw].
    destruct o; reflexivity.
Qed.

Lemma recording_streams ts : forall frames l g o gl cl il sl,
  Part001.state l = STATE_RECORDING ->
  Forall frame_goes_out frames ->
  length ts = length frames ->
  length (Part001.i2s_raw g) = 1024%nat ->
  Part001.debounced_state g = true ->
  gpio_in o = repeat 0 (length frames) ++ gl ->
  clock o = ts ++ cl ->
  i2s_in o = full_reads frames ++ il ->
  sends o = map snd frames ++ sl ->
  exists g',
    Part001.run (length frames) l g o =
    Some (mkRes l g'
                (set_clock (set_sends (set_i2s_in (set_gpio_in o gl) il) sl) cl)
                (streamed (Part001.sock l) frames))
    /\ length (Part001.i2s_raw g') = 1024%nat
    /\ Part001.debounced_state g' = true.
Proof.
  induction ts as [| t ts IH];
    intros frames l g o gl cl il sl Hst Hf Hlen Hb Hd Hg Hc Hi Hs;
    destruct frames as [| [d rc] frames]; try discriminate Hlen.
  - exists g. cbn in *. split; [| auto].
    unfold ret. rewrite <- Hg, <- Hc, <- Hi, <- Hs. destruct o; reflexivity.
  - pose proof (Forall_inv Hf) as [Hd1 Hrc]. cbn [fst snd] in Hd1, Hrc.
    cbn [length repeat app full_reads map fst snd] in Hg, Hi, Hs, Hc.
    set (g0 := Part001.set_pcm_frame (Part001.set_i2s_raw g d) (convert_frame d)).
    set (g1 := Part001.set_button g0 0 true).
    set (o1 := set_clock
                 (set_gpio_in (set_sends (set_i2s_in o (full_reads frames ++ il))
                                         (map snd frames ++ sl))
                              (repeat 0 (length frames) ++ gl))
                 (ts ++ cl)).
    destruct (IH frames l g1 o1 gl cl il sl Hst (Forall_inv_tail Hf))
      as (g' & Hrun & Hb' & Hd'); try reflexivity.
    { cbn [length] in Hlen. lia. }
    { unfold g1, g0.
      cbn [Part001.i2s_raw Part001.set_pcm_frame Part001.set_i2s_raw Part001.set_button].
      exact Hd1. }
    exists g'. split; [| auto].
    apply wpt_exact. cbn [length Part001.run]. apply wpt_bind.
    unfold Part001.tick. rewrite Hst.
    apply wpt_bind. eapply wpt_known; [apply (read_one_frame d g o _ Hd1 Hb Hi) |].
    cbn [after val mem rest out negb]. fwd.
    destruct (Z.ltb_spec rc 0); [lia |]. apply wpt_bind.
    eapply wpt_known;
      [apply (button_pressed_eq g0 _ 0 t (repeat 0 (length frames) ++ gl) (ts ++ cl));
       oracle_field |].
    cbn [after val mem rest out Z.eqb].
    assert (Eg : Part001.debounce true (int64_t t) g0 = g1).
    { unfold g1. rewrite <- Hd at 1.
      change (Part001.debounced_state g) with (Part001.debounced_state g0).
      rewrite debounce_same_level. unfold g0 at 2.
      cbn [Part001.debounced_state Part001.set_pcm_frame Part001.set_i2s_raw].
      rewrite Hd. reflexivity. }
    rewrite Eg. unfold g1 at 1. cbn [Part001.debounced_state Part001.set_button negb].
    fwd. eapply wpt_known; [exact Hrun |].
    unfold after, streamed, o1, g0.
    cbn [val mem rest out app map fst snd Part001.pcm_frame Part001.set_pcm_frame
         Part001.set_i2s_raw].
    destruct o; reflexivity.
Qed.

(** X18. What is recorded is what is sent. While the button stays pressed
    and every frame is accepted, each iteration in RECORDING turns one full
    read of the driver (1024 bytes) into one [send]: over any number of
    such iterations the events are exactly the sends of the converted
    frames, in order and on the session's socket, nothing else is sent or
    closed, the state and the loop variables are unchanged, and the
    environment has given exactly these reads, polls and send results. Both
    revisions; in [part_001] the button is debounced as pressed. *)
Theorem X18_recording_sends_what_the_driver_delivers (frames : list (list Z * Z)) :
  Forall frame_goes_out frames ->
  (forall ts l g o gl cl il sl,
     Part001.state l = STATE_RECORDING ->
     length ts = length frames ->
     length (Part001.i2s_raw g) = 1024%nat ->
     Part001.debounced_state g = true ->
     gpio_in o = repeat 0 (length frames) ++ gl ->
     clock o = ts ++ cl ->
     i2s_in o = full_reads frames ++ il ->
     sends o = map snd frames ++ sl ->
     exists g',
       Part001.run (length frames) l g o =
       Some (mkRes l g'
                   (set_clock (set_sends (set_i2s_in (set_gpio_in o gl) il) sl) cl)
                   (streamed (Part001.sock l) frames)))
  /\ (forall ip l g o gl il sl,
        MainC.state l = STATE_RECORDING ->
        length (MainC.i2s_raw g) = 1024%nat ->
        gpio_in o = repeat 0 (length frames) ++ gl ->
        i2s_in o = full_reads frames ++ il ->
        sends o = map snd frames ++ sl ->
        exists g',
          MainC.run ip (length frames) l g o =
          Some (mkRes l g' (set_sends (set_i2s_in (set_gpio_in o gl) il) sl)
                      (streamed (MainC.sock l) frames))).
Proof.
  intros Hf. split.
  - intros ts l g o gl cl il sl Hst Hlen Hb Hd Hg Hc Hi Hs.
    destruct (recording_streams ts frames l g o gl cl il sl Hst Hf Hlen Hb Hd Hg Hc Hi Hs)
      as (g' & Hrun & _).
    exists g'. exact Hrun.
  - intros ip l g o gl il sl Hst Hb Hg Hi Hs.
    destruct (recording_streams_c ip frames l g o gl il sl Hst Hf Hb Hg Hi Hs)
      as (g' & Hrun & _).
    exists g'. exact Hrun.
Qed.

(** Two frames in [main.c]; the third poll of the button is left. *)
Lemma X18_witness :
  let frames := [(repeat 0x12 1024, 512); (zeros 1024, 512)] in
  let l := MainC.mkLocals STATE_RECORDING 3 0 false 0 in
  let o := mkOracle [0; 0; 1] [] [] [] (full_reads frames) [512; 512] [] [] [] [] in
  exists g',
    MainC.run demo_server_ip (length frames) l MainC.globals0 o =
    Some (mkRes l g' (set_sends (set_i2s_in (set_gpio_in o [1]) []) [])
                (streamed 3 frames)).
Proof.
  cbv zeta.
  apply (proj2 (X18_recording_sends_what_the_driver_delivers
                  [(repeat 0x12 1024, 512); (zeros 1024, 512)]
                  ltac:(repeat constructor; discriminate))
           demo_server_ip (MainC.mkLocals STATE_RECORDING 3 0 false 0) MainC.globals0
           (mkOracle [0; 0; 1] [] [] []
                     (full_reads [(repeat 0x12 1024, 512); (zeros 1024, 512)])
                     [512; 512] [] [] [] [])
           [1] [] []); reflexivity.
Defined.

(** * The first version: one press, one connection *)

Lemma whole_samples_of_read (len : nat) :
  Z.of_nat len <= 1024 ->
  Z.to_nat (int32_t (Z.of_nat len / 4)) = (len / 4)%nat.
Proof.
  intros H.
  assert (E : Z.of_nat len / 4 = Z.of_nat (len / 4)).
  { change 4 with (Z.of_nat 4). symmetry. apply Nat2Z.inj_div. }
  rewrite E, int32_small, Nat2Z.id; [reflexivity |].
  unfold in_int32. rewrite <- E.
  pose proof (Z.div_pos (Z.of_nat len) 4 ltac:(lia) ltac:(lia)).
  pose proof (Z.div_le_upper_bound (Z.of_nat len) 4 256 ltac:(lia) ltac:(lia)). lia.
Qed.

Lemma convert_frame_size buf n pcm :
  length (frame_bytes (firstn n (Part000.convert buf n pcm))) = (2 * n)%nat.
Proof.
  rewrite frame_bytes_length. unfold Part000.convert.
  rewrite firstn_app, length_map, length_seq, Nat.sub_diag. cbn [firstn].
  rewrite app_nil_r, firstn_all2 by (rewrite length_map, length_seq; lia).
  rewrite length_map, length_seq. reflexivity.
Qed.

Lemma stream_sends fuel sock : forall g o,
  wp (Part000.stream fuel sock)
     (fun r => exists reads,
          i2s_in o = reads ++ i2s_in (rest r)
          /\ Forall (is_send_on sock) (out r)
          /\ sent_sizes (out r) = frame_sizes reads
          /\ Forall (fun rd => (length (snd rd) <= 1024)%nat) reads) g o.
Proof.
  induction fuel as [| n IH]; intros g o; [exact I |].
  cbn [Part000.stream]. unfold Part000.button_pressed. wp_run.
  - eapply wp_mono; [apply IH |]. cbn beta. intros r (reads & Hi & Hs & Hz & Hb).
    cbn [after val mem rest out app i2s_in set_i2s_in set_gpio_in] in *.
    exists ((err, data) :: reads). rewrite H0, Hi.
    split; [reflexivity |]. split; [exact Hs |].
    split; [| constructor; [cbn [snd]; lia | exact Hb]].
    unfold frame_sizes. cbn [filter fst].
    apply negb_true_iff in Heqb0. rewrite Heqb0. exact Hz.
  - eapply wp_mono; [apply IH |]. cbn beta. intros r (reads & Hi & Hs & Hz & Hb).
    cbn [after val mem rest out app i2s_in set_i2s_in set_gpio_in set_sends] in *.
    exists ((err, data) :: reads). rewrite H0, Hi.
    split; [reflexivity |]. split; [constructor; [reflexivity | exact Hs] |].
    split; [| constructor; [cbn [snd]; lia | exact Hb]].
    unfold frame_sizes. cbn [filter fst map snd sent_sizes flat_map app].
    apply negb_false_iff in Heqb0. rewrite Heqb0.
    cbn [map snd]. fold (sent_sizes (out r)). rewrite Hz.
    cbn [Part000.pcm_buf Part000.set_pcm_buf Part000.i2s_buf Part000.set_i2s_buf].
    rewrite whole_samples_of_read by exact H1.
    rewrite convert_frame_size. reflexivity.
  - exists []. cbn [app i2s_in set_gpio_in]. repeat split; constructor.
Qed.

Lemma wait_press_quiet fuel : forall g o,
  wp (Part000.wait_press fuel)
     (fun r => out r = [] /\ i2s_in (rest r) = i2s_in o) g o.
Proof.
  induction fuel as [| n IH]; intros g o; [exact I |].
  cbn [Part000.wait_press]. unfold Part000.button_pressed. wp_run.
  - eapply wp_mono; [apply IH |]. cbn. intros r [Ho Hi]. rewrite Ho. auto.
  - auto.
Qed.

Lemma wait_release_quiet fuel : forall g o,
  wp (Part000.wait_release fuel)
     (fun r => out r = [] /\ i2s_in (rest r) = i2s_in o) g o.
Proof.
  induction fuel as [| n IH]; intros g o; [exact I |].
  cbn [Part000.wait_release]. unfold Part000.button_pressed. wp_run.
  - eapply wp_mono; [apply IH |]. cbn. intros r [Ho Hi]. rewrite Ho. auto.
  - auto.
Qed.

Lemma session_spec ip g o :
  wp (Part000.session ip)
     (fun r => exists reads,
          i2s_in o = reads ++ i2s_in (rest r)
          /\ session_trace ip reads (out r)) g o.
Proof.
  unfold Part000.session. wp_run.
  eapply wp_mono; [apply wait_press_quiet |]. cbn beta. intros r0 [Ho0 Hi0].
  rewrite Ho0. wp_run. unfold Part000.tcp_connect. wp_run.
  all: try match goal with H : (-1 <? 0) = false |- _ => discriminate H end.
  all: try congruence.
  - (* socket() failed *)
    eapply wp_mono; [apply wait_release_quiet |]. cbn beta. intros r1 [Ho1 Hi1].
    cbn [after val mem rest out app i2s_in set_sockets] in *.
    exists []. rewrite Ho1, Hi1, Hi0. split; [reflexivity |].
    left. exists (int32_t fd). repeat split. apply Z.ltb_lt. assumption.
  - (* connect() failed *)
    eapply wp_mono; [apply wait_release_quiet |]. cbn beta. intros r1 [Ho1 Hi1].
    cbn [after val mem rest out app i2s_in set_sockets set_connects] in *.
    exists []. rewrite Ho1, Hi1, Hi0. split; [reflexivity |].
    right. left. exists (int32_t fd), rc. repeat split.
    + apply Z.ltb_ge. assumption.
    + apply Z.eqb_neq. apply negb_true_iff. exact Heqb0.
  - (* connected *)
    eapply wp_mono; [apply stream_sends |]. cbn beta.
    intros r1 (reads & Hi1 & Hs1 & Hz1 & Hb1). wp_run.
    cbn [after val mem rest out app i2s_in set_sockets set_connects set_sends] in *.
    exists reads. rewrite <- Hi0. split; [exact Hi1 |].
    right. right. exists (int32_t fd), (out r1), rc0.
    apply negb_false_iff in Heqb0. apply Z.eqb_eq in Heqb0. subst rc.
    split; [apply Z.ltb_ge; assumption |]. split; [exact Hs1 |].
    split; [exact Hz1 |]. split; [exact Hb1 |]. reflexivity.
Qed.



Lemma descriptors_held_app a b :
  descriptors_held (a ++ b) = descriptors_held a + descriptors_held b.
Proof. unfold descriptors_held. rewrite !count_app. lia. Qed.

Lemma sends_hold_nothing fd frames :
  Forall (is_send_on fd) frames ->
  descriptors_held frames = 0 /\ count is_open frames = O.
Proof.
  induction 1 as [| e tl He _ [IH1 IH2]]; [split; reflexivity |].
  destruct e; try contradiction.
  unfold descriptors_held, count in *. cbn [filter is_socket is_close is_open].
  auto.
Qed.

Lemma session_trace_closed ip reads evs :
  session_trace ip reads evs ->
  descriptors_held evs = 0 /\ (count is_open evs <= 1)%nat.
Proof.
  intros [(fd & Hfd & _ & ->) | [(fd & rc & Hfd & Hrc & _ & ->)
                                | (fd & frames & rc & Hfd & Hs & _ & _ & ->)]].
  - unfold descriptors_held, count. cbn [filter is_socket is_close is_open].
    destruct (Z.ltb_spec fd 0); [cbn; split; [reflexivity | lia] | lia].
  - unfold descriptors_held, count. cbn [filter is_socket is_close is_open].
    destruct (Z.ltb_spec fd 0); [lia |]. apply Z.eqb_neq in Hrc. rewrite Hrc.
    cbn. split; [reflexivity | lia].
  - destruct (sends_hold_nothing fd frames Hs) as [H1 H2].
    rewrite !descriptors_held_app, !count_app, H1, H2.
    unfold descriptors_held, count. cbn [filter is_socket is_close is_open].
    destruct (Z.ltb_spec fd 0); [lia |]. cbn. split; [reflexivity | lia].
Qed.

Lemma run_closes_all ip n : forall g o,
  wp (Part000.run ip n)
     (fun r => descriptors_held (out r) = 0 /\ (count is_open (out r) <= n)%nat) g o.
Proof.
  induction n as [| n IH]; intros g o; cbn [Part000.run].
  - apply wp_ret. split; [reflexivity | cbn; lia].
  - apply wp_bind. eapply wp_mono; [apply session_spec |]. cbn beta.
    intros r1 (reads & _ & Ht).
    destruct (session_trace_closed _ _ _ Ht) as [H1 H2].
    eapply wp_mono; [apply IH |]. cbn beta. intros r2 [H3 H4].
    cbn [after val mem rest out]. rewrite descriptors_held_app, count_app. lia.
Qed.

Lemma discard_reads_quiet k : forall g o,
  wp (Part000.discard_reads k) (fun r => out r = []) g o.
Proof.
  induction k as [| k IH]; intros g o; cbn [Part000.discard_reads]; wp_run;
    [reflexivity |].
  eapply wp_mono; [apply IH |]. cbn. auto.
Qed.

(** X19. In the first version one press is one connection. A turn of the
    loop of [part_000] either fails to connect and sends nothing, or makes
    one connection on which it sends one frame per read that reported no
    error, of two bytes per whole sample the read delivered (a read holds
    at most 1024 bytes, so a frame has any even size up to 512 bytes, also
    none), then the 4-byte end marker, then closes it. The results of
    [send] are not looked at: the marker is sent and the socket closed also
    when every [send] failed. Over any number of turns every descriptor
    made has been closed, and no turn opens more than one connection. *)
Theorem X19_first_version_one_connection_per_press :
  (forall ip g o r,
     Part000.session ip g o = Some r ->
     exists reads,
       i2s_in o = reads ++ i2s_in (rest r)
       /\ session_trace ip reads (out r))
  /\ (forall ip n g o r,
        Part000.app_main ip n g o = Some r ->
        descriptors_held (out r) = 0 /\ (count is_open (out r) <= n)%nat).
Proof.
  split.
  - intros ip g o r Hr. exact (wp_elim _ _ _ _ _ (session_spec ip g o) Hr).
  - intros ip n g o r Hr.
    assert (W : wp (Part000.app_main ip n)
                  (fun r => descriptors_held (out r) = 0
                            /\ (count is_open (out r) <= n)%nat) g o).
    { unfold Part000.app_main, Part000.startup. wp_run.
      eapply wp_mono; [apply discard_reads_quiet |]. cbn beta. intros r1 Ho1.
      wp_run. eapply wp_mono; [apply run_closes_all |]. cbn beta. intros r2 [H1 H2].
      rewrite Ho1. cbn [app]. split; [exact H1 | exact H2]. }
    exact (wp_elim _ _ _ _ _ W Hr).
Qed.

(** A read of 600 bytes gives a frame of 300 bytes, the failed read gives
    none, a read of 6 bytes gives a frame of 2 bytes; all three sends
    fail and the socket is closed all the same. *)
Lemma X19_witness :
  let r := the (mkRes tt Part000.globals0 no_input [])
               (Part000.session demo_server_ip Part000.globals0 short_reads) in
  (sent_sizes (out r) = [300; 2; 4]%nat /\ count is_close (out r) = 1%nat)
  /\ exists reads,
       i2s_in short_reads = reads ++ i2s_in (rest r)
       /\ session_trace demo_server_ip reads (out r).
Proof.
  cbv zeta. split; [split; vm_compute; reflexivity |].
  apply (proj1 X19_first_version_one_connection_per_press demo_server_ip
           Part000.globals0 short_reads).
  vm_compute. reflexivity.
Defined.

(** ** The deadline of PROCESSING, in general *)

(** X20. The deadline of PROCESSING in [part_001], in general. With no
    byte arriving ([select] timing out), the machine stays in PROCESSING
    and closes nothing over every run of iterations whose clock readings
    are at most 120 s after [process_start], the time stamp taken on entry
    to PROCESSING; the first iteration whose reading is more than 120 s
    after it closes the socket, exactly once, and ends in IDLE with
    [sock = -1]. *)
Theorem X20_processing_ends_120_s_after_process_start (ts : list Z) :
  forall l g o sl tlate start mids fend cl,
    Part001.state l = STATE_PROCESSING ->
    0 <= Part001.process_start l ->
    selects o = repeat (0, false) (length ts) ++ (0, false) :: sl ->
    clock o = ts ++ tlate :: start :: mids ++ fend :: cl ->
    Forall (fun t => Part001.process_start l <= t
                     <= Part001.process_start l + RECV_DEADLINE_US) ts ->
    Part001.process_start l + RECV_DEADLINE_US < tlate < 2 ^ 63 ->
    flash_clock start mids fend ->
    (exists r, Part001.run (length ts) l g o = Some r
               /\ val r = l /\ count is_close (out r) = O)
    /\ exists r, Part001.run (S (length ts)) l g o = Some r
                 /\ Part001.state (val r) = STATE_IDLE
                 /\ Part001.sock (val r) = -1
                 /\ filter is_close (out r) = [EvClose (Part001.sock l)].
Proof.
  intros l g o sl tlate start mids fend cl Hst Hp Hsel Hc Hall Hlate Hf.
  destruct (part001_timeout_law ts l g o sl tlate start mids fend cl
              Hst Hp Hsel Hc Hall Hlate Hf) as [H1 (r & Hr & Hs & Hk & Hcl & _)].
  split; [exact H1 |]. exists r.
  split; [exact Hr |]. split; [exact Hs |]. split; [exact Hk |]. exact Hcl.
Qed.

(** [part_001], PROCESSING entered at 4.000003 s: three timeouts within the
    deadline, the fourth reading is 124.000004 s. *)
Lemma X20_witness :
  let l := Part001.mkLocals STATE_PROCESSING 3 1000000 4000003 true 4000001 in
  let o := mkOracle [] [4100003; 64000003; 124000003; 124000004; 124000005; 124500005]
                    [] [] [] [] (repeat (0, false) 4) [] [] [] in
  (exists r, Part001.run 3 l Part001.globals0 o = Some r
             /\ val r = l /\ count is_close (out r) = O)
  /\ exists r, Part001.run 4 l Part001.globals0 o = Some r
               /\ Part001.state (val r) = STATE_IDLE
               /\ Part001.sock (val r) = -1
               /\ filter is_close (out r) = [EvClose 3].
Proof.
  cbv zeta.
  apply (X20_processing_ends_120_s_after_process_start
           [4100003; 64000003; 124000003]
           (Part001.mkLocals STATE_PROCESSING 3 1000000 4000003 true 4000001)
           Part001.globals0
           (mkOracle [] [4100003; 64000003; 124000003; 124000004; 124000005; 124500005]
                     [] [] [] [] (repeat (0, false) 4) [] [] [])
           [] 124000004 124000005 [] 124500005 []); try reflexivity.
  - cbn. lia.
  - repeat constructor; cbn; unfold RECV_DEADLINE_US, RECV_TIMEOUT_S; lia.
  - cbn. unfold RECV_DEADLINE_US, RECV_TIMEOUT_S. lia.
  - split; [constructor | vm_compute; discriminate].
Defined.

(** X21. Releasing the button starts the grace period. In RECORDING, once
    the frame of the iteration has been read and sent, a button that reads
    released moves the machine to WAIT on the same socket: [wait_start] and
    [last_blink] are both set to the clock reading taken at that moment,
    [led_on] is set, the LED pins are not written (the LED stays blue), and
    nothing but the frame is sent. Both revisions; in [part_001] released
    means that the debouncer has accepted the release. *)
Theorem X21_release_starts_the_grace_period :
  (forall l g o rr rc sl lvl gl tb tw cl,
     Part001.state l = STATE_RECORDING ->
     Part001.read_i2s_pcm g o = Some rr ->
     val rr = true ->
     sends (rest rr) = rc :: sl -> 0 <= rc ->
     gpio_in (rest rr) = lvl :: gl ->
     clock (rest rr) = tb :: tw :: cl ->
     Part001.debounced_state (Part001.debounce (lvl =? 0) (int64_t tb) (mem rr)) = false ->
     Part001.tick l g o =
     Some (mkRes (Part001.enter_wait l (int64_t tw))
                 (Part001.debounce (lvl =? 0) (int64_t tb) (mem rr))
                 (set_clock (set_gpio_in (set_sends (rest rr) sl) gl) cl)
                 [EvSend (Part001.sock l) (frame_bytes (Part001.pcm_frame (mem rr))) rc;
                  EvLog LOG_I "Button released, waiting 3s..."]))
  /\ (forall ip l g o rr rc sl lvl gl tw cl,
        MainC.state l = STATE_RECORDING ->
        MainC.read_i2s_pcm g o = Some rr ->
        sends (rest rr) = rc :: sl -> 0 <= rc ->
        gpio_in (rest rr) = lvl :: gl ->
        (lvl =? 0) = false ->
        clock (rest rr) = tw :: cl ->
        MainC.tick ip l g o =
        Some (mkRes (MainC.enter_wait l (int64_t tw)) (mem rr)
                    (set_clock (set_gpio_in (set_sends (rest rr) sl) gl) cl)
                    [EvSend (MainC.sock l) (frame_bytes (MainC.pcm_frame (mem rr))) rc;
                     EvLog LOG_I "Button released, waiting 3s..."])).
Proof.
  split.
  - intros l g o rr rc sl lvl gl tb tw cl Hst Hr Hv Hs Hrc Hg Hc Hb.
    apply wpt_exact. unfold Part001.tick. rewrite Hst.
    apply wpt_bind. eapply wpt_known; [exact Hr |].
    rewrite Hv. cbn [negb]. fwd. destruct (Z.ltb_spec rc 0); [lia |].
    apply wpt_bind.
    eapply wpt_known; [apply (button_pressed_eq (mem rr) _ lvl tb gl (tw :: cl));
                       oracle_field |].
    cbn [after val mem rest out]. rewrite Hb. cbn [negb]. fwd.
    unfold after. cbn [val mem rest out app].
    rewrite (read_i2s_pcm_good _ _ _ Hr Hv). cbn [app].
    destruct (rest rr); reflexivity.
  - intros ip l g o rr rc sl lvl gl tw cl Hst Hr Hs Hrc Hg Hb Hc.
    apply wpt_exact. unfold MainC.tick. rewrite Hst.
    apply wpt_bind. eapply wpt_known; [exact Hr |]. fwd.
    destruct (Z.ltb_spec rc 0); [lia |].
    unfold MainC.button_pressed. fwd. rewrite Hb. cbn [negb]. fwd.
    unfold after. cbn [val mem rest out app].
    rewrite (read_i2s_pcm_c_silent _ _ _ Hr). cbn [app].
    destruct (rest rr); reflexivity.
Qed.

Lemma X21_witness :
  let l := MainC.mkLocals STATE_RECORDING 3 0 false 0 in
  let o := mkOracle [1] [1000000] [] [] [silent_read] [512] [] [] [] [] in
  exists r, MainC.tick demo_server_ip l MainC.globals0 o = Some r
            /\ val r = MainC.mkLocals STATE_WAIT 3 1000000 true 1000000
            /\ out r = [EvSend 3 (frame_bytes (zeros 256)) 512;
                        EvLog LOG_I "Button released, waiting 3s..."].
Proof.
  cbv zeta. eexists. split.
  - apply (proj2 X21_release_starts_the_grace_period demo_server_ip
             (MainC.mkLocals STATE_RECORDING 3 0 false 0) MainC.globals0
             (mkOracle [1] [1000000] [] [] [silent_read] [512] [] [] [] [])
             (the (mkRes tt MainC.globals0 no_input [])
                  (MainC.read_i2s_pcm MainC.globals0
                     (mkOracle [1] [1000000] [] [] [silent_read] [512] [] [] [] [])))
             512 [] 1 [] 1000000 []);
      first [ vm_compute; reflexivity | vm_compute; discriminate ].
  - split; vm_compute; reflexivity.
Defined.

(** ** The grace period, in general *)

Lemma blink_sends_nothing on last now : filter is_send (blink_events on last now) = [].
Proof. unfold blink_events. destruct (_ >? _); reflexivity. Qed.

Lemma filter_streamed sock frames : filter is_send (streamed sock frames) = streamed sock frames.
Proof.
  unfold streamed. induction frames as [| f tl IH]; [reflexivity |].
  cbn [map filter is_send]. rewrite IH. reflexivity.
Qed.

Lemma grace_period_streams times : forall frames l g o gl cl il sl,
  Part001.state l = STATE_WAIT ->
  0 <= Part001.wait_start l ->
  Part001.wait_start l + WAIT_TIMEOUT_US < 2 ^ 63 ->
  within_grace (Part001.wait_start l) times ->
  Forall frame_goes_out frames ->
  length times = length frames ->
  length (Part001.i2s_raw g) = 1024%nat ->
  Part001.debounced_state g = false ->
  gpio_in o = repeat 1 (length frames) ++ gl ->
  clock o = wait_clock times ++ cl ->
  i2s_in o = full_reads frames ++ il ->
  sends o = map snd frames ++ sl ->
  exists r,
    Part001.run (length frames) l g o = Some r
    /\ Part001.state (val r) = STATE_WAIT
    /\ Part001.sock (val r) = Part001.sock l
    /\ Part001.wait_start (val r) = Part001.wait_start l
    /\ rest r = set_clock (set_sends (set_i2s_in (set_gpio_in o gl) il) sl) cl
    /\ filter is_send (out r) = streamed (Part001.sock l) frames
    /\ length (Part001.i2s_raw (mem r)) = 1024%nat
    /\ Part001.debounced_state (mem r) = false.
Proof.
  induction times as [| [now tb] times IH];
    intros frames l g o gl cl il sl Hst Hw0 Hmax Hin Hf Hlen Hb Hd Hg Hc Hi Hs;
    destruct frames as [| [d rc] frames]; try discriminate Hlen.
  - eexists. split; [reflexivity |]. cbn in *.
    repeat split; try assumption. rewrite <- Hg, <- Hc, <- Hi, <- Hs.
    destruct o; reflexivity.
  - pose proof (Forall_inv Hf) as [Hd1 Hrc]. cbn [fst snd] in Hd1, Hrc.
    pose proof (Forall_inv Hin) as Hnow. cbn [fst] in Hnow.
    cbn [length repeat app full_reads map fst snd wait_clock flat_map] in Hg, Hi, Hs, Hc.
    fold (wait_clock times) in Hc.
    assert (Eg : Part001.debounce (1 =? 0) (int64_t tb) g = Part001.set_button g 0 false).
    { cbn [Z.eqb]. rewrite <- Hd at 1. rewrite debounce_same_level, Hd. reflexivity. }
    set (g0 := Part001.set_button g 0 false) in *.
    set (g1 := Part001.set_pcm_frame (Part001.set_i2s_raw g0 d) (convert_frame d)).
    set (o0 := set_clock (set_gpio_in o (repeat 1 (length frames) ++ gl))
                         (wait_clock times ++ cl)).
    set (o1 := set_sends (set_i2s_in o0 (full_reads frames ++ il))
                         (map snd frames ++ sl)).
    assert (Hread : Part001.read_i2s_pcm g0 o0 =
                    Some (mkRes true g1 (set_i2s_in o0 (full_reads frames ++ il)) [])).
    { apply read_one_frame; [exact Hd1 | exact Hb | exact Hi]. }
    assert (Htick : Part001.tick l g o =
                    Some (mkRes (blinked l (int64_t now)) g1 o1
                                (blink_events (Part001.led_on l) (Part001.last_blink l)
                                              (int64_t now)
                                 ++ [EvSend (Part001.sock l) (frame_bytes (convert_frame d))
                                            rc]))).
    { apply (wait_streams l g o now tb (wait_clock times ++ cl) 1
                          (repeat 1 (length frames) ++ gl)
                          (mkRes true g1 (set_i2s_in o0 (full_reads frames ++ il)) [])
                          rc (map snd frames ++ sl) Hst Hc Hg).
      - rewrite Eg. reflexivity.
      - rewrite int64_small, sub64_small;
          unfold in_int64, WAIT_TIMEOUT_US in *; lia.
      - rewrite Eg. exact Hread.
      - reflexivity.
      - exact Hs.
      - exact Hrc. }
    destruct (blinked_keeps l (int64_t now)) as (Est & Esk & Ews & _).
    destruct (IH frames (blinked l (int64_t now)) g1 o1 gl cl il sl)
      as (r & Hrun & Hst' & Hsk' & Hws' & Hrest & Hout & Hb' & Hd');
      try reflexivity.
    { rewrite Est. exact Hst. }
    { rewrite Ews. exact Hw0. }
    { rewrite Ews. exact Hmax. }
    { rewrite Ews. exact (Forall_inv_tail Hin). }
    { exact (Forall_inv_tail Hf). }
    { cbn [length] in Hlen. lia. }
    { exact Hd1. }
    eexists. split; [apply (run_S_known _ l g o _ _ Htick Hrun) |].
    unfold after. cbn [val mem rest out].
    split; [exact Hst' |]. split; [rewrite Hsk'; exact Esk |].
    split; [rewrite Hws'; exact Ews |].
    split; [rewrite Hrest; unfold o1, o0; destruct o; reflexivity |].
    split; [| auto].
    rewrite !filter_app, blink_sends_nothing, Hout, Esk. reflexivity.
Qed.

(** X22. The grace period of [part_001], in general. With the button
    released, over any number of iterations of WAIT whose clock readings
    are no more than 3 s after [wait_start], the machine stays in WAIT on
    the same socket and what it sends is exactly the frames the driver
    delivered, in order, and no end marker. The first iteration whose
    reading is more than 3 s after [wait_start] reads no frame, sends the
    end marker (here accepted) and enters PROCESSING with [process_start]
    set to the clock reading taken after that send. *)
Theorem X22_grace_period_then_the_marker (times : list (Z * Z)) (frames : list (list Z * Z)) :
  forall l g o gl cl il sl tlate tb tp mrc,
    Part001.state l = STATE_WAIT ->
    0 <= Part001.wait_start l ->
    within_grace (Part001.wait_start l) times ->
    Part001.wait_start l + WAIT_TIMEOUT_US < tlate < 2 ^ 63 ->
    Forall frame_goes_out frames ->
    length times = length frames ->
    length (Part001.i2s_raw g) = 1024%nat ->
    Part001.debounced_state g = false ->
    gpio_in o = repeat 1 (length frames) ++ 1 :: gl ->
    clock o = wait_clock times ++ tlate :: tb :: tp :: cl ->
    i2s_in o = full_reads frames ++ il ->
    sends o = map snd frames ++ mrc :: sl ->
    0 <= mrc ->
    (exists r,
        Part001.run (length frames) l g o = Some r
        /\ Part001.state (val r) = STATE_WAIT
        /\ Part001.sock (val r) = Part001.sock l
        /\ filter is_send (out r) = streamed (Part001.sock l) frames)
    /\ exists r,
         Part001.run (S (length frames)) l g o = Some r
         /\ Part001.state (val r) = STATE_PROCESSING
         /\ Part001.sock (val r) = Part001.sock l
         /\ Part001.process_start (val r) = int64_t tp
         /\ i2s_in (rest r) = il
         /\ filter is_send (out r) =
            streamed (Part001.sock l) frames ++ [EvSend (Part001.sock l) END_MARKER mrc].
Proof.
  intros l g o gl cl il sl tlate tb tp mrc
         Hst Hw0 Hin Hlate Hf Hlen Hb Hd Hg Hc Hi Hs Hmrc.
  assert (Hmax : Part001.wait_start l + WAIT_TIMEOUT_US < 2 ^ 63) by lia.
  destruct (grace_period_streams times frames l g o (1 :: gl) (tlate :: tb :: tp :: cl)
              il (mrc :: sl) Hst Hw0 Hmax Hin Hf Hlen Hb Hd Hg Hc Hi Hs)
    as (r & Hrun & Hst' & Hsk' & Hws' & Hrest & Hout & Hb' & Hd').
  split; [exists r; auto |].
  assert (Eg : Part001.debounced_state
                 (Part001.debounce (1 =? 0) (int64_t tb) (mem r)) = false).
  { change (1 =? 0) with false. rewrite <- Hd' at 1.
    rewrite debounce_same_level. cbn. exact Hd'. }
  assert (Hw : WAIT_TIMEOUT_US < sub64 (int64_t tlate) (Part001.wait_start (val r))).
  { rewrite Hws', int64_small, sub64_small;
      unfold in_int64, WAIT_TIMEOUT_US in *; lia. }
  pose proof (part001_enters_processing (val r) (mem r) (rest r) tlate tb tp 1 gl mrc sl cl
                Hst') as Hlast.
  rewrite Hrest in Hlast.
  specialize (Hlast eq_refl eq_refl Eg Hw eq_refl Hmrc).
  rewrite <- Hrest in Hlast.
  eexists. split; [apply (run_snoc _ _ _ _ _ _ Hrun Hlast) |].
  unfold after. cbn [val mem rest out].
  cbn [Part001.state Part001.sock Part001.process_start Part001.set_state
       Part001.set_process_start].
  destruct (blinked_keeps (val r) (int64_t tlate)) as (_ & Esk & _ & _).
  split; [reflexivity |]. split; [rewrite Esk; exact Hsk' |].
  split; [reflexivity |].
  split; [rewrite Hrest; reflexivity |].
  rewrite !filter_app, blink_sends_nothing, Hout, Hsk'. reflexivity.
Qed.

(** Released at 1.000000 s: frames go out at 1.5 s and at 4.000000 s, the
    marker when the clock reads 4.000001 s. *)
Lemma X22_witness :
  let l := Part001.mkLocals STATE_WAIT 3 1000000 0 true 1000000 in
  let frames := [(repeat 0x12 1024, 512); (zeros 1024, 512)] in
  let o := mkOracle [1; 1; 1]
                    [1500000; 1500001; 4000000; 4000001; 4000001; 4000002; 4000003]
                    [] [] (full_reads frames) [512; 512; 4] [] [] [] [] in
  (exists r,
      Part001.run 2 l Part001.globals0 o = Some r
      /\ Part001.state (val r) = STATE_WAIT
      /\ Part001.sock (val r) = 3
      /\ filter is_send (out r) = streamed 3 frames)
  /\ exists r,
       Part001.run 3 l Part001.globals0 o = Some r
       /\ Part001.state (val r) = STATE_PROCESSING
       /\ Part001.sock (val r) = 3
       /\ Part001.process_start (val r) = int64_t 4000003
       /\ i2s_in (rest r) = []
       /\ filter is_send (out r) = streamed 3 frames ++ [EvSend 3 END_MARKER 4].
Proof.
  cbv zeta.
  apply (X22_grace_period_then_the_marker
           [(1500000, 1500001); (4000000, 4000001)]
           [(repeat 0x12 1024, 512); (zeros 1024, 512)]
           (Part001.mkLocals STATE_WAIT 3 1000000 0 true 1000000) Part001.globals0
           (mkOracle [1; 1; 1]
                     [1500000; 1500001; 4000000; 4000001; 4000001; 4000002; 4000003]
                     [] [] (full_reads [(repeat 0x12 1024, 512); (zeros 1024, 512)])
                     [512; 512; 4] [] [] [] [])
           [] [] [] [] 4000001 4000002 4000003 4);
    try reflexivity.
  - cbn. lia.
  - repeat constructor; cbn; unfold WAIT_TIMEOUT_US; lia.
  - cbn. unfold WAIT_TIMEOUT_US. lia.
  - repeat constructor; discriminate.
  - lia.
Defined.
